(** * Farmer Harvest: the simulation engine, embedded and verified

    A shallow embedding of the game engine of the repository (Utils.js,
    BaseEntity.js, Farmer.js, Crop.js, PowerUp.js, Obstacle.js, input.js and
    Game.js) together with the properties its specification states.

    JavaScript numbers are kept behind an interface, [JsNumber], so that every
    function of the engine is written once, the way the source writes it, and
    can be run at two instances:
    - [float_number]: IEEE-754 binary64, the numbers a JavaScript engine
      really computes with (kernel primitive floats);
    - [Q_number]: exact rationals, where the arithmetic laws that some
      properties need (order, Archimedean descent) are available.
    Properties that only depend on the control flow are proved for every
    instance.  Drawing and the DOM text sinks are write-only and are left out. *)

From Stdlib Require Import ZArith QArith Qround Qabs Qminmax List Bool String Lia Lqa.
From Stdlib Require Import PrimFloat FloatOps SpecFloat FloatAxioms.
Import ListNotations.

Set Implicit Arguments.
Set Warnings "-inexact-float".
Close Scope Q_scope.

(** ** Results of running source code: a value, a thrown exception, or a loop
    that is still running when the fuel is spent. *)

Inductive Res (A : Type) : Type :=
| Ok (a : A)
| Throws
| OutOfFuel.

Arguments Ok {A} a.
Arguments Throws {A}.
Arguments OutOfFuel {A}.

Definition bind {A B : Type} (m : Res A) (k : A -> Res B) : Res B :=
  match m with
  | Ok a => k a
  | Throws => Throws
  | OutOfFuel => OutOfFuel
  end.

Notation "x <- m ;; k" := (bind m (fun x => k))
  (at level 61, m at next level, right associativity).

(** A computation indexed by fuel diverges when no amount of fuel lets it
    finish. *)
Definition diverges {A : Type} (run : nat -> Res A) : Prop :=
  forall fuel, run fuel = OutOfFuel.

(** ** JavaScript numbers *)

Class JsNumber (N : Type) : Type := {
  of_Z : Z -> N;
  num_add : N -> N -> N;
  num_sub : N -> N -> N;
  num_mul : N -> N -> N;
  num_div : N -> N -> N;
  num_opp : N -> N;
  num_lt : N -> N -> bool;
  num_le : N -> N -> bool;
  num_eq : N -> N -> bool;
  Math_max : N -> N -> N;
  Math_min : N -> N -> N;
  Math_floor : N -> N;
  Math_abs : N -> N
}.

Declare Scope js_scope.
Delimit Scope js_scope with js.
Infix "+." := num_add (at level 50, left associativity) : js_scope.
Infix "-." := num_sub (at level 50, left associativity) : js_scope.
Infix "*." := num_mul (at level 40, left associativity) : js_scope.
Infix "/." := num_div (at level 40, left associativity) : js_scope.
Infix "<." := num_lt (at level 70, no associativity) : js_scope.
Infix "<=." := num_le (at level 70, no associativity) : js_scope.
Infix "=." := num_eq (at level 70, no associativity) : js_scope.
Notation "-. a" := (num_opp a) (at level 35, right associativity) : js_scope.
Notation "a >. b" := (num_lt b a) (at level 70, no associativity) : js_scope.
Notation "a >=. b" := (num_le b a) (at level 70, no associativity) : js_scope.
Open Scope js_scope.

(** A decimal literal [m]e-[k] of the source, e.g. [0.8] is [dec 8 1].  Both
    [m] and [10^k] are small integers, so at binary64 the correctly rounded
    quotient is the double the literal denotes. *)
Definition dec {N} `{JsNumber N} (m : Z) (k : nat) : N :=
  of_Z m /. of_Z (10 ^ Z.of_nat k).

(** [Math.PI] is the double 884279719003555 / 2^48. *)
Definition Math_PI {N} `{JsNumber N} : N :=
  of_Z 884279719003555 /. of_Z 281474976710656.

(** Array lengths used as numbers. *)
Definition of_nat {N} `{JsNumber N} (n : nat) : N := of_Z (Z.of_nat n).

(** A JavaScript boolean used as a number ([true] is 1). *)
Definition of_bool {N} `{JsNumber N} (b : bool) : N := of_Z (if b then 1 else 0).

(** *** Exact rationals *)

#[export] Instance Q_number : JsNumber Q := {
  of_Z := inject_Z;
  num_add := Qplus;
  num_sub := Qminus;
  num_mul := Qmult;
  num_div := Qdiv;
  num_opp := Qopp;
  num_lt := fun a b => negb (Qle_bool b a);
  num_le := Qle_bool;
  num_eq := Qeq_bool;
  Math_max := Qmax;
  Math_min := Qmin;
  Math_floor := fun a => inject_Z (Qfloor a);
  Math_abs := Qabs
}.

(** *** IEEE-754 binary64 *)

Module F64.

(** The double nearest to an integer (round to nearest, ties to even). *)
Definition of_Z (z : Z) : float :=
  SF2Prim (binary_normalize prec emax z 0 false).

Definition two52 : float := 4503599627370496%float.

Definition is_nan (a : float) : bool := negb (PrimFloat.eqb a a).

(** [Math.max]: NaN is contagious and +0 is above -0. *)
Definition max (a b : float) : float :=
  if is_nan a then a else if is_nan b then b
  else if PrimFloat.ltb a b then b
  else if PrimFloat.ltb b a then a
  else if PrimFloat.eqb a 0%float then PrimFloat.add a b
  else a.

(** [Math.min]: NaN is contagious and -0 is below +0. *)
Definition min (a b : float) : float :=
  if is_nan a then a else if is_nan b then b
  else if PrimFloat.ltb a b then a
  else if PrimFloat.ltb b a then b
  else if PrimFloat.eqb a 0%float
       then PrimFloat.opp (PrimFloat.add (PrimFloat.opp a) (PrimFloat.opp b))
  else a.

(** [Math.floor]: doubles of magnitude 2^52 and above, zeros, infinities and
    NaN are their own floor; below that, adding and removing 2^52 rounds to
    an integer, which is one too high when it exceeds the argument. *)
Definition floor (a : float) : float :=
  if PrimFloat.eqb a 0%float then a
  else if PrimFloat.ltb (PrimFloat.abs a) two52 then
    let t := if PrimFloat.ltb a 0%float
             then PrimFloat.add (PrimFloat.sub a two52) two52
             else PrimFloat.sub (PrimFloat.add a two52) two52 in
    if PrimFloat.ltb a t then PrimFloat.sub t 1%float else t
  else a.

End F64.

#[export] Instance float_number : JsNumber float := {
  of_Z := F64.of_Z;
  num_add := PrimFloat.add;
  num_sub := PrimFloat.sub;
  num_mul := PrimFloat.mul;
  num_div := PrimFloat.div;
  num_opp := PrimFloat.opp;
  num_lt := PrimFloat.ltb;
  num_le := PrimFloat.leb;
  num_eq := PrimFloat.eqb;
  Math_max := F64.max;
  Math_min := F64.min;
  Math_floor := F64.floor;
  Math_abs := PrimFloat.abs
}.

(** ** Utils.js *)

Section Utils.
Context {N : Type} `{JsNumber N}.

Definition WIDTH : N := of_Z 900.
Definition HEIGHT : N := of_Z 540.
Definition TILE : N := of_Z 30.

Definition clamp (v lo hi : N) : N := Math_min hi (Math_max lo v).

End Utils.

(** ** The host: what the JavaScript engine and the browser provide

    [Math.random()] and [performance.now()] are read through cursors that
    count the calls made so far; [Math.cos] and [Math.sin] are
    implementation-approximated functions of the engine. *)

Record Host (N : Type) : Type := {
  Math_random : nat -> N;
  performance_now : nat -> N;
  Math_cos : N -> N;
  Math_sin : N -> N
}.

(** ** BaseEntity.js *)

Module Entity.
Record t (N : Type) : Type := make { x : N; y : N; w : N; h : N; dead : bool }.

Section Ops.
Context {N : Type}.

Definition new (x0 y0 w0 h0 : N) : t N := make x0 y0 w0 h0 false.

Definition set_dead (d : bool) (e : t N) : t N :=
  make (x e) (y e) (w e) (h e) d.

Definition set_pos (x0 y0 : N) (e : t N) : t N :=
  make x0 y0 (w e) (h e) (dead e).
End Ops.
End Entity.

(** [aabb] of Utils.js: all four comparisons are strict. *)
Definition aabb {N} `{JsNumber N} (a b : Entity.t N) : bool :=
  (Entity.x a <. Entity.x b +. Entity.w b)
  && (Entity.x a +. Entity.w a >. Entity.x b)
  && (Entity.y a <. Entity.y b +. Entity.h b)
  && (Entity.y a +. Entity.h a >. Entity.y b).

(** ** input.js: the set of held keys *)

Module Input.
Record t : Type := make { keys : list string }.

Definition has (i : t) (k : string) : bool :=
  existsb (String.eqb k) (keys i).

Definition add (k : string) (i : t) : t :=
  if has i k then i else make (keys i ++ [k]).

Definition delete (k : string) (i : t) : t :=
  make (filter (fun k' => negb (String.eqb k k')) (keys i)).
End Input.

(** ** Farmer.js: the player *)

Module Farmer.
Record t (N : Type) : Type := make {
  base : Entity.t N;
  speed : N;
  vx : N;
  vy : N;
  baseSpeed : N;
  speedBoostEnd : N;
  currentRow : nat;
  currentFrame : nat;
  frameTime : N;
  frameDuration : N;
  cellSize : N;
  isMoving : bool
}.

Section Ops.
Context {N : Type} `{JsNumber N}.

Definition new (x0 y0 : N) : t N :=
  make (Entity.new x0 y0 (of_Z 34) (of_Z 34)) (of_Z 260) (of_Z 0) (of_Z 0)
       (of_Z 260) (of_Z 0) 0 0 (of_Z 0) (dec 1 1) (of_Z 32) false.

Definition handleInput (input : Input.t) (f : t N) : t N :=
  let L := Input.has input "ArrowLeft"%string in
  let R := Input.has input "ArrowRight"%string in
  let U := Input.has input "ArrowUp"%string in
  let D := Input.has input "ArrowDown"%string in
  let vx' := (of_bool R -. of_bool L) *. speed f in
  let vy' := (of_bool D -. of_bool U) *. speed f in
  if negb (vx' =. of_Z 0) || negb (vy' =. of_Z 0) then
    let row :=
      if Math_abs vy' >. Math_abs vx'
      then (if vy' >. of_Z 0 then 0 else 3)
      else (if vx' >. of_Z 0 then 2 else 1) in
    make (base f) (speed f) vx' vy' (baseSpeed f) (speedBoostEnd f)
         row (currentFrame f) (frameTime f) (frameDuration f) (cellSize f) true
  else
    make (base f) (speed f) vx' vy' (baseSpeed f) (speedBoostEnd f)
         (currentRow f) 0 (frameTime f) (frameDuration f) (cellSize f) false.

(** [now] is the value [performance.now()] returned for this call. *)
Definition applySpeedBoost (now duration : N) (f : t N) : t N :=
  make (base f) (baseSpeed f *. dec 15 1) (vx f) (vy f) (baseSpeed f)
       (now /. of_Z 1000 +. duration)
       (currentRow f) (currentFrame f) (frameTime f) (frameDuration f)
       (cellSize f) (isMoving f).

(** The position the player asks for: the old one plus velocity times
    [dt], clamped to the world on each axis. *)
Definition candidate_x (dt : N) (f : t N) : N :=
  clamp (Entity.x (base f) +. vx f *. dt) (of_Z 0) (WIDTH -. Entity.w (base f)).

Definition candidate_y (dt : N) (f : t N) : N :=
  clamp (Entity.y (base f) +. vy f *. dt) (of_Z 0) (HEIGHT -. Entity.h (base f)).

Definition update (now dt : N) (obstacles : list (Entity.t N)) (f : t N) : t N :=
  let speed' := if now /. of_Z 1000 >. speedBoostEnd f then baseSpeed f else speed f in
  let '(frameTime', currentFrame') :=
    if isMoving f then
      let ft := frameTime f +. dt in
      if ft >=. frameDuration f
      then (of_Z 0, Nat.modulo (currentFrame f + 1) 4)
      else (ft, currentFrame f)
    else (frameTime f, currentFrame f) in
  let moved := Entity.set_pos (candidate_x dt f) (candidate_y dt f) (base f) in
  let hitObs := existsb (fun o => aabb moved o) obstacles in
  make (if hitObs then base f else moved)
       speed' (vx f) (vy f) (baseSpeed f) (speedBoostEnd f)
       (currentRow f) currentFrame' frameTime' (frameDuration f)
       (cellSize f) (isMoving f).
End Ops.
End Farmer.


(** ** Crop.js: the collectibles *)

Module Crop.
Inductive kind : Type := wheat | pumpkin | golden_apple.

Record t (N : Type) : Type := make { base : Entity.t N; type : kind; sway : N }.

Section Ops.
Context {N : Type} `{JsNumber N}.

(** [r] is the value [Math.random()] returned for the sway. *)
Definition new (x0 y0 : N) (ty : kind) (r : N) : t N :=
  make (Entity.new x0 y0 (of_Z 20) (of_Z 26)) ty (r *. Math_PI *. of_Z 2).

(** The [points] field: set once by the constructor from the table
    [{ wheat: 1, pumpkin: 3, golden_apple: 5 }] and never written again; the
    fallback [|| 1] is for a type outside the table, which [kind] excludes. *)
Definition points (c : t N) : N :=
  match type c with
  | wheat => of_Z 1
  | pumpkin => of_Z 3
  | golden_apple => of_Z 5
  end.

Definition update (dt : N) (c : t N) : t N :=
  make (base c) (type c) (sway c +. dt *. of_Z 2).

Definition set_dead (d : bool) (c : t N) : t N :=
  make (Entity.set_dead d (base c)) (type c) (sway c).

Definition dead (c : t N) : bool := Entity.dead (base c).
End Ops.
End Crop.

(** ** PowerUp.js *)

Module PowerUp.
Record t (N : Type) : Type := make { base : Entity.t N; angle : N }.

Section Ops.
Context {N : Type} `{JsNumber N}.

Definition new (x0 y0 r : N) : t N :=
  make (Entity.new x0 y0 (of_Z 16) (of_Z 16)) (r *. Math_PI *. of_Z 2).

Definition update (dt : N) (p : t N) : t N :=
  make (base p) (angle p +. dt *. of_Z 3).

Definition set_dead (d : bool) (p : t N) : t N :=
  make (Entity.set_dead d (base p)) (angle p).

Definition dead (p : t N) : bool := Entity.dead (base p).
End Ops.
End PowerUp.

(** ** Obstacle.js: scarecrows (static) and crows (mobile) *)

Module Scarecrow.
Definition t (N : Type) : Type := Entity.t N.

Definition new {N} `{JsNumber N} (x0 y0 : N) : t N :=
  Entity.new x0 y0 (of_Z 26) (of_Z 46).
End Scarecrow.

Module Crow.
Record t (N : Type) : Type := make {
  base : Entity.t N;
  vx : N;
  vy : N;
  maxSpeed : N;
  angle : N
}.

Section Ops.
Context {N : Type} `{JsNumber N}.

(** [r1], [r2], [r3] are the three [Math.random()] values of the
    constructor, in call order. *)
Definition new (x0 y0 r1 r2 r3 : N) : t N :=
  make (Entity.new x0 y0 (of_Z 20) (of_Z 20))
       ((r1 -. dec 5 1) *. of_Z 100)
       ((r2 -. dec 5 1) *. of_Z 100)
       (of_Z 120)
       (r3 *. Math_PI *. of_Z 2).

(** One crow step; [rnd] is the cursor into [Math.random()], returned
    advanced by the one or two calls made. *)
Definition update (host : Host N) (dt : N) (rnd : nat) (c : t N) : t N * nat :=
  let vx' := Math_cos host (angle c) *. maxSpeed c in
  let vy' := Math_sin host (angle c) *. maxSpeed c in
  let x' := Entity.x (base c) +. vx' *. dt in
  let y' := Entity.y (base c) +. vy' *. dt in
  let '(angle1, rnd') :=
    if Math_random host rnd <. dec 1 2
    then (angle c +. (Math_random host (S rnd) -. dec 5 1) *. Math_PI, S (S rnd))
    else (angle c, S rnd) in
  let angle2 :=
    if (x' <=. of_Z 0) || (x' >=. WIDTH -. Entity.w (base c))
    then Math_PI -. angle1 else angle1 in
  let angle3 :=
    if (y' <=. of_Z 0) || (y' >=. HEIGHT -. Entity.h (base c))
    then -. angle2 else angle2 in
  (make (Entity.set_pos x' y' (base c)) vx' vy' (maxSpeed c) angle3, rnd').

Definition set_dead (d : bool) (c : t N) : t N :=
  make (Entity.set_dead d (base c)) (vx c) (vy c) (maxSpeed c) (angle c).

Definition dead (c : t N) : bool := Entity.dead (base c).
End Ops.
End Crow.

(** ** Game.js *)

Module LevelConfig.
Record t (N : Type) : Type := make {
  goal : N;
  timeLimit : N;
  spawnEvery : N;
  crowSpawnEvery : N;
  powerUpSpawnEvery : N;
  numScarecrows : nat
}.
End LevelConfig.

Module Config.
Record t (N : Type) : Type := make { levels : list (LevelConfig.t N) }.
End Config.

Inductive State : Type := MENU | PLAYING | PAUSED | GAME_OVER | WIN.

Module Game.

(** The fields of the [Game] object that the simulation reads or writes.
    [rnd] and [clk] are the host cursors: how many [Math.random()] and
    [performance.now()] calls have been made so far. *)
Record t (N : Type) : Type := make {
  state : State;
  level : nat;
  config : option (Config.t N);
  requiredScore : N;
  maxTime : N;
  player : Farmer.t N;
  crops : list (Crop.t N);
  obstacles : list (Scarecrow.t N);
  powerUps : list (PowerUp.t N);
  crows : list (Crow.t N);
  lastTime : N;
  timeLeft : N;
  spawnEvery : N;
  _accumSpawn : N;
  powerUpSpawnEvery : N;
  _accumPowerUpSpawn : N;
  crowSpawnEvery : N;
  _accumCrowSpawn : N;
  score : N;
  goal : N;
  input : Input.t;
  rnd : nat;
  clk : nat
}.

Section Setters.
Context {N : Type}.

Definition set_state (v : State) (g : t N) : t N :=
  make v (level g) (config g) (requiredScore g) (maxTime g) (player g)
       (crops g) (obstacles g) (powerUps g) (crows g) (lastTime g)
       (timeLeft g) (spawnEvery g) (_accumSpawn g) (powerUpSpawnEvery g)
       (_accumPowerUpSpawn g) (crowSpawnEvery g) (_accumCrowSpawn g)
       (score g) (goal g) (input g) (rnd g) (clk g).

Definition set_level (v : nat) (g : t N) : t N :=
  make (state g) v (config g) (requiredScore g) (maxTime g) (player g)
       (crops g) (obstacles g) (powerUps g) (crows g) (lastTime g)
       (timeLeft g) (spawnEvery g) (_accumSpawn g) (powerUpSpawnEvery g)
       (_accumPowerUpSpawn g) (crowSpawnEvery g) (_accumCrowSpawn g)
       (score g) (goal g) (input g) (rnd g) (clk g).

Definition set_config (v : option (Config.t N)) (g : t N) : t N :=
  make (state g) (level g) v (requiredScore g) (maxTime g) (player g)
       (crops g) (obstacles g) (powerUps g) (crows g) (lastTime g)
       (timeLeft g) (spawnEvery g) (_accumSpawn g) (powerUpSpawnEvery g)
       (_accumPowerUpSpawn g) (crowSpawnEvery g) (_accumCrowSpawn g)
       (score g) (goal g) (input g) (rnd g) (clk g).

Definition set_requiredScore (v : N) (g : t N) : t N :=
  make (state g) (level g) (config g) v (maxTime g) (player g) (crops g)
       (obstacles g) (powerUps g) (crows g) (lastTime g) (timeLeft g)
       (spawnEvery g) (_accumSpawn g) (powerUpSpawnEvery g)
       (_accumPowerUpSpawn g) (crowSpawnEvery g) (_accumCrowSpawn g)
       (score g) (goal g) (input g) (rnd g) (clk g).

Definition set_maxTime (v : N) (g : t N) : t N :=
  make (state g) (level g) (config g) (requiredScore g) v (player g)
       (crops g) (obstacles g) (powerUps g) (crows g) (lastTime g)
       (timeLeft g) (spawnEvery g) (_accumSpawn g) (powerUpSpawnEvery g)
       (_accumPowerUpSpawn g) (crowSpawnEvery g) (_accumCrowSpawn g)
       (score g) (goal g) (input g) (rnd g) (clk g).

Definition set_player (v : Farmer.t N) (g : t N) : t N :=
  make (state g) (level g) (config g) (requiredScore g) (maxTime g) v
       (crops g) (obstacles g) (powerUps g) (crows g) (lastTime g)
       (timeLeft g) (spawnEvery g) (_accumSpawn g) (powerUpSpawnEvery g)
       (_accumPowerUpSpawn g) (crowSpawnEvery g) (_accumCrowSpawn g)
       (score g) (goal g) (input g) (rnd g) (clk g).

Definition set_crops (v : list (Crop.t N)) (g : t N) : t N :=
  make (state g) (level g) (config g) (requiredScore g) (maxTime g)
       (player g) v (obstacles g) (powerUps g) (crows g) (lastTime g)
       (timeLeft g) (spawnEvery g) (_accumSpawn g) (powerUpSpawnEvery g)
       (_accumPowerUpSpawn g) (crowSpawnEvery g) (_accumCrowSpawn g)
       (score g) (goal g) (input g) (rnd g) (clk g).

Definition set_obstacles (v : list (Scarecrow.t N)) (g : t N) : t N :=
  make (state g) (level g) (config g) (requiredScore g) (maxTime g)
       (player g) (crops g) v (powerUps g) (crows g) (lastTime g)
       (timeLeft g) (spawnEvery g) (_accumSpawn g) (powerUpSpawnEvery g)
       (_accumPowerUpSpawn g) (crowSpawnEvery g) (_accumCrowSpawn g)
       (score g) (goal g) (input g) (rnd g) (clk g).

Definition set_powerUps (v : list (PowerUp.t N)) (g : t N) : t N :=
  make (state g) (level g) (config g) (requiredScore g) (maxTime g)
       (player g) (crops g) (obstacles g) v (crows g) (lastTime g)
       (timeLeft g) (spawnEvery g) (_accumSpawn g) (powerUpSpawnEvery g)
       (_accumPowerUpSpawn g) (crowSpawnEvery g) (_accumCrowSpawn g)
       (score g) (goal g) (input g) (rnd g) (clk g).

Definition set_crows (v : list (Crow.t N)) (g : t N) : t N :=
  make (state g) (level g) (config g) (requiredScore g) (maxTime g)
       (player g) (crops g) (obstacles g) (powerUps g) v (lastTime g)
       (timeLeft g) (spawnEvery g) (_accumSpawn g) (powerUpSpawnEvery g)
       (_accumPowerUpSpawn g) (crowSpawnEvery g) (_accumCrowSpawn g)
       (score g) (goal g) (input g) (rnd g) (clk g).

Definition set_lastTime (v : N) (g : t N) : t N :=
  make (state g) (level g) (config g) (requiredScore g) (maxTime g)
       (player g) (crops g) (obstacles g) (powerUps g) (crows g) v
       (timeLeft g) (spawnEvery g) (_accumSpawn g) (powerUpSpawnEvery g)
       (_accumPowerUpSpawn g) (crowSpawnEvery g) (_accumCrowSpawn g)
       (score g) (goal g) (input g) (rnd g) (clk g).

Definition set_timeLeft (v : N) (g : t N) : t N :=
  make (state g) (level g) (config g) (requiredScore g) (maxTime g)
       (player g) (crops g) (obstacles g) (powerUps g) (crows g)
       (lastTime g) v (spawnEvery g) (_accumSpawn g) (powerUpSpawnEvery g)
       (_accumPowerUpSpawn g) (crowSpawnEvery g) (_accumCrowSpawn g)
       (score g) (goal g) (input g) (rnd g) (clk g).

Definition set_spawnEvery (v : N) (g : t N) : t N :=
  make (state g) (level g) (config g) (requiredScore g) (maxTime g)
       (player g) (crops g) (obstacles g) (powerUps g) (crows g)
       (lastTime g) (timeLeft g) v (_accumSpawn g) (powerUpSpawnEvery g)
       (_accumPowerUpSpawn g) (crowSpawnEvery g) (_accumCrowSpawn g)
       (score g) (goal g) (input g) (rnd g) (clk g).

Definition set_accumSpawn (v : N) (g : t N) : t N :=
  make (state g) (level g) (config g) (requiredScore g) (maxTime g)
       (player g) (crops g) (obstacles g) (powerUps g) (crows g)
       (lastTime g) (timeLeft g) (spawnEvery g) v (powerUpSpawnEvery g)
       (_accumPowerUpSpawn g) (crowSpawnEvery g) (_accumCrowSpawn g)
       (score g) (goal g) (input g) (rnd g) (clk g).

Definition set_powerUpSpawnEvery (v : N) (g : t N) : t N :=
  make (state g) (level g) (config g) (requiredScore g) (maxTime g)
       (player g) (crops g) (obstacles g) (powerUps g) (crows g)
       (lastTime g) (timeLeft g) (spawnEvery g) (_accumSpawn g) v
       (_accumPowerUpSpawn g) (crowSpawnEvery g) (_accumCrowSpawn g)
       (score g) (goal g) (input g) (rnd g) (clk g).

Definition set_accumPowerUpSpawn (v : N) (g : t N) : t N :=
  make (state g) (level g) (config g) (requiredScore g) (maxTime g)
       (player g) (crops g) (obstacles g) (powerUps g) (crows g)
       (lastTime g) (timeLeft g) (spawnEvery g) (_accumSpawn g)
       (powerUpSpawnEvery g) v (crowSpawnEvery g) (_accumCrowSpawn g)
       (score g) (goal g) (input g) (rnd g) (clk g).

Definition set_crowSpawnEvery (v : N) (g : t N) : t N :=
  make (state g) (level g) (config g) (requiredScore g) (maxTime g)
       (player g) (crops g) (obstacles g) (powerUps g) (crows g)
       (lastTime g) (timeLeft g) (spawnEvery g) (_accumSpawn g)
       (powerUpSpawnEvery g) (_accumPowerUpSpawn g) v (_accumCrowSpawn g)
       (score g) (goal g) (input g) (rnd g) (clk g).

Definition set_accumCrowSpawn (v : N) (g : t N) : t N :=
  make (state g) (level g) (config g) (requiredScore g) (maxTime g)
       (player g) (crops g) (obstacles g) (powerUps g) (crows g)
       (lastTime g) (timeLeft g) (spawnEvery g) (_accumSpawn g)
       (powerUpSpawnEvery g) (_accumPowerUpSpawn g) (crowSpawnEvery g) v
       (score g) (goal g) (input g) (rnd g) (clk g).

Definition set_score (v : N) (g : t N) : t N :=
  make (state g) (level g) (config g) (requiredScore g) (maxTime g)
       (player g) (crops g) (obstacles g) (powerUps g) (crows g)
       (lastTime g) (timeLeft g) (spawnEvery g) (_accumSpawn g)
       (powerUpSpawnEvery g) (_accumPowerUpSpawn g) (crowSpawnEvery g)
       (_accumCrowSpawn g) v (goal g) (input g) (rnd g) (clk g).

Definition set_goal (v : N) (g : t N) : t N :=
  make (state g) (level g) (config g) (requiredScore g) (maxTime g)
       (player g) (crops g) (obstacles g) (powerUps g) (crows g)
       (lastTime g) (timeLeft g) (spawnEvery g) (_accumSpawn g)
       (powerUpSpawnEvery g) (_accumPowerUpSpawn g) (crowSpawnEvery g)
       (_accumCrowSpawn g) (score g) v (input g) (rnd g) (clk g).

Definition set_input (v : Input.t) (g : t N) : t N :=
  make (state g) (level g) (config g) (requiredScore g) (maxTime g)
       (player g) (crops g) (obstacles g) (powerUps g) (crows g)
       (lastTime g) (timeLeft g) (spawnEvery g) (_accumSpawn g)
       (powerUpSpawnEvery g) (_accumPowerUpSpawn g) (crowSpawnEvery g)
       (_accumCrowSpawn g) (score g) (goal g) v (rnd g) (clk g).

Definition set_rnd (v : nat) (g : t N) : t N :=
  make (state g) (level g) (config g) (requiredScore g) (maxTime g)
       (player g) (crops g) (obstacles g) (powerUps g) (crows g)
       (lastTime g) (timeLeft g) (spawnEvery g) (_accumSpawn g)
       (powerUpSpawnEvery g) (_accumPowerUpSpawn g) (crowSpawnEvery g)
       (_accumCrowSpawn g) (score g) (goal g) (input g) v (clk g).

Definition set_clk (v : nat) (g : t N) : t N :=
  make (state g) (level g) (config g) (requiredScore g) (maxTime g)
       (player g) (crops g) (obstacles g) (powerUps g) (crows g)
       (lastTime g) (timeLeft g) (spawnEvery g) (_accumSpawn g)
       (powerUpSpawnEvery g) (_accumPowerUpSpawn g) (crowSpawnEvery g)
       (_accumCrowSpawn g) (score g) (goal g) (input g) (rnd g) v.
End Setters.

Section Ops.
Context {N : Type} `{JsNumber N}.
Variable host : Host N.

(** The constructor: the state of a game object before the first start. *)
Definition new : t N :=
  make MENU 1 None (of_Z 0) (of_Z 0)
       (Farmer.new (WIDTH /. of_Z 2 -. of_Z 17) (HEIGHT -. of_Z 80))
       [] [] [] [] (of_Z 0) (of_Z 0) (of_Z 0) (of_Z 0) (of_Z 0) (of_Z 0)
       (of_Z 0) (of_Z 0) (of_Z 0) (of_Z 0) (Input.make []) 0 0.

(** The built-in levels used when [config.json] cannot be loaded. *)
Definition default_config : Config.t N :=
  Config.make
    [ LevelConfig.make (of_Z 15) (of_Z 60) (dec 8 1) (of_Z 5) (of_Z 10) 2;
      LevelConfig.make (of_Z 20) (of_Z 55) (dec 6 1) (of_Z 4) (of_Z 8) 3;
      LevelConfig.make (of_Z 25) (of_Z 50) (dec 4 1) (of_Z 3) (of_Z 6) 4 ].

(** [Math.floor(Math.random() * ((WIDTH - 2 * TILE) / TILE)) * TILE + TILE]
    and the same over [HEIGHT], from two consecutive random draws. *)
Definition random_gx (i : nat) : N :=
  Math_floor (Math_random host i *. ((WIDTH -. of_Z 2 *. TILE) /. TILE)) *. TILE +. TILE.

Definition random_gy (i : nat) : N :=
  Math_floor (Math_random host i *. ((HEIGHT -. of_Z 2 *. TILE) /. TILE)) *. TILE +. TILE.

(** The [for] loop that pushes [n] scarecrows at random cells. *)
Fixpoint place_scarecrows (n : nat) (g : t N) : t N :=
  match n with
  | O => g
  | S n' =>
      let s := Scarecrow.new (random_gx (rnd g)) (random_gy (S (rnd g))) in
      place_scarecrows n' (set_rnd (S (S (rnd g))) (set_obstacles (obstacles g ++ [s]) g))
  end.

(** [config.levels[i]]; reading a field of a missing level throws. *)
Definition level_config (c : option (Config.t N)) (i : nat) : Res (LevelConfig.t N) :=
  match c with
  | Some c => match nth_error (Config.levels c) i with
              | Some lc => Ok lc
              | None => Throws
              end
  | None => Throws
  end.

Definition resetWithConfig (cfg : Config.t N) (g : t N) : Res (t N) :=
  lc <- level_config (Some cfg) 0 ;;
  let g := set_state MENU g in
  let g := set_level 1 g in
  let g := set_player (Farmer.new (WIDTH /. of_Z 2 -. of_Z 17) (HEIGHT -. of_Z 80)) g in
  let g := set_crops [] g in
  let g := set_obstacles [] g in
  let g := set_powerUps [] g in
  let g := set_crows [] g in
  let g := set_score (of_Z 0) g in
  let g := set_requiredScore (LevelConfig.goal lc) g in
  let g := set_goal (requiredScore g) g in
  let g := set_timeLeft (LevelConfig.timeLimit lc) g in
  let g := set_maxTime (LevelConfig.timeLimit lc) g in
  let g := set_spawnEvery (LevelConfig.spawnEvery lc) g in
  let g := set_crowSpawnEvery (LevelConfig.crowSpawnEvery lc) g in
  let g := set_powerUpSpawnEvery (LevelConfig.powerUpSpawnEvery lc) g in
  let g := set_accumSpawn (of_Z 0) g in
  let g := set_accumPowerUpSpawn (of_Z 0) g in
  let g := set_accumCrowSpawn (of_Z 0) g in
  let g := set_clk (S (clk g)) (set_lastTime (performance_now host (clk g)) g) in
  Ok (place_scarecrows (LevelConfig.numScarecrows lc) g).

Definition togglePause (g : t N) : t N :=
  match state g with
  | PLAYING => set_state PAUSED g
  | PAUSED => set_state PLAYING g
  | _ => g
  end.

(** [start]: [fetched] is the outcome of loading [config.json]; a failed
    load, or a loaded configuration that makes the reset throw, falls back
    to the built-in levels. *)
Definition start (fetched : option (Config.t N)) (g : t N) : Res (t N) :=
  match state g with
  | PAUSED => Ok (set_state PLAYING g)
  | _ =>
      let fallback :=
        g' <- resetWithConfig default_config (set_config (Some default_config) g) ;;
        Ok (set_state PLAYING g') in
      match fetched with
      | Some cfg =>
          match resetWithConfig cfg (set_config (Some cfg) g) with
          | Ok g' => Ok (set_state PLAYING g')
          | _ => fallback
          end
      | None => fallback
      end
  end.

Definition advanceLevel (g : t N) : Res (t N) :=
  if Nat.leb 3 (level g) then Ok g else
  let g := set_level (S (level g)) g in
  lc <- level_config (config g) (level g - 1) ;;
  let g := set_timeLeft (LevelConfig.timeLimit lc) g in
  let g := set_maxTime (timeLeft g) g in
  let g := set_crops [] g in
  let g := set_powerUps [] g in
  let g := set_crows [] g in
  let g := set_accumSpawn (of_Z 0) g in
  let g := set_accumPowerUpSpawn (of_Z 0) g in
  let g := set_accumCrowSpawn (of_Z 0) g in
  let g := set_spawnEvery (LevelConfig.spawnEvery lc) g in
  let g := set_crowSpawnEvery (LevelConfig.crowSpawnEvery lc) g in
  let g := set_powerUpSpawnEvery (LevelConfig.powerUpSpawnEvery lc) g in
  let g := set_requiredScore (requiredScore g +. LevelConfig.goal lc) g in
  let g := set_goal (requiredScore g) g in
  let g := set_obstacles [] g in
  Ok (place_scarecrows (LevelConfig.numScarecrows lc) g).

(** [types[Math.floor(Math.random() * types.length)]]; an index outside
    the array reads [undefined], for which the constructor's default
    parameter is ["wheat"]. *)
Definition random_type (i : nat) : Crop.kind :=
  let k := Math_floor (Math_random host i *. of_Z 3) in
  if k =. of_Z 0 then Crop.wheat
  else if k =. of_Z 1 then Crop.pumpkin
  else if k =. of_Z 2 then Crop.golden_apple
  else Crop.wheat.

Definition spawnCrop (g : t N) : t N :=
  let i := rnd g in
  let c := Crop.new (random_gx i) (random_gy (i + 1)) (random_type (i + 2))
                    (Math_random host (i + 3)) in
  set_rnd (i + 4) (set_crops (crops g ++ [c]) g).

Definition spawnPowerUp (g : t N) : t N :=
  let i := rnd g in
  let p := PowerUp.new (random_gx i) (random_gy (i + 1)) (Math_random host (i + 2)) in
  set_rnd (i + 3) (set_powerUps (powerUps g ++ [p]) g).

Definition spawnCrow (g : t N) : t N :=
  let i := rnd g in
  let c := Crow.new (random_gx i) (random_gy (i + 1)) (Math_random host (i + 2))
                    (Math_random host (i + 3)) (Math_random host (i + 4)) in
  set_rnd (i + 5) (set_crows (crows g ++ [c]) g).

Definition reset (fetched : option (Config.t N)) (g : t N) : Res (t N) :=
  match config g with
  | Some cfg => resetWithConfig cfg g
  | None => start fetched g
  end.

(** *** The frame update, phase by phase

    [update] runs the statements of its body in order; each group of
    statements is a [Phase], so that the order is a value one can state
    properties about and run prefixes of. *)

(** [acc += dt; while (acc >= every) { acc -= every; spawn(); }], the loop
    part: one iteration per unit of fuel. *)
Fixpoint spawn_while (fuel : nat) (acc every : t N -> N)
         (set_acc : N -> t N -> t N) (spawn : t N -> t N) (g : t N) : Res (t N) :=
  if acc g >=. every g then
    match fuel with
    | O => OutOfFuel
    | S fuel' =>
        spawn_while fuel' acc every set_acc spawn (spawn (set_acc (acc g -. every g) g))
    end
  else Ok g.

Definition handle_input (g : t N) : t N :=
  set_player (Farmer.handleInput (input g) (player g)) g.

Definition update_player (dt : N) (g : t N) : t N :=
  set_clk (S (clk g))
    (set_player (Farmer.update (performance_now host (clk g)) dt (obstacles g) (player g)) g).

Definition spawn_crops (fuel : nat) (dt : N) (g : t N) : Res (t N) :=
  spawn_while fuel (@_accumSpawn N) (@spawnEvery N) set_accumSpawn spawnCrop
              (set_accumSpawn (_accumSpawn g +. dt) g).

Definition spawn_powerUps (fuel : nat) (dt : N) (g : t N) : Res (t N) :=
  spawn_while fuel (@_accumPowerUpSpawn N) (@powerUpSpawnEvery N)
              set_accumPowerUpSpawn spawnPowerUp
              (set_accumPowerUpSpawn (_accumPowerUpSpawn g +. dt) g).

Definition spawn_crows (fuel : nat) (dt : N) (g : t N) : Res (t N) :=
  spawn_while fuel (@_accumCrowSpawn N) (@crowSpawnEvery N) set_accumCrowSpawn spawnCrow
              (set_accumCrowSpawn (_accumCrowSpawn g +. dt) g).

Definition touches_crop (g : t N) (c : Crop.t N) : bool :=
  aabb (Farmer.base (player g)) (Crop.base c).

Definition touches_powerUp (g : t N) (p : PowerUp.t N) : bool :=
  aabb (Farmer.base (player g)) (PowerUp.base p).

Definition touches_crow (g : t N) (c : Crow.t N) : bool :=
  aabb (Farmer.base (player g)) (Crow.base c).

(** [collected.reduce((sum, c) => sum + c.points, 0)] *)
Definition addedPoints (collected : list (Crop.t N)) : N :=
  fold_left (fun sum c => sum +. Crop.points c) collected (of_Z 0).

(** Lines 370-387: the batch of crops under the player, their points, and
    the goal check, which is made only when the batch is not empty. *)
Definition collect_crops (g : t N) : Res (t N) :=
  let collected := filter (touches_crop g) (crops g) in
  match collected with
  | [] => Ok g
  | _ :: _ =>
      let g := set_crops (map (fun c => if touches_crop g c
                                        then Crop.set_dead true c else c) (crops g)) g in
      let g := set_score (score g +. addedPoints collected) g in
      if score g >=. goal g then
        if Nat.ltb (level g) 3 then advanceLevel g
        else Ok (set_state WIN g)
      else Ok g
  end.

Definition purge_crops (g : t N) : t N :=
  set_crops (filter (fun c => negb (Crop.dead c)) (crops g)) g.

Definition update_crops (dt : N) (g : t N) : t N :=
  set_crops (map (Crop.update dt) (crops g)) g.

(** Lines 394-398: every power-up under the player is marked and calls
    [applySpeedBoost(5)], each call reading the clock. *)
Definition collect_powerUps (g : t N) : t N :=
  let collectedPowerUps := filter (touches_powerUp g) (powerUps g) in
  let g1 := set_powerUps (map (fun p => if touches_powerUp g p
                                        then PowerUp.set_dead true p else p)
                              (powerUps g)) g in
  fold_left (fun g' _ =>
               set_clk (S (clk g'))
                 (set_player (Farmer.applySpeedBoost (performance_now host (clk g'))
                                                     (of_Z 5) (player g')) g'))
            collectedPowerUps g1.

Definition purge_powerUps (g : t N) : t N :=
  set_powerUps (filter (fun p => negb (PowerUp.dead p)) (powerUps g)) g.

Definition update_powerUps (dt : N) (g : t N) : t N :=
  set_powerUps (map (PowerUp.update dt) (powerUps g)) g.

(** [crows.forEach(crow => crow.update(dt, this))], threading the random
    cursor through the crows in list order. *)
Fixpoint update_crow_list (dt : N) (r : nat) (l : list (Crow.t N))
  : list (Crow.t N) * nat :=
  match l with
  | [] => ([], r)
  | c :: l' =>
      let '(c', r1) := Crow.update host dt r c in
      let '(l'', r2) := update_crow_list dt r1 l' in
      (c' :: l'', r2)
  end.

Definition update_crows (dt : N) (g : t N) : t N :=
  let '(cs, r) := update_crow_list dt (rnd g) (crows g) in
  set_rnd r (set_crows cs g).

(** Lines 404-409: two points lost per crow under the player, floored at
    zero. *)
Definition hit_crows (g : t N) : t N :=
  let hitCrows := filter (touches_crow g) (crows g) in
  if Nat.ltb 0 (List.length hitCrows) then
    let g1 := set_score (Math_max (of_Z 0)
                           (score g -. of_Z 2 *. of_nat (List.length hitCrows))) g in
    set_crows (map (fun c => if touches_crow g c then Crow.set_dead true c else c)
                   (crows g)) g1
  else g.

Definition purge_crows (g : t N) : t N :=
  set_crows (filter (fun c => negb (Crow.dead c)) (crows g)) g.

(** [hitCrows.length], line 404: the number of crows whose box intersects
    the player's. *)
Definition crows_hit (g : t N) : nat :=
  List.length (filter (touches_crow g) (crows g)).

Inductive Phase : Type :=
| HandleInput | UpdatePlayer
| SpawnCrops | SpawnPowerUps | SpawnCrows
| CollectCrops | PurgeCrops | UpdateCrops
| CollectPowerUps | PurgePowerUps | UpdatePowerUps
| UpdateCrows | HitCrows | PurgeCrows.

Definition run_phase (fuel : nat) (dt : N) (p : Phase) (g : t N) : Res (t N) :=
  match p with
  | HandleInput => Ok (handle_input g)
  | UpdatePlayer => Ok (update_player dt g)
  | SpawnCrops => spawn_crops fuel dt g
  | SpawnPowerUps => spawn_powerUps fuel dt g
  | SpawnCrows => spawn_crows fuel dt g
  | CollectCrops => collect_crops g
  | PurgeCrops => Ok (purge_crops g)
  | UpdateCrops => Ok (update_crops dt g)
  | CollectPowerUps => Ok (collect_powerUps g)
  | PurgePowerUps => Ok (purge_powerUps g)
  | UpdatePowerUps => Ok (update_powerUps dt g)
  | UpdateCrows => Ok (update_crows dt g)
  | HitCrows => Ok (hit_crows g)
  | PurgeCrows => Ok (purge_crows g)
  end.

Fixpoint run_phases (fuel : nat) (dt : N) (ps : list Phase) (g : t N) : Res (t N) :=
  match ps with
  | [] => Ok g
  | p :: ps' => g' <- run_phase fuel dt p g ;; run_phases fuel dt ps' g'
  end.

(** The body of [update] after the countdown, lines 343-410, in source
    order. *)
Definition frame_phases : list Phase :=
  [ HandleInput; UpdatePlayer;
    SpawnCrops; SpawnPowerUps; SpawnCrows;
    CollectCrops; PurgeCrops; UpdateCrops;
    CollectPowerUps; PurgePowerUps; UpdatePowerUps;
    UpdateCrows; HitCrows; PurgeCrows ].

(** Lines 332-334: the countdown. *)
Definition countdown (dt : N) (g : t N) : t N :=
  set_timeLeft (clamp (timeLeft g -. dt) (of_Z 0) (maxTime g)) g.

Definition update (fuel : nat) (dt : N) (g : t N) : Res (t N) :=
  match state g with
  | PLAYING =>
      let g := countdown dt g in
      if timeLeft g <=. of_Z 0 then Ok (set_state GAME_OVER g)
      else run_phases fuel dt frame_phases g
  | _ => Ok g
  end.

(** The frame callback: [dt] is capped at 0.033 s. *)
Definition tick (fuel : nat) (ts : N) (g : t N) : Res (t N) :=
  let dt := Math_min ((ts -. lastTime g) /. of_Z 1000) (dec 33 3) in
  update fuel dt (set_lastTime ts g).

(** input.js: a key event; [p] or [P] toggles the pause. *)
Definition onKeyDown (key : string) (g : t N) : t N :=
  let g := if String.eqb key "p"%string || String.eqb key "P"%string then togglePause g else g in
  set_input (Input.add key (input g)) g.

Definition onKeyUp (key : string) (g : t N) : t N :=
  set_input (Input.delete key (input g)) g.

(** Several frames in a row: [update] called with each [dt] in turn, and the
    frame callback called with each timestamp in turn. *)
Fixpoint updates (fuel : nat) (dts : list N) (g : t N) : Res (t N) :=
  match dts with
  | [] => Ok g
  | dt :: dts' => g' <- update fuel dt g ;; updates fuel dts' g'
  end.

Fixpoint ticks (fuel : nat) (tss : list N) (g : t N) : Res (t N) :=
  match tss with
  | [] => Ok g
  | ts :: tss' => g' <- tick fuel ts g ;; ticks fuel tss' g'
  end.

(** The frame body with the three purges moved to the very end, the order the
    specification describes for the purge; used to compare with
    [frame_phases]. *)
Definition deferred_purge_phases : list Phase :=
  [ HandleInput; UpdatePlayer;
    SpawnCrops; SpawnPowerUps; SpawnCrows;
    CollectCrops; UpdateCrops;
    CollectPowerUps; UpdatePowerUps;
    UpdateCrows; HitCrows;
    PurgeCrops; PurgePowerUps; PurgeCrows ].

(** The phases of a frame that precede the crop collection. *)
Definition before_collect : list Phase :=
  [ HandleInput; UpdatePlayer; SpawnCrops; SpawnPowerUps; SpawnCrows ].

(** The phases of a frame from the crop purge on. *)
Definition after_collect : list Phase :=
  [ PurgeCrops; UpdateCrops;
    CollectPowerUps; PurgePowerUps; UpdatePowerUps;
    UpdateCrows; HitCrows; PurgeCrows ].

(** The phases of a frame that precede the crow check of line 404: every
    phase of [frame_phases] but the last two. *)
Definition before_penalty : list Phase :=
  [ HandleInput; UpdatePlayer;
    SpawnCrops; SpawnPowerUps; SpawnCrows;
    CollectCrops; PurgeCrops; UpdateCrops;
    CollectPowerUps; PurgePowerUps; UpdatePowerUps;
    UpdateCrows ].

(** The phases from the crop purge up to the crow update, as one function. *)
Definition crows_moved (dt : N) (g : t N) : t N :=
  update_crows dt (update_powerUps dt
    (purge_powerUps (collect_powerUps (update_crops dt (purge_crops g))))).

(** [after_collect] as one function: none of its phases can throw or loop. *)
Definition after_collect_fn (dt : N) (g : t N) : t N :=
  purge_crows (hit_crows (update_crows dt (update_powerUps dt
    (purge_powerUps (collect_powerUps (update_crops dt (purge_crops g))))))).

(** The same phases with the three purges deferred to the end. *)
Definition deferred_fn (dt : N) (g : t N) : t N :=
  purge_crows (purge_powerUps (purge_crops
    (hit_crows (update_crows dt (update_powerUps dt
       (collect_powerUps (update_crops dt g))))))).

(** The fields that the phases before the collision pass leave alone. *)
Definition same_run (g g' : t N) : Prop :=
  state g' = state g /\ level g' = level g /\ config g' = config g /\
  requiredScore g' = requiredScore g /\ maxTime g' = maxTime g /\
  timeLeft g' = timeLeft g /\ score g' = score g /\ goal g' = goal g /\
  spawnEvery g' = spawnEvery g /\ powerUpSpawnEvery g' = powerUpSpawnEvery g /\
  crowSpawnEvery g' = crowSpawnEvery g /\ obstacles g' = obstacles g.

(** What [advanceLevel] leaves behind when it advances from [g] with the
    configuration [lc] of the new level. *)
Definition advanced (lc : LevelConfig.t N) (g g' : t N) : Prop :=
  state g' = state g /\ level g' = S (level g) /\
  timeLeft g' = LevelConfig.timeLimit lc /\ maxTime g' = LevelConfig.timeLimit lc /\
  _accumSpawn g' = of_Z 0 /\ _accumPowerUpSpawn g' = of_Z 0 /\ _accumCrowSpawn g' = of_Z 0 /\
  crops g' = [] /\ powerUps g' = [] /\ crows g' = [] /\
  spawnEvery g' = LevelConfig.spawnEvery lc /\
  crowSpawnEvery g' = LevelConfig.crowSpawnEvery lc /\
  powerUpSpawnEvery g' = LevelConfig.powerUpSpawnEvery lc /\
  requiredScore g' = requiredScore g +. LevelConfig.goal lc /\
  goal g' = requiredScore g +. LevelConfig.goal lc /\
  List.length (obstacles g') = LevelConfig.numScarecrows lc.

(** The state a result holds, or [d] when there is none. *)
Definition unwrap (r : Res (t N)) (d : t N) : t N :=
  match r with
  | Ok g => g
  | _ => d
  end.

End Ops.
End Game.

(** ** Orders on the phases of a frame *)

Definition is_entity_update (p : Game.Phase) : bool :=
  match p with
  | Game.UpdatePlayer | Game.UpdateCrops | Game.UpdatePowerUps | Game.UpdateCrows => true
  | _ => false
  end.

Definition is_collision (p : Game.Phase) : bool :=
  match p with
  | Game.CollectCrops | Game.CollectPowerUps | Game.HitCrows => true
  | _ => false
  end.

Definition is_purge (p : Game.Phase) : bool :=
  match p with
  | Game.PurgeCrops | Game.PurgePowerUps | Game.PurgeCrows => true
  | _ => false
  end.

(** No phase satisfying [late] occurs before a phase satisfying [early]:
    once a [late] phase has run, no [early] phase runs any more. *)
Fixpoint all_before (early late : Game.Phase -> bool) (ps : list Game.Phase) : bool :=
  match ps with
  | [] => true
  | p :: ps' =>
      (if late p then negb (existsb early ps') else true) && all_before early late ps'
  end.

Import Game.

(** ** What a frame that runs out of time returns

    The state is [GAME_OVER], [timeLeft] is the clamped countdown, and every
    other part of the game is as it was at the start of the frame. *)
Definition time_up_result {N} `{JsNumber N} (dt : N) (g : t N) (r : Res (t N)) : Prop :=
  exists g',
    r = Ok g' /\
    state g' = GAME_OVER /\
    timeLeft g' = clamp (timeLeft g -. dt) (of_Z 0) (maxTime g) /\
    player g' = player g /\ crops g' = crops g /\ powerUps g' = powerUps g /\
    crows g' = crows g /\ obstacles g' = obstacles g /\
    score g' = score g /\ level g' = level g /\ goal g' = goal g /\
    _accumSpawn g' = _accumSpawn g /\
    _accumPowerUpSpawn g' = _accumPowerUpSpawn g /\
    _accumCrowSpawn g' = _accumCrowSpawn g /\
    rnd g' = rnd g /\ clk g' = clk g.

(** ** The spawn loop in exact arithmetic *)

(** One iteration of a spawn loop, and the number of iterations the
    accumulator pays for. *)
Definition loop_step (acc every : t Q -> Q) (set_acc : Q -> t Q -> t Q)
           (spawn : t Q -> t Q) (g : t Q) : t Q :=
  spawn (set_acc (acc g - every g)%Q g).

Definition iterations (acc every : t Q -> Q) (g : t Q) : nat :=
  Z.to_nat (Qfloor (acc g / every g)).

(** ** The accumulator values a spawn loop goes through

    [while (acc >= every) { acc -= every; spawn(); }] started with the
    accumulator at [a] reaches [a], then [a - every] if [a >= every], and so
    on.  The loop makes progress when every subtraction it performs gives a
    strictly smaller accumulator, and stalls when it reaches a value that
    the subtraction gives back. *)
Inductive drains {N} `{JsNumber N} (every a : N) : N -> Prop :=
| drains_start : drains every a a
| drains_step b :
    drains every a b -> (b >=. every) = true -> drains every a (b -. every).

Definition makes_progress {N} `{JsNumber N} (every a0 : N) : Prop :=
  forall a, drains every a0 a -> (a >=. every) = true -> (a -. every <. a) = true.

Definition stalls {N} `{JsNumber N} (every a0 : N) : Prop :=
  exists a, drains every a0 a /\ (a >=. every) = true /\ a -. every = a.

(** A loop over an accumulator that starts at [a0] never ends, whatever it
    spawns. *)
Definition never_ends {N} `{JsNumber N} (every a0 : N) : Prop :=
  forall (acc every' : Game.t N -> N) (set_acc : N -> Game.t N -> Game.t N)
         (spawn : Game.t N -> Game.t N),
    (forall v g, acc (spawn (set_acc v g)) = v) ->
    (forall v g, every' (spawn (set_acc v g)) = every' g) ->
    forall fuel g, acc g = a0 -> every' g = every ->
    Game.spawn_while fuel acc every' set_acc spawn g = OutOfFuel.

(** ** Doubles *)

(** [Number.isFinite]: neither NaN nor an infinity. *)
Definition isFinite (x : float) : bool := PrimFloat.ltb (PrimFloat.abs x) infinity.

(** A double, as the specification of the primitive floats sees it, that is
    a zero, positive or +infinity. *)
Definition not_negative (f : spec_float) : bool :=
  match f with
  | S754_zero _ | S754_finite false _ _ | S754_infinity false => true
  | _ => false
  end.

(** Doubles that are not below [lo], ordered by [<]. *)
Definition below (lo y x : float) : Prop := (lo <=. y) = true /\ (y <. x) = true.

(** ** The sentences of the specification that the code does not follow *)

(** Section 4.5: in a playing frame where time does not run out and the score
    has reached the cumulative goal, the level advances, or the game is won
    at level 3. *)
Definition goal_checked_every_frame : Prop :=
  forall (host : Host float) fuel dt (g g' : t float),
    state g = PLAYING ->
    (timeLeft (countdown dt g) <=. of_Z 0) = false ->
    (score g >=. goal g) = true ->
    update host fuel dt g = Ok g' ->
    (level g < 3 -> level g' = S (level g)) /\ (3 <= level g -> state g' = WIN).

(** Section 4.3: the collision pass runs after all entity updates, and the
    purge runs after the whole collision pass. *)
Definition collisions_after_updates_purges_last : Prop :=
  all_before is_entity_update is_collision frame_phases = true /\
  all_before is_collision is_purge frame_phases = true.

(** With three positive spawn intervals every frame finishes. *)
Definition positive_intervals_terminate (N : Type) `{JsNumber N} : Prop :=
  forall (host : Host N) dt (g : t N),
    (of_Z 0 <. spawnEvery g) = true ->
    (of_Z 0 <. powerUpSpawnEvery g) = true ->
    (of_Z 0 <. crowSpawnEvery g) = true ->
    exists fuel, update host fuel dt g <> OutOfFuel.

Arguments positive_intervals_terminate N {_}.

(** ** Example hosts and states *)

(** Polynomial approximations of cosine and sine, standing for the
    implementation-approximated [Math.cos] and [Math.sin] of an engine. *)
Definition cos_approx {N} `{JsNumber N} (a : N) : N :=
  let a2 := a *. a in
  of_Z 1 -. a2 /. of_Z 2 +. a2 *. a2 /. of_Z 24 -. a2 *. a2 *. a2 /. of_Z 720.

Definition sin_approx {N} `{JsNumber N} (a : N) : N :=
  let a2 := a *. a in
  a -. a *. a2 /. of_Z 6 +. a *. a2 *. a2 /. of_Z 120
    -. a *. a2 *. a2 *. a2 /. of_Z 5040.

(** A host whose first four random draws are 0 and all later ones 0.9: the
    two scarecrows of level 1 land on cell (30, 30) and everything spawned
    later on cell (780, 450), crops being golden apples. *)
Definition demo_host {N} `{JsNumber N} : Host N :=
  {| Math_random := fun i => if Nat.ltb i 4 then of_Z 0 else dec 9 1;
     performance_now := fun _ => of_Z 0;
     Math_cos := cos_approx;
     Math_sin := sin_approx |}.

(** A game started with the built-in levels. *)
Definition started {N} `{JsNumber N} : t N :=
  unwrap (start demo_host None new) new.

(** 0.02 s left on the clock, with a score already above the goal. *)
Definition late_game : t float :=
  set_score (of_Z 20) (set_timeLeft (dec 2 2) started).

(** One point short of the goal, with a wheat under the player. *)
Definition wheat_under_player : t float :=
  set_crops [Crop.new (of_Z 440) (of_Z 460) Crop.wheat (dec 5 1)]
            (set_score (of_Z 14) started).

(** A pumpkin under the player and a wheat out of reach. *)
Definition pumpkin_under_player : t float :=
  set_crops [Crop.new (of_Z 440) (of_Z 460) Crop.pumpkin (dec 5 1);
             Crop.new (of_Z 90) (of_Z 90) Crop.wheat (dec 5 1)] started.

(** A wheat and a power-up both under the player. *)
Definition crop_and_powerUp : t float :=
  set_powerUps [PowerUp.new (of_Z 440) (of_Z 465) (dec 5 1)]
    (set_crops [Crop.new (of_Z 440) (of_Z 460) Crop.wheat (dec 5 1)] started).

(** Score 3 and two crows over the player. *)
Definition two_crows : t Q :=
  set_crows [Crow.new (of_Z 440) (of_Z 465) (dec 5 1) (dec 5 1) (dec 5 1);
             Crow.new (of_Z 445) (of_Z 470) (dec 5 1) (dec 5 1) (dec 5 1)]
            (set_score (of_Z 3) started).

(** That game when the crow check of its next frame starts, and after the
    frame. *)
Definition two_crows_moved : t Q :=
  unwrap (run_phases demo_host 1 (dec 33 3) before_penalty
            (countdown (dec 33 3) two_crows)) new.

Definition after_two_crows : t Q :=
  unwrap (update demo_host 1 (dec 33 3) two_crows) new.

(** The accumulator values of a loop that runs three times. *)
Definition drained_values {N} `{JsNumber N} (every a0 : N) : list N :=
  [a0; a0 -. every; a0 -. every -. every; a0 -. every -. every -. every].

Definition paused : t float := togglePause started.

(** Timestamps of [n] consecutive frames 33 ms apart, the first one
    [33 * (from + 1)] ms after the start. *)
Definition frames (n from : nat) : list float :=
  map (fun k => of_Z (Z.of_nat (33 * (from + k + 1)))) (seq 0 n).

(** 180 frames with no key held: seven golden apples pile up on cell
    (780, 450) while the player stands still. *)
Definition stacked : t float :=
  unwrap (ticks demo_host 1 (frames 180 0) started) new.

(** Then the right arrow is pressed and held for 37 frames: the player walks
    into the pile. *)
Definition jumped : t float :=
  unwrap (ticks demo_host 1 (frames 37 180) (onKeyDown "ArrowRight" stacked)) new.

(** A configuration whose first level spawns a crop every 1e-20 s. *)
Definition tiny_config : Config.t float :=
  Config.make
    [ LevelConfig.make (of_Z 15) (of_Z 60) (dec 1 20) (of_Z 5) (of_Z 10) 2;
      LevelConfig.make (of_Z 20) (of_Z 55) (dec 6 1) (of_Z 4) (of_Z 8) 3;
      LevelConfig.make (of_Z 25) (of_Z 50) (dec 4 1) (of_Z 3) (of_Z 6) 4 ].

Definition tiny_interval_game : t float :=
  unwrap (start demo_host (Some tiny_config) new) new.

(** The player at (100, 100) heading down and right, and a scarecrow whose
    corner lies on the diagonal. *)
Definition cornered : Farmer.t float :=
  Farmer.handleInput (Input.make ["ArrowRight"%string; "ArrowDown"%string])
                     (Farmer.new (of_Z 100) (of_Z 100)).

Definition corner_obstacle : list (Entity.t float) :=
  [Scarecrow.new (of_Z 140) (of_Z 140)].

(** Two boxes that share an edge. *)
Definition box_left : Entity.t Q := Entity.new (of_Z 0) (of_Z 0) (of_Z 10) (of_Z 10).
Definition box_right : Entity.t Q := Entity.new (of_Z 10) (of_Z 0) (of_Z 10) (of_Z 10).

(** ** Vocabulary for further properties of the engine *)

Unset Implicit Arguments.

(** One axis of the velocity [handleInput] computes: the two keys of the axis
    as 0 or 1, subtracted and multiplied by the speed. *)
Definition axis {N} `{JsNumber N} (a b : bool) (s : N) : N :=
  (of_bool a -. of_bool b) *. s.

(** What [resetWithConfig] leaves behind from [g] when the first level of the
    configuration is [lc]. *)
Definition restarted {N} `{JsNumber N} (host : Host N) (lc : LevelConfig.t N)
           (g g' : t N) : Prop :=
  level g' = 1 /\ score g' = of_Z 0 /\
  requiredScore g' = LevelConfig.goal lc /\ goal g' = LevelConfig.goal lc /\
  timeLeft g' = LevelConfig.timeLimit lc /\ maxTime g' = LevelConfig.timeLimit lc /\
  spawnEvery g' = LevelConfig.spawnEvery lc /\
  crowSpawnEvery g' = LevelConfig.crowSpawnEvery lc /\
  powerUpSpawnEvery g' = LevelConfig.powerUpSpawnEvery lc /\
  _accumSpawn g' = of_Z 0 /\ _accumPowerUpSpawn g' = of_Z 0 /\ _accumCrowSpawn g' = of_Z 0 /\
  crops g' = [] /\ powerUps g' = [] /\ crows g' = [] /\
  List.length (obstacles g') = LevelConfig.numScarecrows lc /\
  player g' = Farmer.new (WIDTH /. of_Z 2 -. of_Z 17) (HEIGHT -. of_Z 80) /\
  lastTime g' = performance_now host (clk g) /\
  clk g' = S (clk g) /\
  rnd g' = rnd g + 2 * LevelConfig.numScarecrows lc /\
  input g' = input g.

(** The sprite sheet is a 4 x 4 grid: [draw] reads the cell in column
    [currentFrame] and row [currentRow]. *)
Definition sprite_cell_ok {N} (p : Farmer.t N) : Prop :=
  Farmer.currentFrame p < 4 /\ Farmer.currentRow p < 4.

(** The player runs at its base speed or at one and a half times it. *)
Definition boosted_or_base {N} `{JsNumber N} (p : Farmer.t N) : Prop :=
  Farmer.speed p = Farmer.baseSpeed p \/
  Farmer.speed p = Farmer.baseSpeed p *. dec 15 1.

(** The body of the [forEach] over the collected power-ups: one call of
    [applySpeedBoost(5)], which reads the clock. *)
Definition boost_step {N} `{JsNumber N} (host : Host N) (g : t N) (_ : PowerUp.t N) : t N :=
  set_clk (S (clk g))
    (set_player (Farmer.applySpeedBoost (performance_now host (clk g))
                                        (of_Z 5) (player g)) g).

(** A box that lies inside the field. *)
Definition inside_field (e : Entity.t Q) : Prop :=
  (0 <= Entity.x e /\ Entity.x e + Entity.w e <= WIDTH /\
   0 <= Entity.y e /\ Entity.y e + Entity.h e <= HEIGHT)%Q.

(** The player's box intersects none of the obstacles. *)
Definition clear_of {N} `{JsNumber N} (obs : list (Entity.t N)) (p : Farmer.t N) : Prop :=
  forall o, In o obs -> aabb (Farmer.base p) o = false.

(** Since [g0] either the level has not changed, the scarecrows are those of
    [g0] and the player is clear of them, or the level has advanced. *)
Definition still_clear {N} `{JsNumber N} (g0 g : t N) : Prop :=
  (level g = level g0 /\ obstacles g = obstacles g0 /\ clear_of (obstacles g0) (player g))
  \/ level g0 < level g.

(** The three spawn loops have run to their exit: every accumulator is below
    its interval. *)
Definition drained {N} `{JsNumber N} (g : t N) : Prop :=
  (_accumSpawn g >=. spawnEvery g) = false /\
  (_accumPowerUpSpawn g >=. powerUpSpawnEvery g) = false /\
  (_accumCrowSpawn g >=. crowSpawnEvery g) = false.

(** [Math.random()] returns a number in [0, 1). *)
Definition unit_random (host : Host Q) : Prop :=
  forall i, (0 <= Math_random host i)%Q /\ (Math_random host i < 1)%Q.

(** A box whose corner is a grid point at least one tile away from every
    border: column 1 to 28, row 1 to 16. *)
Definition on_grid (e : Entity.t Q) : Prop :=
  exists col row : Z,
    (1 <= col <= 28)%Z /\ (1 <= row <= 16)%Z /\
    (Entity.x e == inject_Z (30 * col))%Q /\ (Entity.y e == inject_Z (30 * row))%Q.

(** A box of the given size on a grid point. *)
Definition grid_box (w h : Z) (e : Entity.t Q) : Prop :=
  on_grid e /\ Entity.w e = inject_Z w /\ Entity.h e = inject_Z h.

(** Crops, power-ups and scarecrows all sit on grid points, with the sizes
    their constructors give them. *)
Definition field_on_grid (g : t Q) : Prop :=
  Forall (fun c => grid_box 20 26 (Crop.base c)) (crops g) /\
  Forall (fun p => grid_box 16 16 (PowerUp.base p)) (powerUps g) /\
  Forall (grid_box 26 46) (obstacles g).

(** No entity in the three dynamic lists is marked dead. *)
Definition all_alive {N} (g : t N) : Prop :=
  Forall (fun c => Crop.dead c = false) (crops g) /\
  Forall (fun p => PowerUp.dead p = false) (powerUps g) /\
  Forall (fun c => Crow.dead c = false) (crows g).

(** What a crow's move leaves alone: its size, its [dead] flag and its top
    speed. *)
Definition crow_body {N} (c : Crow.t N) : N * N * bool * N :=
  (Entity.w (Crow.base c), Entity.h (Crow.base c), Crow.dead c, Crow.maxSpeed c).

(** A double that is not NaN. *)
Definition not_nan (x : float) : Prop := F64.is_nan x = false.

(** +0 or -0. *)
Definition is_zero (x : float) : Prop := x = 0%float \/ x = (-0)%float.

(** A double that is NaN or lies between two bounds. *)
Definition within_double (lo hi x : float) : Prop :=
  F64.is_nan x = true \/ ((lo <=. x) = true /\ (x <=. hi) = true).

(** On doubles: the player's box has the size the constructor gives it, and
    each coordinate is NaN or inside the field. *)
Definition placed_double (p : Farmer.t float) : Prop :=
  Entity.w (Farmer.base p) = of_Z 34 /\ Entity.h (Farmer.base p) = of_Z 34 /\
  within_double (of_Z 0) (WIDTH -. of_Z 34) (Entity.x (Farmer.base p)) /\
  within_double (of_Z 0) (HEIGHT -. of_Z 34) (Entity.y (Farmer.base p)).

(** *** The handlers the source registers with the browser

    The handlers of [fetch('config.json')], lines 156-177 of Game.js, run
    when the load has succeeded ([Some]) or failed ([None]).  They do not
    look at the state. *)
Definition config_loaded {N} `{JsNumber N} (host : Host N)
           (fetched : option (Config.t N)) (g : t N) : Res (t N) :=
  let fallback :=
    g' <- resetWithConfig host default_config (set_config (Some default_config) g) ;;
    Ok (set_state PLAYING g') in
  match fetched with
  | Some cfg =>
      match resetWithConfig host cfg (set_config (Some cfg) g) with
      | Ok g' => Ok (set_state PLAYING g')
      | _ => fallback
      end
  | None => fallback
  end.

(** The events a game object reacts to: an animation frame ([tick]), the two
    keyboard listeners of input.js, the clicks on the Start and Reset
    buttons, and the completion of a configuration load.  [ClickStart] and
    [ClickReset] carry the outcome of the load they may trigger; a load that
    completes after other events is a [ConfigLoaded]. *)
Inductive Event (N : Type) : Type :=
| Frame (ts : N)
| KeyDown (key : string)
| KeyUp (key : string)
| ClickStart (fetched : option (Config.t N))
| ClickReset (fetched : option (Config.t N))
| ConfigLoaded (fetched : option (Config.t N)).

Arguments Frame {N} ts.
Arguments KeyDown {N} key.
Arguments KeyUp {N} key.
Arguments ClickStart {N} fetched.
Arguments ClickReset {N} fetched.
Arguments ConfigLoaded {N} fetched.

Definition handle {N} `{JsNumber N} (host : Host N) (fuel : nat)
           (e : Event N) (g : t N) : Res (t N) :=
  match e with
  | Frame ts => tick host fuel ts g
  | KeyDown key => Ok (onKeyDown key g)
  | KeyUp key => Ok (onKeyUp key g)
  | ClickStart fetched => start host fetched g
  | ClickReset fetched => reset host fetched g
  | ConfigLoaded fetched => config_loaded host fetched g
  end.

(** Handlers run to completion, one event after the other. *)
Fixpoint session {N} `{JsNumber N} (host : Host N) (fuel : nat)
         (es : list (Event N)) (g : t N) : Res (t N) :=
  match es with
  | [] => Ok g
  | e :: es' => g' <- handle host fuel e g ;; session host fuel es' g'
  end.

Definition is_frame {N} (e : Event N) : bool :=
  match e with
  | Frame _ => true
  | _ => false
  end.

(** Before the first load the game is in the menu; a configuration that has
    been kept has a first level. *)
Definition config_ok {N} (g : t N) : Prop :=
  match config g with
  | None => state g = MENU
  | Some cfg => Config.levels cfg <> []
  end.

(** What every handler keeps, over every number instance. *)
Definition well_formed {N} `{JsNumber N} (g : t N) : Prop :=
  1 <= level g <= 3 /\
  goal g = requiredScore g /\
  config_ok g /\
  sprite_cell_ok (player g) /\
  Farmer.baseSpeed (player g) = of_Z 260 /\
  boosted_or_base (player g) /\
  all_alive g.

(** What every handler keeps in exact arithmetic. *)
Definition well_placed (g : t Q) : Prop :=
  inside_field (Farmer.base (player g)) /\
  field_on_grid g /\
  (0 <= score g)%Q /\
  (timeLeft g <= maxTime g)%Q.

(** *** More example states, in exact arithmetic *)

(** The player of a fresh game with the right and down arrows held. *)
Definition heading_down_right : Input.t :=
  Input.make ["ArrowRight"%string; "ArrowDown"%string].

Definition fresh_player : Farmer.t Q :=
  Farmer.new (WIDTH /. of_Z 2 -. of_Z 17) (HEIGHT -. of_Z 80).

(** The first frame of a game started with the built-in levels. *)
Definition first_frame : t Q :=
  unwrap (update demo_host 1 (dec 33 3) started) new.

(** A configuration with a single level, and a game started with it that is
    one point short of the goal with a wheat under the player. *)
Definition one_level_config : Config.t Q :=
  Config.make [ LevelConfig.make (of_Z 15) (of_Z 60) (dec 8 1) (of_Z 5) (of_Z 10) 2 ].

Definition last_wheat : t Q :=
  set_crops [Crop.new (of_Z 440) (of_Z 460) Crop.wheat (dec 5 1)]
            (set_score (of_Z 14)
               (unwrap (start demo_host (Some one_level_config) new) new)).

(** Start, hold the right arrow, two frames 33 ms apart. *)
Definition short_session : list (Event Q) :=
  [ ClickStart None; KeyDown "ArrowRight"; Frame (of_Z 33); Frame (of_Z 66) ].

Definition after_short_session : t Q :=
  unwrap (session demo_host 1 short_session new) new.

(** A power-up under the player of a started game. *)
Definition powerUp_under_player : t Q :=
  set_powerUps [PowerUp.new (of_Z 440) (of_Z 465) (dec 5 1)] started.

(** *** Example states on doubles *)

(** The same session on doubles. *)
Definition double_session : list (Event float) :=
  [ ClickStart None; KeyDown "ArrowRight"; Frame (of_Z 33); Frame (of_Z 66) ].

Definition after_double_session : t float :=
  unwrap (session demo_host 1 double_session new) new.

(** A frame whose step is NaN. *)
Definition nan_step : float := of_Z 0 /. of_Z 0.

Definition after_nan_step : t float :=
  unwrap (update demo_host 1 nan_step started) new.

(** The player of a fresh game on doubles. *)
Definition fresh_player_double : Farmer.t float :=
  Farmer.new (WIDTH /. of_Z 2 -. of_Z 17) (HEIGHT -. of_Z 80).

(** Left and right held together, and down. *)
Definition both_sides : Input.t :=
  Input.make ["ArrowLeft"%string; "ArrowRight"%string; "ArrowDown"%string].

(** * Properties *)

Unset Implicit Arguments.

(** ** Idle states, time-up and symmetry: facts that hold for every number
    instance *)

Lemma aabb_sym {N} `{JsNumber N} (a b : Entity.t N) : aabb a b = aabb b a.
Proof.
  unfold aabb.
  destruct (Entity.x a <. Entity.x b +. Entity.w b),
           (Entity.x b <. Entity.x a +. Entity.w a),
           (Entity.y a <. Entity.y b +. Entity.h b),
           (Entity.y b <. Entity.y a +. Entity.h a); reflexivity.
Qed.

Lemma update_idle {N} `{JsNumber N} (host : Host N) fuel dt (g : Game.t N) :
  state g <> PLAYING -> update host fuel dt g = Ok g.
Proof.
  unfold update. destruct (state g); congruence.
Qed.

Lemma updates_idle {N} `{JsNumber N} (host : Host N) fuel dts (g : Game.t N) :
  state g <> PLAYING -> updates host fuel dts g = Ok g.
Proof.
  intros Hs. induction dts as [|dt dts IH]; simpl; [reflexivity|].
  rewrite update_idle by assumption. simpl. exact IH.
Qed.

Lemma last_cons_default {A} (a : A) l d d' : last (a :: l) d = last (a :: l) d'.
Proof.
  revert a. induction l as [|b l IH]; intros a; [reflexivity|].
  change (last (a :: b :: l) d) with (last (b :: l) d).
  change (last (a :: b :: l) d') with (last (b :: l) d'). apply IH.
Qed.

Lemma ticks_idle {N} `{JsNumber N} (host : Host N) fuel tss (g : Game.t N) :
  state g <> PLAYING ->
  ticks host fuel tss g = Ok (set_lastTime (last tss (lastTime g)) g).
Proof.
  revert g. induction tss as [|ts tss IH]; intros g Hs.
  - destruct g; reflexivity.
  - cbn [ticks]. unfold tick.
    rewrite update_idle by exact Hs.
    cbn [bind]. rewrite IH by exact Hs.
    destruct tss as [|ts' tss].
    + destruct g; reflexivity.
    + rewrite (last_cons_default ts' tss (lastTime (set_lastTime ts g)) (lastTime g)).
      change (last (ts :: ts' :: tss) (lastTime g)) with (last (ts' :: tss) (lastTime g)).
      destruct g; reflexivity.
Qed.

Lemma update_time_up {N} `{JsNumber N} (host : Host N) fuel dt (g : Game.t N) :
  state g = PLAYING ->
  (timeLeft (countdown dt g) <=. of_Z 0) = true ->
  update host fuel dt g = Ok (set_state GAME_OVER (countdown dt g)).
Proof.
  intros Hs Ht. unfold update. rewrite Hs, Ht. reflexivity.
Qed.

Section Generic.
Context {N : Type} `{JsNumber N}.
Variable host : Host N.

(** *** The spawn loop *)

Lemma spawn_while_inv (P : t N -> Prop) acc every set_acc spawn :
  (forall g v, P g -> P (spawn (set_acc v g))) ->
  forall fuel g g', P g -> spawn_while fuel acc every set_acc spawn g = Ok g' -> P g'.
Proof.
  intros Hstep. induction fuel as [|fuel IH]; intros g g' Hg; cbn [spawn_while];
    destruct (acc g >=. every g); intros E; try discriminate E;
    try (injection E as <-; exact Hg).
  eapply IH; [|exact E]. apply Hstep, Hg.
Qed.

Lemma spawn_while_no_throw fuel acc every set_acc spawn (g : t N) :
  spawn_while fuel acc every set_acc spawn g <> Throws.
Proof.
  revert g. induction fuel as [|fuel IH]; intros g; cbn [spawn_while];
    destruct (acc g >=. every g); try discriminate. apply IH.
Qed.

Lemma spawn_while_mono fuel fuel' acc every set_acc spawn (g g' : t N) :
  spawn_while fuel acc every set_acc spawn g = Ok g' -> fuel <= fuel' ->
  spawn_while fuel' acc every set_acc spawn g = Ok g'.
Proof.
  revert fuel' g. induction fuel as [|fuel IH]; intros fuel' g; cbn [spawn_while].
  - destruct (acc g >=. every g) eqn:E; [discriminate|]. intros E' _.
    destruct fuel'; cbn [spawn_while]; rewrite E; exact E'.
  - destruct (acc g >=. every g) eqn:E; intros E' Hle.
    + destruct fuel' as [|fuel']; [lia|]. cbn [spawn_while]. rewrite E.
      apply IH; [exact E'|lia].
    + destruct fuel'; cbn [spawn_while]; rewrite E; exact E'.
Qed.

(** *** Fields that the phases before the collision pass leave alone *)

Lemma same_run_refl (g : t N) : same_run g g.
Proof. repeat split. Qed.

Ltac same_run_step :=
  let Hg := fresh in
  intros ? ? Hg; unfold same_run in *; cbn; exact Hg.

Lemma spawn_crops_same_run fuel dt g g' :
  spawn_crops host fuel dt g = Ok g' -> same_run g g'.
Proof.
  unfold spawn_crops. apply spawn_while_inv with (P := same_run g).
  - same_run_step.
  - repeat split.
Qed.

Lemma spawn_powerUps_same_run fuel dt g g' :
  spawn_powerUps host fuel dt g = Ok g' -> same_run g g'.
Proof.
  unfold spawn_powerUps. apply spawn_while_inv with (P := same_run g).
  - same_run_step.
  - repeat split.
Qed.

Lemma spawn_crows_same_run fuel dt g g' :
  spawn_crows host fuel dt g = Ok g' -> same_run g g'.
Proof.
  unfold spawn_crows. apply spawn_while_inv with (P := same_run g).
  - same_run_step.
  - repeat split.
Qed.

Lemma same_run_trans (g1 g2 g3 : t N) :
  same_run g1 g2 -> same_run g2 g3 -> same_run g1 g3.
Proof.
  unfold same_run. intros H12 H23.
  repeat match goal with H : _ /\ _ |- _ => destruct H end.
  repeat split; congruence.
Qed.

Lemma bind_Ok {A B} (m : Res A) (k : A -> Res B) b :
  bind m k = Ok b -> exists a, m = Ok a /\ k a = Ok b.
Proof. destruct m; cbn; try discriminate. eauto. Qed.

Lemma before_collect_same_run fuel dt g g' :
  run_phases host fuel dt before_collect g = Ok g' -> same_run g g'.
Proof.
  unfold before_collect. cbn [run_phases run_phase bind].
  intros E.
  apply bind_Ok in E as (g1 & E1 & E).
  apply bind_Ok in E as (g2 & E2 & E).
  apply bind_Ok in E as (g3 & E3 & E).
  injection E as <-.
  apply spawn_crops_same_run in E1. apply spawn_powerUps_same_run in E2.
  apply spawn_crows_same_run in E3.
  eapply same_run_trans; [|exact E3]. eapply same_run_trans; [|exact E2].
  eapply same_run_trans; [|exact E1]. repeat split.
Qed.

End Generic.

Section Generic.
Context {N : Type} `{JsNumber N}.
Variable host : Host N.

Lemma place_scarecrows_inv (P : t N -> Prop) :
  (forall g l r, P g -> P (set_rnd r (set_obstacles l g))) ->
  forall n g, P g -> P (place_scarecrows host n g).
Proof.
  intros Hstep. induction n as [|n IH]; intros g Hg; cbn [place_scarecrows].
  - exact Hg.
  - apply IH, Hstep, Hg.
Qed.

Lemma place_scarecrows_length n (g : t N) :
  List.length (obstacles (place_scarecrows host n g)) = List.length (obstacles g) + n.
Proof.
  revert g. induction n as [|n IH]; intros g; cbn [place_scarecrows].
  - lia.
  - rewrite IH. cbn. rewrite length_app. cbn. lia.
Qed.

Lemma advanceLevel_advances (g : t N) lc :
  level g < 3 -> level_config (config g) (level g) = Ok lc ->
  exists g', advanceLevel host g = Ok g' /\ advanced lc g g'.
Proof.
  intros Hl Hc. unfold advanceLevel.
  destruct (Nat.leb 3 (level g)) eqn:E; [apply Nat.leb_le in E; lia|].
  cbv zeta.
  replace (level (set_level (S (level g)) g) - 1) with (level g)
    by (cbn [level set_level]; lia).
  change (config (set_level (S (level g)) g)) with (config g).
  rewrite Hc. cbn [bind]. eexists. split; [reflexivity|].
  unfold advanced.
  repeat split;
    try (apply place_scarecrows_inv; [intros ? ? ? Hg; exact Hg | reflexivity]).
  rewrite place_scarecrows_length. reflexivity.
Qed.

Lemma advanceLevel_level (g g' : t N) :
  advanceLevel host g = Ok g' ->
  (3 <= level g /\ g' = g) \/ (level g < 3 /\ level g' = S (level g) /\ state g' = state g).
Proof.
  unfold advanceLevel. destruct (Nat.leb 3 (level g)) eqn:E.
  - intros [= <-]. left. apply Nat.leb_le in E. auto.
  - apply Nat.leb_gt in E. intros E'. right.
    apply bind_Ok in E' as (lc & _ & E'). injection E' as <-.
    split; [exact E|].
    split; (apply place_scarecrows_inv; [intros ? ? ? Hg; exact Hg | reflexivity]).
Qed.

(** *** The pure phases after the crop collection *)

Lemma collect_powerUps_inv (P : t N -> Prop) :
  (forall g l, P g -> P (set_powerUps l g)) ->
  (forall g p c, P g -> P (set_clk c (set_player p g))) ->
  forall g, P g -> P (collect_powerUps host g).
Proof.
  intros Hl Hb g Hg. unfold collect_powerUps.
  generalize (filter (touches_powerUp g) (powerUps g)).
  intros l.
  assert (Hg1 : P (set_powerUps (map (fun p => if touches_powerUp g p
                      then PowerUp.set_dead true p else p) (powerUps g)) g))
    by (apply Hl, Hg).
  revert Hg1. generalize (set_powerUps (map (fun p => if touches_powerUp g p
                      then PowerUp.set_dead true p else p) (powerUps g)) g).
  induction l as [|p l IH]; intros g1 Hg1; cbn [fold_left].
  - exact Hg1.
  - apply IH, Hb, Hg1.
Qed.

Lemma update_crows_inv (P : t N -> Prop) dt :
  (forall g l r, P g -> P (set_rnd r (set_crows l g))) ->
  forall g, P g -> P (update_crows host dt g).
Proof.
  intros Hs g Hg. unfold update_crows.
  destruct (update_crow_list host dt (rnd g) (crows g)). apply Hs, Hg.
Qed.

Lemma hit_crows_inv (P : t N -> Prop) :
  (forall g l s, P g -> P (set_crows l (set_score s g))) ->
  forall g, P g -> P (hit_crows g).
Proof.
  intros Hs g Hg. unfold hit_crows.
  destruct (Nat.ltb 0 _); [apply Hs, Hg | exact Hg].
Qed.

Lemma run_after_collect fuel dt (g : t N) :
  run_phases host fuel dt after_collect g = Ok (after_collect_fn host dt g).
Proof. reflexivity. Qed.

Lemma after_collect_inv (P : t N -> Prop) dt :
  (forall g l, P g -> P (set_crops l g)) ->
  (forall g l, P g -> P (set_powerUps l g)) ->
  (forall g l, P g -> P (set_crows l g)) ->
  (forall g p, P g -> P (set_player p g)) ->
  (forall g, P g -> P (hit_crows g)) ->
  (forall g r, P g -> P (set_rnd r g)) ->
  (forall g c, P g -> P (set_clk c g)) ->
  forall g, P g -> P (after_collect_fn host dt g).
Proof.
  intros Hc Hp Hw Hpl Hs Hr Hk g Hg. unfold after_collect_fn.
  apply Hw. apply Hs.
  apply update_crows_inv; [intros; apply Hr, Hw; assumption|].
  apply Hp. apply Hp.
  apply collect_powerUps_inv; [exact Hp|intros; apply Hk, Hpl; assumption|].
  apply Hc. apply Hc. exact Hg.
Qed.

Lemma after_collect_state_level dt (g : t N) :
  state (after_collect_fn host dt g) = state g /\ level (after_collect_fn host dt g) = level g.
Proof.
  apply after_collect_inv with (P := fun g' => state g' = state g /\ level g' = level g);
    try (intros ? ? Hg; exact Hg).
  - intros g0 Hg. apply hit_crows_inv; [intros ? ? ? Hg'; exact Hg'|exact Hg].
  - split; reflexivity.
Qed.

Lemma after_collect_empty dt (g : t N) :
  crops g = [] -> powerUps g = [] -> crows g = [] -> after_collect_fn host dt g = g.
Proof.
  destruct g; cbn [crops powerUps crows]; intros -> -> ->. reflexivity.
Qed.

Lemma update_playing fuel dt (g : t N) :
  state g = PLAYING ->
  (timeLeft (countdown dt g) <=. of_Z 0) = false ->
  update host fuel dt g =
    (g1 <- run_phases host fuel dt before_collect (countdown dt g) ;;
     g2 <- collect_crops host g1 ;;
     Ok (after_collect_fn host dt g2)).
Proof.
  intros Hs Ht. unfold update. rewrite Hs, Ht.
  unfold frame_phases, before_collect. cbn [run_phases run_phase bind].
  destruct (spawn_crops host fuel dt _); cbn [bind]; try reflexivity.
  destruct (spawn_powerUps host fuel dt _); cbn [bind]; try reflexivity.
  destruct (spawn_crows host fuel dt _); cbn [bind]; try reflexivity.
Qed.

Lemma collect_crops_level (g g' : t N) :
  collect_crops host g = Ok g' ->
  (level g' = level g /\ (state g' = state g \/ state g' = WIN)) \/
  (level g < 3 /\ level g' = S (level g) /\ state g' = state g).
Proof.
  unfold collect_crops.
  destruct (filter (touches_crop g) (crops g)) as [|c rest].
  - intros [= <-]. left. auto.
  - cbn zeta.
    match goal with |- context [if ?b then _ else _] => destruct b end.
    + cbn [level set_score set_crops].
      destruct (Nat.ltb (level g) 3) eqn:E.
      * intros E'. apply advanceLevel_level in E'.
        destruct E' as [[Hl ->]|[Hl [Hs Hst]]].
        -- left. split; [reflexivity|left; reflexivity].
        -- right. exact (conj Hl (conj Hs Hst)).
      * intros [= <-]. left. split; [reflexivity|right; reflexivity].
    + intros [= <-]. left. split; [reflexivity|left; reflexivity].
Qed.

Lemma update_level fuel dt (g g' : t N) :
  update host fuel dt g = Ok g' ->
  level g' = level g \/ (level g < 3 /\ level g' = S (level g)).
Proof.
  destruct (state g) eqn:Hs;
    try (unfold update; rewrite Hs; intros [= <-]; left; reflexivity).
  destruct (timeLeft (countdown dt g) <=. of_Z 0) eqn:Ht.
  - rewrite update_time_up by assumption. intros [= <-]. left. reflexivity.
  - rewrite update_playing by assumption. intros E.
    apply bind_Ok in E as (g1 & E1 & E).
    apply bind_Ok in E as (g2 & E2 & E). injection E as <-.
    apply before_collect_same_run in E1. destruct E1 as (_ & Hl1 & _).
    cbn [level countdown set_timeLeft] in Hl1.
    destruct (after_collect_state_level dt g2) as [_ Hl3]. rewrite Hl3.
    apply collect_crops_level in E2. destruct E2 as [[Hl _]|(Hl & Hl' & _)].
    + left. congruence.
    + right. rewrite Hl1 in Hl, Hl'. auto.
Qed.

End Generic.

Lemma collect_crops_scored {N} `{JsNumber N} (host : Host N) (g : t N) c rest :
  filter (touches_crop g) (crops g) = c :: rest ->
  let gs := set_score (score g +. addedPoints (c :: rest))
              (set_crops (map (fun c => if touches_crop g c
                                        then Crop.set_dead true c else c) (crops g)) g) in
  collect_crops host g =
    if score gs >=. goal gs then
      if Nat.ltb (level gs) 3 then advanceLevel host gs else Ok (set_state WIN gs)
    else Ok gs.
Proof.
  intros E. unfold collect_crops. rewrite E. reflexivity.
Qed.


Section Generic.
Context {N : Type} `{JsNumber N}.
Variable host : Host N.

Lemma filter_map_comm {A} (f : A -> A) (p : A -> bool) (l : list A) :
  (forall a, p (f a) = p a) -> filter p (map f l) = map f (filter p l).
Proof.
  intros Hp. induction l as [|a l IH]; cbn; [reflexivity|].
  rewrite Hp. destruct (p a); cbn; rewrite IH; reflexivity.
Qed.

Lemma purge_update_crops dt (g : t N) :
  update_crops dt (purge_crops g) = purge_crops (update_crops dt g).
Proof.
  unfold update_crops, purge_crops. cbn [crops set_crops].
  rewrite filter_map_comm by reflexivity. destruct g; reflexivity.
Qed.

Lemma purge_update_powerUps dt (g : t N) :
  update_powerUps dt (purge_powerUps g) = purge_powerUps (update_powerUps dt g).
Proof.
  unfold update_powerUps, purge_powerUps. cbn [powerUps set_powerUps].
  rewrite filter_map_comm by reflexivity. destruct g; reflexivity.
Qed.

(** A function of the game that neither reads nor writes the crop list
    commutes with the crop purge; likewise for the power-up list. *)
Lemma purge_crops_comm (f : t N -> t N) :
  (forall g l, f (set_crops l g) = set_crops l (f g)) ->
  (forall g, crops (f g) = crops g) ->
  forall g, f (purge_crops g) = purge_crops (f g).
Proof.
  intros Hset Hget g. unfold purge_crops. rewrite Hset, Hget. reflexivity.
Qed.

Lemma purge_powerUps_comm (f : t N -> t N) :
  (forall g l, f (set_powerUps l g) = set_powerUps l (f g)) ->
  (forall g, powerUps (f g) = powerUps g) ->
  forall g, f (purge_powerUps g) = purge_powerUps (f g).
Proof.
  intros Hset Hget g. unfold purge_powerUps. rewrite Hset, Hget. reflexivity.
Qed.

Lemma boost_fold_set_crops (l : list (PowerUp.t N)) lc (g : t N) :
  fold_left (fun g' _ =>
     set_clk (S (clk g'))
       (set_player (Farmer.applySpeedBoost (performance_now host (clk g')) (of_Z 5) (player g')) g'))
     l (set_crops lc g)
  = set_crops lc (fold_left (fun g' _ =>
     set_clk (S (clk g'))
       (set_player (Farmer.applySpeedBoost (performance_now host (clk g')) (of_Z 5) (player g')) g'))
     l g).
Proof.
  revert g. induction l as [|p l IH]; intros g; cbn [fold_left]; [reflexivity|].
  rewrite <- IH. reflexivity.
Qed.

Lemma collect_powerUps_set_crops lc (g : t N) :
  collect_powerUps host (set_crops lc g) = set_crops lc (collect_powerUps host g).
Proof.
  unfold collect_powerUps.
  change (powerUps (set_crops lc g)) with (powerUps g).
  change (touches_powerUp (set_crops lc g)) with (touches_powerUp g).
  rewrite <- boost_fold_set_crops. reflexivity.
Qed.

Lemma collect_powerUps_crops (g : t N) : crops (collect_powerUps host g) = crops g.
Proof.
  apply collect_powerUps_inv with (P := fun g' => crops g' = crops g);
    try (intros ? ? Hg; exact Hg); try (intros ? ? ? Hg; exact Hg). reflexivity.
Qed.

Lemma update_crows_set_crops dt lc (g : t N) :
  update_crows host dt (set_crops lc g) = set_crops lc (update_crows host dt g).
Proof.
  unfold update_crows. cbn [rnd crows set_crops].
  destruct (update_crow_list host dt (rnd g) (crows g)). reflexivity.
Qed.

Lemma update_crows_set_powerUps dt lp (g : t N) :
  update_crows host dt (set_powerUps lp g) = set_powerUps lp (update_crows host dt g).
Proof.
  unfold update_crows. cbn [rnd crows set_powerUps].
  destruct (update_crow_list host dt (rnd g) (crows g)). reflexivity.
Qed.

Lemma update_crows_keeps dt (g : t N) :
  crops (update_crows host dt g) = crops g /\ powerUps (update_crows host dt g) = powerUps g.
Proof.
  unfold update_crows. destruct (update_crow_list host dt (rnd g) (crows g)).
  split; reflexivity.
Qed.

Lemma hit_crows_set_crops lc (g : t N) :
  hit_crows (set_crops lc g) = set_crops lc (hit_crows g).
Proof.
  unfold hit_crows. cbn [crows set_crops].
  change (touches_crow (set_crops lc g)) with (touches_crow g).
  destruct (Nat.ltb 0 _); reflexivity.
Qed.

Lemma hit_crows_set_powerUps lp (g : t N) :
  hit_crows (set_powerUps lp g) = set_powerUps lp (hit_crows g).
Proof.
  unfold hit_crows. cbn [crows set_powerUps].
  change (touches_crow (set_powerUps lp g)) with (touches_crow g).
  destruct (Nat.ltb 0 _); reflexivity.
Qed.

Lemma hit_crows_keeps (g : t N) :
  crops (hit_crows g) = crops g /\ powerUps (hit_crows g) = powerUps g.
Proof.
  unfold hit_crows. destruct (Nat.ltb 0 _); split; reflexivity.
Qed.

Lemma deferred_purge_same dt (g : t N) : after_collect_fn host dt g = deferred_fn host dt g.
Proof.
  unfold after_collect_fn, deferred_fn.
  rewrite purge_update_crops.
  rewrite (purge_crops_comm (collect_powerUps host)
             (fun g l => collect_powerUps_set_crops l g) collect_powerUps_crops).
  rewrite purge_update_powerUps.
  rewrite (purge_crops_comm purge_powerUps) by reflexivity.
  rewrite (purge_crops_comm (update_powerUps dt)) by reflexivity.
  rewrite (purge_powerUps_comm (update_crows host dt)
             (fun g l => update_crows_set_powerUps dt l g) (fun g => proj2 (update_crows_keeps dt g))).
  rewrite (purge_crops_comm (update_crows host dt)
             (fun g l => update_crows_set_crops dt l g) (fun g => proj1 (update_crows_keeps dt g))).
  rewrite (purge_powerUps_comm hit_crows (fun g l => hit_crows_set_powerUps l g)
             (fun g => proj2 (hit_crows_keeps g))).
  rewrite (purge_crops_comm hit_crows (fun g l => hit_crows_set_crops l g)
             (fun g => proj1 (hit_crows_keeps g))).
  rewrite <- (purge_crops_comm purge_powerUps) by reflexivity.
  reflexivity.
Qed.

Lemma frame_deferred_purge fuel dt (g : t N) :
  run_phases host fuel dt frame_phases g = run_phases host fuel dt deferred_purge_phases g.
Proof.
  unfold frame_phases, deferred_purge_phases. cbn [run_phases run_phase bind].
  destruct (spawn_crops host fuel dt _); cbn [bind]; try reflexivity.
  destruct (spawn_powerUps host fuel dt _); cbn [bind]; try reflexivity.
  destruct (spawn_crows host fuel dt _); cbn [bind]; try reflexivity.
  destruct (collect_crops host _) as [g2| |]; cbn [bind]; try reflexivity.
  f_equal. apply deferred_purge_same.
Qed.

End Generic.


(** ** Exact arithmetic: the crow penalty *)

Lemma hit_crows_score (g : t Q) :
  (0 <= score g)%Q ->
  (score (hit_crows g)
   == Qmax 0 (score g - 2 * inject_Z (Z.of_nat (List.length (filter (touches_crow g) (crows g))))))%Q.
Proof.
  intros Hs. unfold hit_crows.
  destruct (filter (touches_crow g) (crows g)) as [|c l].
  - cbn [List.length Nat.ltb Nat.leb]. cbn.
    rewrite Q.max_r; [ring|]. ring_simplify. exact Hs.
  - reflexivity.
Qed.

Lemma hit_crows_nonneg (g : t Q) : (0 <= score g)%Q -> (0 <= score (hit_crows g))%Q.
Proof.
  intros Hs. rewrite hit_crows_score by exact Hs. apply Q.le_max_l.
Qed.

Lemma purge_hit_crows_spec {N} `{JsNumber N} (g : t N) c :
  In c (crows (purge_crows (hit_crows g))) <->
  In c (crows g) /\ touches_crow g c = false /\ Crow.dead c = false.
Proof.
  unfold purge_crows, hit_crows. cbn [crows set_crows].
  destruct (Nat.ltb 0 _) eqn:E; cbn [crows set_crows set_score].
  - rewrite filter_In, in_map_iff. split.
    + intros [(c0 & Hc0 & Hin) Hd].
      destruct (touches_crow g c0) eqn:Ht.
      * subst c. discriminate Hd.
      * subst c0. rewrite Ht. apply negb_true_iff in Hd. auto.
    + intros (Hin & Ht & Hd). split.
      * exists c. rewrite Ht. auto.
      * rewrite Hd. reflexivity.
  - rewrite filter_In. apply Nat.ltb_ge in E.
    assert (Hnil : filter (touches_crow g) (crows g) = [])
      by (destruct (filter (touches_crow g) (crows g)); [reflexivity|cbn in E; lia]).
    split.
    + intros [Hin Hd]. apply negb_true_iff in Hd. repeat split; try assumption.
      destruct (touches_crow g c) eqn:Ht; [|reflexivity].
      assert (Hf : In c (filter (touches_crow g) (crows g))) by (apply filter_In; auto).
      rewrite Hnil in Hf. destruct Hf.
    + intros (Hin & _ & Hd). rewrite Hd. auto.
Qed.

Lemma addedPoints_nonneg_from (l : list (Crop.t Q)) (s : Q) :
  (0 <= s)%Q -> (0 <= fold_left (fun sum c => sum +. Crop.points c) l s)%Q.
Proof.
  revert s. induction l as [|c l IH]; intros s Hs; cbn [fold_left]; [exact Hs|].
  apply IH. unfold Crop.points. cbn.
  destruct (Crop.type c); cbn; unfold inject_Z; lra.
Qed.

Lemma collect_crops_nonneg host (g g' : t Q) :
  (0 <= score g)%Q -> collect_crops host g = Ok g' -> (0 <= score g')%Q.
Proof.
  intros Hs. unfold collect_crops.
  destruct (filter (touches_crop g) (crops g)) as [|c rest].
  - intros [= <-]. exact Hs.
  - cbv zeta.
    assert (Hs' : (0 <= score g +. addedPoints (c :: rest))%Q).
    { pose proof (addedPoints_nonneg_from (c :: rest) 0 (Qle_refl 0)) as Ha.
      unfold addedPoints. cbn [of_Z Q_number num_add] in Ha |- * .
      unfold inject_Z in Ha |- * . lra. }
    match goal with |- context [if ?b then _ else _] => destruct b end.
    + destruct (Nat.ltb _ 3).
      * unfold advanceLevel. destruct (Nat.leb 3 _); [intros [= <-]; exact Hs'|].
        intros E. apply bind_Ok in E as (lc & _ & E). injection E as <-.
        apply place_scarecrows_inv; [intros ? ? ? Hg; exact Hg|]. exact Hs'.
      * intros [= <-]. exact Hs'.
    + intros [= <-]. exact Hs'.
Qed.

Lemma update_score_nonneg host fuel dt (g g' : t Q) :
  (0 <= score g)%Q -> update host fuel dt g = Ok g' -> (0 <= score g')%Q.
Proof.
  intros Hs.
  destruct (state g) eqn:Hst;
    try (unfold update; rewrite Hst; intros [= <-]; exact Hs).
  destruct (timeLeft (countdown dt g) <=. of_Z 0) eqn:Ht.
  - rewrite update_time_up by assumption. intros [= <-]. exact Hs.
  - rewrite update_playing by assumption. intros E.
    apply bind_Ok in E as (g1 & E1 & E).
    apply bind_Ok in E as (g2 & E2 & E). injection E as <-.
    apply before_collect_same_run in E1.
    destruct E1 as (_ & _ & _ & _ & _ & _ & Hsc & _).
    cbn [score countdown set_timeLeft] in Hsc.
    apply after_collect_inv with (P := fun g0 => (0 <= score g0)%Q);
      try (intros ? ? Hg; exact Hg).
    + intros g0. apply hit_crows_nonneg.
    + eapply collect_crops_nonneg; [|exact E2]. rewrite Hsc. exact Hs.
Qed.


Lemma advanceLevel_crops_score {N} `{JsNumber N} (host : Host N) (g g' : t N) :
  advanceLevel host g = Ok g' ->
  score g' = score g /\ (level g' = level g -> g' = g) /\ (level g' <> level g -> crops g' = []).
Proof.
  unfold advanceLevel. destruct (Nat.leb 3 (level g)) eqn:E.
  - intros [= <-]. repeat split; congruence.
  - intros E'. apply bind_Ok in E' as (lc & _ & E'). injection E' as <-.
    split; [|split].
    + apply place_scarecrows_inv; [intros ? ? ? Hg; exact Hg|reflexivity].
    + intros Hl. exfalso. revert Hl.
      apply place_scarecrows_inv with (P := fun g0 => level g0 = level g -> False);
        [intros ? ? ? Hg; exact Hg|]. cbn. lia.
    + intros _. apply place_scarecrows_inv; [intros ? ? ? Hg; exact Hg|reflexivity].
Qed.

Lemma purge_marked_crops {N} (t : Crop.t N -> bool) (l : list (Crop.t N)) :
  Forall (fun c => Crop.dead c = false) l ->
  filter (fun c => negb (Crop.dead c))
         (map (fun c => if t c then Crop.set_dead true c else c) l)
  = filter (fun c => negb (t c)) l.
Proof.
  induction l as [|c l IH]; intros Halive; [reflexivity|].
  inversion Halive as [|? ? Hc Hl]; subst. cbn [map filter].
  destruct (t c) eqn:Ht; cbn [negb].
  - change (Crop.dead (Crop.set_dead true c)) with true. cbn [negb]. apply IH, Hl.
  - rewrite Hc. cbn [negb]. f_equal. apply IH, Hl.
Qed.

Lemma purge_untouched_crops {N} (t : Crop.t N -> bool) (l : list (Crop.t N)) :
  Forall (fun c => Crop.dead c = false) l ->
  filter t l = [] ->
  filter (fun c => negb (Crop.dead c)) l = filter (fun c => negb (t c)) l.
Proof.
  induction l as [|c l IH]; intros Halive Hnil; [reflexivity|].
  inversion Halive as [|? ? Hc Hl]; subst. cbn [filter] in Hnil |- * .
  destruct (t c) eqn:Ht; [discriminate Hnil|]. rewrite Hc. cbn [negb].
  f_equal. apply IH; assumption.
Qed.


(** ** Exact arithmetic: the spawn loops *)

Section LoopQ.
Variables (acc every : t Q -> Q) (set_acc : Q -> t Q -> t Q) (spawn : t Q -> t Q).
Hypothesis acc_step : forall v g, acc (spawn (set_acc v g)) = v.
Hypothesis every_step : forall v g, every (spawn (set_acc v g)) = every g.

Local Abbreviation step := (loop_step acc every set_acc spawn).
Local Abbreviation iters := (iterations acc every).

Lemma spawn_while_unfold fuel g :
  spawn_while (S fuel) acc every set_acc spawn g =
  if Qle_bool (every g) (acc g) then spawn_while fuel acc every set_acc spawn (step g)
  else Ok g.
Proof. reflexivity. Qed.

Lemma iter_S {A} (f : A -> A) n a : Nat.iter (S n) f a = f (Nat.iter n f a).
Proof. reflexivity. Qed.

Lemma loop_step_acc g : acc (step g) = (acc g - every g)%Q.
Proof. apply acc_step. Qed.

Lemma loop_step_every g : every (step g) = every g.
Proof. apply every_step. Qed.

Lemma loop_step_iter_acc n g :
  (acc (Nat.iter n step g) == acc g - inject_Z (Z.of_nat n) * every g)%Q /\
  every (Nat.iter n step g) = every g.
Proof.
  induction n as [|n [IHa IHe]].
  - cbn. split; [ring|reflexivity].
  - rewrite iter_S, loop_step_acc, loop_step_every.
    split; [|exact IHe]. rewrite IHa, IHe, Nat2Z.inj_succ.
    unfold Z.succ. rewrite inject_Z_plus. change (inject_Z 1) with 1%Q. ring.
Qed.

Lemma iter_shift {A} (f : A -> A) n a : Nat.iter n f (f a) = f (Nat.iter n f a).
Proof.
  induction n as [|n IH]; [reflexivity|]. rewrite !iter_S, IH. reflexivity.
Qed.

(** With a positive interval the loop runs exactly [n] times, where
    [n * every <= acc < (n + 1) * every], whatever fuel beyond [n] it is given. *)
Lemma spawn_while_count n : forall fuel g,
  (0 < every g)%Q ->
  (inject_Z (Z.of_nat n) * every g <= acc g)%Q ->
  (acc g < (inject_Z (Z.of_nat n) + 1) * every g)%Q ->
  n <= fuel ->
  spawn_while fuel acc every set_acc spawn g = Ok (Nat.iter n step g).
Proof.
  induction n as [|n IH]; intros fuel g Hpos Hlo Hhi Hfuel.
  - assert (E : Qle_bool (every g) (acc g) = false).
    { apply not_true_is_false. intros E. apply Qle_bool_iff in E.
      change (inject_Z (Z.of_nat 0)) with 0%Q in Hhi. lra. }
    destruct fuel; cbn [spawn_while num_le Q_number]; rewrite E; reflexivity.
  - destruct fuel as [|fuel]; [lia|].
    rewrite Nat2Z.inj_succ in Hlo, Hhi. unfold Z.succ in Hlo, Hhi.
    rewrite inject_Z_plus in Hlo, Hhi. change (inject_Z 1) with 1%Q in Hlo, Hhi.
    assert (E : Qle_bool (every g) (acc g) = true).
    { apply Qle_bool_iff.
      assert (0 <= inject_Z (Z.of_nat n))%Q
        by (change 0%Q with (inject_Z 0); rewrite <- Zle_Qle; lia).
      nra. }
    rewrite spawn_while_unfold, E, iter_S, <- iter_shift.
    apply IH.
    + rewrite loop_step_every. exact Hpos.
    + rewrite loop_step_acc, loop_step_every. lra.
    + rewrite loop_step_acc, loop_step_every. lra.
    + lia.
Qed.

Lemma spawn_while_terminates g :
  (0 < every g)%Q ->
  forall fuel, iters g <= fuel ->
  spawn_while fuel acc every set_acc spawn g = Ok (Nat.iter (iters g) step g).
Proof.
  intros Hpos fuel Hfuel.
  destruct (Qlt_le_dec (acc g) (every g)) as [Hlt|Hge].
  - (* the loop is not entered *)
    assert (Hq : (acc g / every g < 1)%Q).
    { apply Qlt_shift_div_r; [exact Hpos|]. lra. }
    assert (Hf : (Qfloor (acc g / every g) <= 0)%Z).
    { apply Z.lt_succ_r. change (Z.succ 0) with 1%Z.
      rewrite Zlt_Qlt. eapply Qle_lt_trans; [apply Qfloor_le|exact Hq]. }
    assert (Hn : iters g = 0) by (unfold iters; lia).
    rewrite Hn. cbn [Nat.iter].
    assert (E : Qle_bool (every g) (acc g) = false).
    { apply not_true_is_false. intros E. apply Qle_bool_iff in E. lra. }
    destruct fuel; cbn [spawn_while num_le Q_number]; rewrite E; reflexivity.
  - assert (Hq : (1 <= acc g / every g)%Q).
    { apply Qle_shift_div_l; [exact Hpos|]. lra. }
    assert (Hf : (0 <= Qfloor (acc g / every g))%Z).
    { apply Z.le_trans with (Qfloor 1); [cbn; lia|]. apply Qfloor_resp_le. exact Hq. }
    assert (Hn : inject_Z (Z.of_nat (iters g)) = inject_Z (Qfloor (acc g / every g))).
    { unfold iters. rewrite Z2Nat.id by exact Hf. reflexivity. }
    apply spawn_while_count; try assumption.
    + rewrite Hn.
      apply Qle_trans with (acc g / every g * every g)%Q.
      * apply Qmult_le_compat_r; [apply Qfloor_le|lra].
      * field_simplify; [lra|lra].
    + rewrite Hn.
      apply Qle_lt_trans with (acc g / every g * every g)%Q.
      * field_simplify; [lra|lra].
      * apply Qmult_lt_compat_r; [exact Hpos|].
        pose proof (Qlt_floor (acc g / every g)) as Hlt.
        rewrite inject_Z_plus in Hlt. exact Hlt.
Qed.

(** With an interval that is zero or negative and an accumulator not below
    it, the loop never ends. *)
Lemma spawn_while_diverges fuel : forall g,
  (every g <= 0)%Q -> (every g <= acc g)%Q ->
  spawn_while fuel acc every set_acc spawn g = OutOfFuel.
Proof.
  induction fuel as [|fuel IH]; intros g Hneg Hge;
    assert (E : Qle_bool (every g) (acc g) = true) by (apply Qle_bool_iff; exact Hge).
  - cbn [spawn_while num_le Q_number]. rewrite E. reflexivity.
  - rewrite spawn_while_unfold, E.
    apply IH; rewrite ?loop_step_acc, ?loop_step_every; lra.
Qed.

End LoopQ.

Lemma collect_crops_fuel_free {N} `{JsNumber N} (host : Host N) (g : t N) :
  collect_crops host g <> OutOfFuel.
Proof.
  unfold collect_crops. destruct (filter _ _); [discriminate|]. cbv zeta.
  destruct (_ >=. _); [|discriminate].
  destruct (Nat.ltb _ 3); [|discriminate].
  unfold advanceLevel.
  destruct (Nat.leb 3 _); [discriminate|].
  cbv zeta. unfold level_config.
  destruct (config _) as [c|]; [|discriminate].
  destruct (nth_error _ _); discriminate.
Qed.

Section UpdateQ.
Variable host : Host Q.

Lemma spawn_crops_Q fuel dt (g : t Q) :
  (0 < spawnEvery g)%Q ->
  let g0 := set_accumSpawn (_accumSpawn g + dt)%Q g in
  let n := iterations (@_accumSpawn Q) (@spawnEvery Q) g0 in
  n <= fuel ->
  spawn_crops host fuel dt g =
  Ok (Nat.iter n (loop_step (@_accumSpawn Q) (@spawnEvery Q) set_accumSpawn (spawnCrop host)) g0).
Proof.
  intros Hpos g0 n Hfuel. unfold spawn_crops.
  apply spawn_while_terminates; try reflexivity; assumption.
Qed.

Lemma spawn_powerUps_Q fuel dt (g : t Q) :
  (0 < powerUpSpawnEvery g)%Q ->
  let g0 := set_accumPowerUpSpawn (_accumPowerUpSpawn g + dt)%Q g in
  let n := iterations (@_accumPowerUpSpawn Q) (@powerUpSpawnEvery Q) g0 in
  n <= fuel ->
  spawn_powerUps host fuel dt g =
  Ok (Nat.iter n (loop_step (@_accumPowerUpSpawn Q) (@powerUpSpawnEvery Q)
                            set_accumPowerUpSpawn (spawnPowerUp host)) g0).
Proof.
  intros Hpos g0 n Hfuel. unfold spawn_powerUps.
  apply spawn_while_terminates; try reflexivity; assumption.
Qed.

Lemma spawn_crows_Q fuel dt (g : t Q) :
  (0 < crowSpawnEvery g)%Q ->
  let g0 := set_accumCrowSpawn (_accumCrowSpawn g + dt)%Q g in
  let n := iterations (@_accumCrowSpawn Q) (@crowSpawnEvery Q) g0 in
  n <= fuel ->
  spawn_crows host fuel dt g =
  Ok (Nat.iter n (loop_step (@_accumCrowSpawn Q) (@crowSpawnEvery Q)
                            set_accumCrowSpawn (spawnCrow host)) g0).
Proof.
  intros Hpos g0 n Hfuel. unfold spawn_crows.
  apply spawn_while_terminates; try reflexivity; assumption.
Qed.

(** With positive intervals the phases before the collision pass finish, with
    the same result for every fuel above a bound. *)
Lemma before_collect_terminates dt (g : t Q) :
  (0 < spawnEvery g)%Q -> (0 < powerUpSpawnEvery g)%Q -> (0 < crowSpawnEvery g)%Q ->
  exists fuel0 g1, forall fuel, fuel0 <= fuel ->
    run_phases host fuel dt before_collect g = Ok g1.
Proof.
  intros H1 H2 H3. unfold before_collect. cbn [run_phases run_phase bind].
  set (ga := update_player host dt (handle_input g)).
  assert (Ha : (0 < spawnEvery ga)%Q) by exact H1.
  pose proof (fun fuel => spawn_crops_Q fuel dt ga Ha) as E1. cbv zeta in E1.
  set (n1 := iterations _ _ _) in E1. set (gb := Nat.iter n1 _ _) in E1.
  assert (Hb : (0 < powerUpSpawnEvery gb)%Q).
  { destruct (spawn_crops_same_run host n1 dt ga gb (E1 n1 (le_n _)))
      as (_ & _ & _ & _ & _ & _ & _ & _ & _ & Hp & _). rewrite Hp. exact H2. }
  pose proof (fun fuel => spawn_powerUps_Q fuel dt gb Hb) as E2. cbv zeta in E2.
  set (n2 := iterations _ _ _) in E2. set (gc := Nat.iter n2 _ _) in E2.
  assert (Hc : (0 < crowSpawnEvery gc)%Q).
  { destruct (spawn_powerUps_same_run host n2 dt gb gc (E2 n2 (le_n _)))
      as (_ & _ & _ & _ & _ & _ & _ & _ & _ & _ & Hp & _). rewrite Hp.
    destruct (spawn_crops_same_run host n1 dt ga gb (E1 n1 (le_n _)))
      as (_ & _ & _ & _ & _ & _ & _ & _ & _ & _ & Hq & _). rewrite Hq. exact H3. }
  pose proof (fun fuel => spawn_crows_Q fuel dt gc Hc) as E3. cbv zeta in E3.
  set (n3 := iterations _ _ _) in E3. set (gd := Nat.iter n3 _ _) in E3.
  exists (Nat.max n1 (Nat.max n2 n3)), gd. intros fuel Hfuel.
  rewrite E1 by lia. cbn [bind]. rewrite E2 by lia. cbn [bind].
  rewrite E3 by lia. reflexivity.
Qed.

Lemma update_terminates dt (g : t Q) :
  (0 < spawnEvery g)%Q -> (0 < powerUpSpawnEvery g)%Q -> (0 < crowSpawnEvery g)%Q ->
  exists fuel0 r, r <> OutOfFuel /\
    forall fuel, fuel0 <= fuel -> update host fuel dt g = r.
Proof.
  intros H1 H2 H3.
  destruct (state g) eqn:Hs;
    try (exists 0, (Ok g); split; [discriminate|];
         intros fuel _; unfold update; rewrite Hs; reflexivity).
  destruct (timeLeft (countdown dt g) <=. of_Z 0) eqn:Ht.
  - exists 0, (Ok (set_state GAME_OVER (countdown dt g))). split; [discriminate|].
    intros fuel _. apply update_time_up; assumption.
  - destruct (before_collect_terminates dt (countdown dt g) H1 H2 H3) as (fuel0 & g1 & E).
    exists fuel0, (g2 <- collect_crops host g1 ;; Ok (after_collect_fn host dt g2)).
    split.
    + pose proof (collect_crops_fuel_free host g1) as Hc.
      destruct (collect_crops host g1); cbn [bind]; congruence.
    + intros fuel Hfuel. rewrite update_playing by assumption.
      rewrite (E fuel Hfuel). reflexivity.
Qed.

(** *** A zero or negative interval *)

Lemma spawn_crops_diverges fuel dt (g : t Q) :
  (spawnEvery g <= 0)%Q -> (spawnEvery g <= _accumSpawn g + dt)%Q ->
  spawn_crops host fuel dt g = OutOfFuel.
Proof.
  intros; unfold spawn_crops; apply spawn_while_diverges; try reflexivity; assumption.
Qed.

Lemma spawn_powerUps_diverges fuel dt (g : t Q) :
  (powerUpSpawnEvery g <= 0)%Q -> (powerUpSpawnEvery g <= _accumPowerUpSpawn g + dt)%Q ->
  spawn_powerUps host fuel dt g = OutOfFuel.
Proof.
  intros; unfold spawn_powerUps; apply spawn_while_diverges; try reflexivity; assumption.
Qed.

Lemma spawn_crows_diverges fuel dt (g : t Q) :
  (crowSpawnEvery g <= 0)%Q -> (crowSpawnEvery g <= _accumCrowSpawn g + dt)%Q ->
  spawn_crows host fuel dt g = OutOfFuel.
Proof.
  intros; unfold spawn_crows; apply spawn_while_diverges; try reflexivity; assumption.
Qed.

(** The spawn loops only touch their own accumulator, list and the random
    cursor. *)
Lemma spawn_crops_other_accums fuel dt (g g' : t Q) :
  spawn_crops host fuel dt g = Ok g' ->
  powerUpSpawnEvery g' = powerUpSpawnEvery g /\
  _accumPowerUpSpawn g' = _accumPowerUpSpawn g /\
  crowSpawnEvery g' = crowSpawnEvery g /\ _accumCrowSpawn g' = _accumCrowSpawn g.
Proof.
  unfold spawn_crops.
  apply spawn_while_inv with
    (P := fun g' => powerUpSpawnEvery g' = powerUpSpawnEvery g /\
                    _accumPowerUpSpawn g' = _accumPowerUpSpawn g /\
                    crowSpawnEvery g' = crowSpawnEvery g /\
                    _accumCrowSpawn g' = _accumCrowSpawn g).
  - intros ? ? Hg; exact Hg.
  - repeat split.
Qed.

Lemma spawn_powerUps_other_accums fuel dt (g g' : t Q) :
  spawn_powerUps host fuel dt g = Ok g' ->
  crowSpawnEvery g' = crowSpawnEvery g /\ _accumCrowSpawn g' = _accumCrowSpawn g.
Proof.
  unfold spawn_powerUps.
  apply spawn_while_inv with
    (P := fun g' => crowSpawnEvery g' = crowSpawnEvery g /\
                    _accumCrowSpawn g' = _accumCrowSpawn g).
  - intros ? ? Hg; exact Hg.
  - repeat split.
Qed.

Lemma update_diverges dt (g : t Q) :
  state g = PLAYING ->
  (timeLeft (countdown dt g) <=. of_Z 0) = false ->
  ((spawnEvery g <= 0 /\ spawnEvery g <= _accumSpawn g + dt) \/
   (powerUpSpawnEvery g <= 0 /\ powerUpSpawnEvery g <= _accumPowerUpSpawn g + dt) \/
   (crowSpawnEvery g <= 0 /\ crowSpawnEvery g <= _accumCrowSpawn g + dt))%Q ->
  diverges (fun fuel => update host fuel dt g).
Proof.
  intros Hs Ht Hbad fuel. rewrite update_playing by assumption.
  unfold before_collect. cbn [run_phases run_phase bind].
  set (ga := update_player host dt (handle_input (countdown dt g))).
  destruct Hbad as [[Hn Hge]|[[Hn Hge]|[Hn Hge]]].
  - rewrite (spawn_crops_diverges fuel dt ga Hn Hge). reflexivity.
  - destruct (spawn_crops host fuel dt ga) as [gb| |] eqn:E1; cbn [bind];
      [|exfalso; exact (spawn_while_no_throw _ _ _ _ _ _ E1)|reflexivity].
    apply spawn_crops_other_accums in E1 as (He & Ha & _).
    rewrite spawn_powerUps_diverges; [reflexivity| |]; rewrite ?He, ?Ha; assumption.
  - destruct (spawn_crops host fuel dt ga) as [gb| |] eqn:E1; cbn [bind];
      [|exfalso; exact (spawn_while_no_throw _ _ _ _ _ _ E1)|reflexivity].
    apply spawn_crops_other_accums in E1 as (_ & _ & He & Ha).
    destruct (spawn_powerUps host fuel dt gb) as [gc| |] eqn:E2; cbn [bind];
      [|exfalso; exact (spawn_while_no_throw _ _ _ _ _ _ E2)|reflexivity].
    apply spawn_powerUps_other_accums in E2 as (He' & Ha').
    rewrite spawn_crows_diverges; [reflexivity| |]; rewrite ?He', ?Ha', ?He, ?Ha; assumption.
Qed.

End UpdateQ.

Section Loop.
Context {N : Type} `{JsNumber N}.
Variables (acc every : t N -> N) (set_acc : N -> t N -> t N) (spawn : t N -> t N).

Lemma spawn_while_enter fuel g :
  (acc g >=. every g) = true ->
  spawn_while (S fuel) acc every set_acc spawn g =
  spawn_while fuel acc every set_acc spawn (spawn (set_acc (acc g -. every g) g)).
Proof. intros E. cbn [spawn_while]. rewrite E. reflexivity. Qed.

Lemma spawn_while_exit fuel g :
  (acc g >=. every g) = false -> spawn_while fuel acc every set_acc spawn g = Ok g.
Proof. intros E. destruct fuel; cbn [spawn_while]; rewrite E; reflexivity. Qed.

(** When subtracting the interval leaves the accumulator as it was, the loop
    makes no progress and never ends. *)
Lemma spawn_while_absorbed (a e : N) :
  (forall v g, acc (spawn (set_acc v g)) = v) ->
  (forall v g, every (spawn (set_acc v g)) = every g) ->
  (a >=. e) = true -> a -. e = a ->
  forall fuel g, acc g = a -> every g = e ->
  spawn_while fuel acc every set_acc spawn g = OutOfFuel.
Proof.
  intros Hacc Hevery Hge Habs. induction fuel as [|fuel IH]; intros g Ha He.
  - cbn [spawn_while]. rewrite Ha, He, Hge. reflexivity.
  - rewrite spawn_while_enter by (rewrite Ha, He; exact Hge).
    apply IH; [rewrite Hacc, Ha, He; exact Habs|rewrite Hevery; exact He].
Qed.
End Loop.

Lemma spawnCrop_crops_length {N} `{JsNumber N} (host : Host N) v (g : t N) :
  List.length (crops (spawnCrop host (set_accumSpawn v g))) = S (List.length (crops g)).
Proof. cbn. rewrite length_app. cbn. lia. Qed.

Lemma crop_steps_length (host : Host Q) n (g : t Q) :
  List.length (crops (Nat.iter n (loop_step (@_accumSpawn Q) (@spawnEvery Q)
                                            set_accumSpawn (spawnCrop host)) g))
  = List.length (crops g) + n.
Proof.
  induction n as [|n IH]; [cbn; lia|].
  rewrite iter_S. unfold loop_step at 1. rewrite spawnCrop_crops_length, IH. lia.
Qed.

Lemma drain_exact_Q (host : Host Q) (g : t Q) fuel :
  (_accumSpawn g == 0)%Q -> (spawnEvery g == 8 # 10)%Q -> 3 <= fuel ->
  exists g', spawn_crops host fuel (25 # 10)%Q g = Ok g' /\
             List.length (crops g') = List.length (crops g) + 3 /\
             (_accumSpawn g' == 1 # 10)%Q.
Proof.
  intros Ha He Hfuel. unfold spawn_crops.
  set (g0 := set_accumSpawn (_accumSpawn g +. (25 # 10)%Q) g).
  assert (Ha0 : (_accumSpawn g0 == 25 # 10)%Q).
  { subst g0. cbn. rewrite Ha. reflexivity. }
  assert (He0 : (spawnEvery g0 == 8 # 10)%Q) by exact He.
  eexists. split; [|split].
  - apply (@spawn_while_count (@_accumSpawn Q) (@spawnEvery Q) set_accumSpawn
             (spawnCrop host)) with (n := 3); try reflexivity; try assumption.
    + rewrite He0. reflexivity.
    + rewrite He0, Ha0. cbn. discriminate.
    + rewrite He0, Ha0. reflexivity.
  - rewrite crop_steps_length. reflexivity.
  - destruct (@loop_step_iter_acc (@_accumSpawn Q) (@spawnEvery Q) set_accumSpawn
                (spawnCrop host) (fun _ _ => eq_refl) (fun _ _ => eq_refl) 3 g0) as [E _].
    rewrite E, Ha0, He0. reflexivity.
Qed.

Lemma drain_double (host : Host float) (g : t float) fuel :
  _accumSpawn g = of_Z 0 -> spawnEvery g = dec 8 1 -> 3 <= fuel ->
  exists g', spawn_crops host fuel (dec 25 1) g = Ok g' /\
             List.length (crops g') = List.length (crops g) + 3 /\
             _accumSpawn g' = dec 25 1 -. dec 8 1 -. dec 8 1 -. dec 8 1 /\
             (Math_abs (_accumSpawn g' -. dec 1 1) <=. dec 1 15) = true /\
             (_accumSpawn g' =. dec 1 1) = false.
Proof.
  intros Ha He Hfuel.
  assert (E3 : exists g', spawn_crops host 3 (dec 25 1) g = Ok g' /\
             List.length (crops g') = List.length (crops g) + 3 /\
             _accumSpawn g' = dec 25 1 -. dec 8 1 -. dec 8 1 -. dec 8 1).
  { unfold spawn_crops.
    rewrite spawn_while_enter by (cbn; rewrite Ha, He; reflexivity).
    rewrite spawn_while_enter by (cbn; rewrite Ha, He; reflexivity).
    rewrite spawn_while_enter by (cbn; rewrite Ha, He; reflexivity).
    rewrite spawn_while_exit by (cbn; rewrite Ha, He; reflexivity).
    eexists. split; [reflexivity|]. split.
    - cbn. rewrite !length_app. cbn. lia.
    - cbn. rewrite Ha, He. reflexivity. }
  destruct E3 as (g' & E & Hl & Hacc). exists g'.
  split; [eapply spawn_while_mono; [exact E|exact Hfuel]|].
  split; [exact Hl|]. split; [exact Hacc|]. rewrite Hacc. split; reflexivity.
Qed.

Lemma countdown_expires_Q dt (g : t Q) :
  (timeLeft g - dt <= 0)%Q -> (timeLeft (countdown dt g) <=. of_Z 0) = true.
Proof.
  intros Hle. cbn. apply Qle_bool_iff. unfold clamp. cbn.
  eapply Qle_trans; [apply Q.le_min_r|].
  rewrite Q.max_l by exact Hle. apply Qle_refl.
Qed.

Lemma lt_zero_Q (q : Q) : (of_Z 0 <. q) = true <-> (0 < q)%Q.
Proof.
  change (of_Z 0 <. q) with (negb (Qle_bool q 0)).
  rewrite negb_true_iff. split.
  - intros E. apply Qnot_le_lt. intros Hle. apply Qle_bool_iff in Hle. congruence.
  - intros Hlt. apply not_true_is_false. intros E. apply Qle_bool_iff in E.
    apply (Qlt_not_le _ _ Hlt). exact E.
Qed.

(** ** A playing frame, cut at the crop collection *)

Section Frame.
Context {N : Type} `{JsNumber N}.
Variable host : Host N.

Lemma after_collect_split dt (g : t N) :
  after_collect_fn host dt g = purge_crows (hit_crows (crows_moved host dt g)).
Proof. exact eq_refl. Qed.

Lemma purge_hit_crops (g : t N) : crops (purge_crows (hit_crows g)) = crops g.
Proof.
  unfold purge_crows. cbn [crops set_crows]. apply (proj1 (hit_crows_keeps g)).
Qed.

Lemma crows_moved_inv (P : t N -> Prop) dt :
  (forall g l, P g -> P (set_crops l g)) ->
  (forall g l, P g -> P (set_powerUps l g)) ->
  (forall g l, P g -> P (set_crows l g)) ->
  (forall g p, P g -> P (set_player p g)) ->
  (forall g r, P g -> P (set_rnd r g)) ->
  (forall g c, P g -> P (set_clk c g)) ->
  forall g, P g -> P (crows_moved host dt g).
Proof.
  intros Hc Hp Hw Hpl Hr Hk g Hg. unfold crows_moved.
  apply update_crows_inv; [intros; apply Hr, Hw; assumption|].
  apply Hp. apply Hp.
  apply collect_powerUps_inv; [exact Hp|intros; apply Hk, Hpl; assumption|].
  apply Hc. apply Hc. exact Hg.
Qed.

Lemma crows_moved_score dt (g : t N) : score (crows_moved host dt g) = score g.
Proof.
  apply crows_moved_inv with (P := fun g' => score g' = score g);
    try (intros ? ? Hg; exact Hg). reflexivity.
Qed.

Lemma hit_crows_player (g : t N) : player (hit_crows g) = player g.
Proof.
  apply hit_crows_inv with (P := fun g' => player g' = player g);
    [intros ? ? ? Hg; exact Hg|reflexivity].
Qed.

Lemma purge_hit_touches (g : t N) c :
  touches_crow (purge_crows (hit_crows g)) c = touches_crow g c.
Proof.
  unfold touches_crow, purge_crows. cbn [player set_crows].
  rewrite hit_crows_player. reflexivity.
Qed.

(** From the crop purge to the crow update only the first two phases touch
    the crop list. *)
Lemma crows_moved_inv_crops (P : t N -> Prop) dt :
  (forall g l, P g -> P (set_powerUps l g)) ->
  (forall g l, P g -> P (set_crows l g)) ->
  (forall g p, P g -> P (set_player p g)) ->
  (forall g r, P g -> P (set_rnd r g)) ->
  (forall g c, P g -> P (set_clk c g)) ->
  forall g, P (update_crops dt (purge_crops g)) -> P (crows_moved host dt g).
Proof.
  intros Hp Hw Hpl Hr Hk g Hg. unfold crows_moved.
  apply update_crows_inv; [intros; apply Hr, Hw; assumption|].
  apply Hp. apply Hp.
  apply collect_powerUps_inv; [exact Hp|intros; apply Hk, Hpl; assumption|].
  exact Hg.
Qed.

Lemma crows_moved_crops dt (g : t N) :
  crops (crows_moved host dt g)
  = map (Crop.update dt) (filter (fun c => negb (Crop.dead c)) (crops g)).
Proof.
  apply crows_moved_inv_crops with
    (P := fun g' => crops g' = map (Crop.update dt)
                                   (filter (fun c => negb (Crop.dead c)) (crops g)));
    try (intros ? ? Hg; exact Hg).
  reflexivity.
Qed.

Lemma after_collect_crops dt (g : t N) :
  crops (after_collect_fn host dt g)
  = map (Crop.update dt) (filter (fun c => negb (Crop.dead c)) (crops g)).
Proof.
  rewrite after_collect_split, purge_hit_crops. apply crows_moved_crops.
Qed.

Lemma alive_after_purge_update dt (l : list (Crop.t N)) :
  Forall (fun c => Crop.dead c = false)
         (map (Crop.update dt) (filter (fun c => negb (Crop.dead c)) l)).
Proof.
  apply Forall_forall. intros c Hin. apply in_map_iff in Hin as (c0 & <- & Hin).
  apply filter_In in Hin as [_ Hd]. apply negb_true_iff in Hd. exact Hd.
Qed.

Lemma before_collect_alive fuel dt (g g1 : t N) :
  Forall (fun c => Crop.dead c = false) (crops g) ->
  run_phases host fuel dt before_collect g = Ok g1 ->
  Forall (fun c => Crop.dead c = false) (crops g1).
Proof.
  intros Halive. unfold before_collect. cbn [run_phases run_phase bind]. intros E.
  apply bind_Ok in E as (ga & E1 & E).
  apply bind_Ok in E as (gb & E2 & E).
  apply bind_Ok in E as (gc & E3 & E). injection E as <-.
  assert (Ha : Forall (fun c => Crop.dead c = false) (crops ga)).
  { revert E1. unfold spawn_crops.
    apply spawn_while_inv with (P := fun g' => Forall (fun c => Crop.dead c = false) (crops g')).
    - intros g0 v Hg. cbn. apply Forall_app. split; [exact Hg|]. repeat constructor.
    - exact Halive. }
  assert (Hb : Forall (fun c => Crop.dead c = false) (crops gb)).
  { revert E2. unfold spawn_powerUps.
    apply spawn_while_inv with (P := fun g' => Forall (fun c => Crop.dead c = false) (crops g')).
    - intros g0 v Hg. exact Hg.
    - exact Ha. }
  revert E3. unfold spawn_crows.
  apply spawn_while_inv with (P := fun g' => Forall (fun c => Crop.dead c = false) (crops g')).
  - intros g0 v Hg. exact Hg.
  - exact Hb.
Qed.

(** A playing frame whose time has not run out, cut at the crop collection. *)
Lemma update_playing_cut fuel dt (g g' : t N) :
  state g = PLAYING ->
  (timeLeft (countdown dt g) <=. of_Z 0) = false ->
  update host fuel dt g = Ok g' ->
  exists g1 g2,
    run_phases host fuel dt before_collect (countdown dt g) = Ok g1 /\
    collect_crops host g1 = Ok g2 /\
    g' = after_collect_fn host dt g2.
Proof.
  intros Hs Ht. rewrite update_playing by assumption. intros E.
  apply bind_Ok in E as (g1 & E1 & E).
  apply bind_Ok in E as (g2 & E2 & E). injection E as <-.
  exists g1, g2. auto.
Qed.

End Frame.

Lemma purge_crows_score {N} (g : t N) : score (purge_crows g) = score g.
Proof. reflexivity. Qed.

Lemma collect_crops_batch :
  forall N (num : JsNumber N) (host : Host N) (g g1 : t N),
    Forall (fun c => Crop.dead c = false) (crops g) ->
    collect_crops host g = Ok g1 ->
    let collected := filter (touches_crop g) (crops g) in
    let marked := map (fun c => if touches_crop g c then Crop.set_dead true c else c)
                      (crops g) in
    (collected = [] -> g1 = g) /\
    (collected <> [] -> score g1 = score g +. addedPoints collected) /\
    addedPoints collected
      = fold_left (fun sum c => sum +. match Crop.type c with
                                       | Crop.wheat => of_Z 1
                                       | Crop.pumpkin => of_Z 3
                                       | Crop.golden_apple => of_Z 5
                                       end) collected (of_Z 0) /\
    (level g1 = level g -> collected <> [] -> crops g1 = marked) /\
    (level g1 = level g ->
       crops (purge_crops g1) = filter (fun c => negb (touches_crop g c)) (crops g)) /\
    (forall c, In c (crops (purge_crops g1)) -> In c (crops g) /\ touches_crop g c = false).
Proof.
  intros N num host g g1 Halive Hrun collected marked.
  assert (Hpurge_marked :
            filter (fun c => negb (Crop.dead c)) marked
            = filter (fun c => negb (touches_crop g c)) (crops g))
    by (apply purge_marked_crops, Halive).
  assert (Hpurge_same :
            filter (touches_crop g) (crops g) = [] ->
            filter (fun c => negb (Crop.dead c)) (crops g)
            = filter (fun c => negb (touches_crop g c)) (crops g))
    by (apply purge_untouched_crops, Halive).
  assert (Hcases :
            (collected = [] /\ g1 = g) \/
            (collected <> [] /\ score g1 = score g +. addedPoints collected /\
             ((level g1 = level g /\ crops g1 = marked) \/
              (level g1 <> level g /\ crops g1 = [])))).
  { revert Hrun. unfold collect_crops. fold collected.
    destruct collected as [|c rest] eqn:Ecol.
    - intros [= <-]. left. auto.
    - right. split; [discriminate|]. revert Hrun. cbv zeta.
      match goal with |- context [if ?b then _ else _] => destruct b end.
      + destruct (Nat.ltb _ 3).
        * intros E. apply advanceLevel_crops_score in E. destruct E as (Hs & Hsame & Hadv).
          split; [rewrite Hs; reflexivity|].
          destruct (Nat.eq_dec (level g1) (level g)) as [El|El].
          -- left. split; [exact El|]. rewrite (Hsame El). reflexivity.
          -- right. split; [exact El|]. apply Hadv. exact El.
        * intros [= <-]. split; [reflexivity|]. left. split; reflexivity.
      + intros [= <-]. split; [reflexivity|]. left. split; reflexivity. }
  split; [|split; [|split; [|split; [|split]]]].
  - intros Hnil. destruct Hcases as [[_ ->]|[Hne _]]; [reflexivity|contradiction].
  - intros Hne. destruct Hcases as [[Hnil _]|(_ & Hs & _)]; [contradiction|exact Hs].
  - unfold addedPoints, Crop.points. reflexivity.
  - intros Hl Hne. destruct Hcases as [[Hnil _]|(_ & _ & [[_ Hc]|[Hl' _]])];
      [contradiction|exact Hc|contradiction].
  - intros Hl. unfold purge_crops. cbn [crops set_crops].
    destruct Hcases as [[Hnil ->]|(_ & _ & [[_ ->]|[Hl' _]])].
    + apply Hpurge_same, Hnil.
    + exact Hpurge_marked.
    + contradiction.
  - intros c. unfold purge_crops. cbn [crops set_crops].
    destruct Hcases as [[Hnil ->]|(_ & _ & [[_ ->]|[_ ->]])].
    + rewrite (Hpurge_same Hnil), filter_In. intros [Hin Ht].
      apply negb_true_iff in Ht. auto.
    + rewrite Hpurge_marked, filter_In. intros [Hin Ht].
      apply negb_true_iff in Ht. auto.
    + intros [].
Qed.

(** ** The frame in which time runs out *)

Lemma time_up_frame {N} `{JsNumber N} (host : Host N) fuel dt (g : t N) :
  state g = PLAYING ->
  (timeLeft (countdown dt g) <=. of_Z 0) = true ->
  time_up_result dt g (update host fuel dt g).
Proof.
  intros Hs Ht. exists (set_state GAME_OVER (countdown dt g)).
  split; [apply update_time_up; assumption|]. repeat split.
Qed.

(** ** More on single phases *)

Lemma hit_crows_cases {N} `{JsNumber N} (g : t N) :
  let count := List.length (filter (touches_crow g) (crows g)) in
  (count = 0 -> hit_crows g = g) /\
  (0 < count ->
     score (hit_crows g) = Math_max (of_Z 0) (score g -. of_Z 2 *. of_nat count)).
Proof.
  cbv zeta. unfold hit_crows.
  destruct (filter (touches_crow g) (crows g)) as [|c l]; cbn [List.length Nat.ltb Nat.leb].
  - split; [reflexivity|lia].
  - split; [discriminate|reflexivity].
Qed.

Lemma after_collect_goal {N} `{JsNumber N} (host : Host N) dt (g : t N) :
  goal (after_collect_fn host dt g) = goal g.
Proof.
  apply after_collect_inv with (P := fun g' => goal g' = goal g);
    try (intros ? ? Hg; exact Hg).
  - intros g0 Hg. apply hit_crows_inv; [intros ? ? ? Hg'; exact Hg'|exact Hg].
  - reflexivity.
Qed.

(** A frame that collects no crop keeps level, state and goal. *)
Lemma update_without_collection {N} `{JsNumber N} (host : Host N) fuel dt (g g1 : t N) :
  state g = PLAYING ->
  (timeLeft (countdown dt g) <=. of_Z 0) = false ->
  run_phases host fuel dt before_collect (countdown dt g) = Ok g1 ->
  filter (touches_crop g1) (crops g1) = [] ->
  exists g', update host fuel dt g = Ok g' /\
             level g' = level g /\ state g' = PLAYING /\ goal g' = goal g.
Proof.
  intros Hs Ht Hpre Hnil.
  exists (after_collect_fn host dt g1). split.
  - rewrite update_playing by assumption. rewrite Hpre. cbn [bind].
    unfold collect_crops. rewrite Hnil. reflexivity.
  - apply before_collect_same_run in Hpre.
    destruct Hpre as (Hst & Hl & _ & _ & _ & _ & _ & Hg & _).
    cbn [state level goal countdown set_timeLeft] in Hst, Hl, Hg.
    destruct (after_collect_state_level host dt g1) as [Hs' Hl'].
    rewrite Hs', Hl', after_collect_goal. repeat split; congruence.
Qed.

(** A crop interval that the accumulator absorbs: the frame never ends. *)
Lemma update_diverges_absorbed {N} `{JsNumber N} (host : Host N) dt (g : t N) :
  state g = PLAYING ->
  (timeLeft (countdown dt g) <=. of_Z 0) = false ->
  (_accumSpawn g +. dt >=. spawnEvery g) = true ->
  _accumSpawn g +. dt -. spawnEvery g = _accumSpawn g +. dt ->
  diverges (fun fuel => update host fuel dt g).
Proof.
  intros Hs Ht Hge Habs fuel. rewrite (update_playing host fuel _ _ Hs Ht).
  unfold before_collect. cbn [run_phases run_phase bind]. unfold spawn_crops.
  rewrite (spawn_while_absorbed (@_accumSpawn N) (@spawnEvery N)
             set_accumSpawn (spawnCrop host) (_accumSpawn g +. dt) (spawnEvery g)
             (fun _ _ => eq_refl) (fun _ _ => eq_refl) Hge Habs);
    reflexivity.
Qed.

(** ** Doubles that compare equal are not below one another *)

Lemma SFcompare_Eq_sym a b : SFcompare a b = Some Eq -> SFcompare b a = Some Eq.
Proof.
  destruct a as [sa|sa| |sa ma ea], b as [sb|sb| |sb mb eb]; cbn [SFcompare];
    try discriminate; try reflexivity;
    try (destruct sa; discriminate); try (destruct sb; discriminate);
    try (destruct sa, sb; (discriminate || reflexivity)).
  destruct sa, sb; try discriminate;
    (destruct (Z.compare ea eb) eqn:E; try discriminate;
     apply Z.compare_eq in E; subst eb; rewrite Z.compare_refl;
     intros Hc; injection Hc as Hc;
     destruct (Pos.compare_cont Eq ma mb) eqn:E2; try discriminate;
     apply Pcompare_Eq_eq in E2; subst mb; rewrite Pcompare_refl; reflexivity).
Qed.

Lemma double_eq_not_lt (p q : float) :
  PrimFloat.eqb p q = true -> PrimFloat.ltb q p = false.
Proof.
  rewrite eqb_spec, ltb_spec. unfold SFeqb, SFltb.
  destruct (SFcompare (Prim2SF p) (Prim2SF q)) as [[| |]|] eqn:E; try discriminate.
  intros _. rewrite (SFcompare_Eq_sym _ _ E). reflexivity.
Qed.

(** ** Spawn loops that make progress, and loops that stall *)

Lemma drains_prepend {N} `{JsNumber N} (e a b : N) :
  (a >=. e) = true -> drains e (a -. e) b -> drains e a b.
Proof.
  intros Ha D. induction D as [|b D IH Hb].
  - apply drains_step; [apply drains_start|exact Ha].
  - apply drains_step; [exact IH|exact Hb].
Qed.

Lemma makes_progress_next {N} `{JsNumber N} (e a : N) :
  (a >=. e) = true -> makes_progress e a -> makes_progress e (a -. e).
Proof.
  intros Ha Hp b D. apply Hp. apply drains_prepend; assumption.
Qed.

Lemma drains_first {N} `{JsNumber N} (e a0 a : N) :
  drains e a0 a -> a0 = a \/ ((a0 >=. e) = true /\ drains e (a0 -. e) a).
Proof.
  intros D. induction D as [|b D IH Hb]; [left; reflexivity|].
  right. destruct IH as [->|[Ha0 D']].
  - split; [exact Hb|apply drains_start].
  - split; [exact Ha0|apply drains_step; assumption].
Qed.

(** Every value a loop reaches stays in a list closed under its step. *)
Lemma progress_by_list {N} `{JsNumber N} (e a0 : N) (l : list N) :
  In a0 l ->
  Forall (fun b => (b >=. e) = true -> In (b -. e) l /\ (b -. e <. b) = true) l ->
  makes_progress e a0.
Proof.
  intros H0 Hl. rewrite Forall_forall in Hl.
  assert (Hin : forall a, drains e a0 a -> In a l).
  { intros a D. induction D as [|b D IH Hb]; [exact H0|]. apply (Hl b IH Hb). }
  intros a D Ha. apply (Hl a (Hin a D) Ha).
Qed.

(** *** Doubles above a positive bound have no infinite descent

    A positive double is an exponent and a mantissa, compared
    lexicographically, and the exponents above the bound's are bounded
    below. *)

Lemma positive_double lo :
  (of_Z 0 <. lo) = true ->
  Prim2SF lo = S754_infinity false \/ exists m e, Prim2SF lo = S754_finite false m e.
Proof.
  cbn [num_lt float_number]. rewrite ltb_spec.
  assert (E0 : Prim2SF (of_Z 0) = S754_zero false) by (vm_compute; reflexivity).
  rewrite E0. unfold SFltb, SFcompare.
  destruct (Prim2SF lo) as [s|s| |s m e]; try discriminate.
  - destruct s; [discriminate|]. auto.
  - destruct s; [discriminate|]. right. eauto.
Qed.

Lemma above_positive lo y m0 e0 :
  Prim2SF lo = S754_finite false m0 e0 -> (lo <=. y) = true ->
  Prim2SF y = S754_infinity false \/
  exists m e, Prim2SF y = S754_finite false m e /\ (e0 <= e)%Z.
Proof.
  intros El. cbn [num_le float_number]. rewrite leb_spec, El.
  unfold SFleb, SFcompare.
  destruct (Prim2SF y) as [s|s| |s m e]; try discriminate.
  - destruct s; [discriminate|]. auto.
  - destruct s; [discriminate|]. intros Hc. right. exists m, e. split; [reflexivity|].
    destruct (Z.compare_spec e0 e); try lia; discriminate.
Qed.

Lemma above_infinity lo y :
  Prim2SF lo = S754_infinity false -> (lo <=. y) = true -> Prim2SF y = S754_infinity false.
Proof.
  intros El. cbn [num_le float_number]. rewrite leb_spec, El.
  unfold SFleb, SFcompare.
  destruct (Prim2SF y) as [s|s| |s m e]; try discriminate.
  destruct s; [discriminate|]. reflexivity.
Qed.

Lemma lt_finite_positive y x my ey :
  Prim2SF y = S754_finite false my ey -> (y <. x) = true ->
  Prim2SF x = S754_infinity false \/
  exists mx ex, Prim2SF x = S754_finite false mx ex /\
                ((ey < ex)%Z \/ (ey = ex /\ (my < mx)%positive)).
Proof.
  intros Ey. cbn [num_lt float_number]. rewrite ltb_spec, Ey.
  unfold SFltb, SFcompare.
  destruct (Prim2SF x) as [s|s| |s m e]; try discriminate.
  - destruct s; [discriminate|]. auto.
  - destruct s; [discriminate|]. intros Hc. right. exists m, e. split; [reflexivity|].
    destruct (Z.compare_spec ey e) as [->|Hlt|Hgt]; try discriminate.
    + right. split; [reflexivity|].
      destruct (Pos.compare_cont Eq my m) eqn:Ec; try discriminate.
      exact Ec.
    + left. exact Hlt.
Qed.

Lemma lt_infinity y x :
  Prim2SF y = S754_infinity false -> (y <. x) = true -> False.
Proof.
  intros Ey. cbn [num_lt float_number]. rewrite ltb_spec, Ey.
  unfold SFltb, SFcompare.
  destruct (Prim2SF x) as [s|s| |s m e]; try discriminate.
  destruct s; discriminate.
Qed.

Lemma finite_descent lo m0 e0 :
  Prim2SF lo = S754_finite false m0 e0 ->
  forall n k x m e,
    Prim2SF x = S754_finite false m e ->
    Z.to_nat (e - e0) = n -> Pos.to_nat m = k -> Acc (below lo) x.
Proof.
  intros El.
  induction n as [n IHn] using lt_wf_ind.
  induction k as [k IHk] using lt_wf_ind.
  intros x m e Ex Hn Hk. constructor. intros y [Hlo Hlt].
  destruct (@above_positive lo y _ _ El Hlo) as [Ey|(my & ey & Ey & Hey)].
  - destruct (@lt_infinity y x Ey Hlt).
  - destruct (@lt_finite_positive y x _ _ Ey Hlt) as [Ex'|(mx & ex & Ex' & Hcmp)];
      [congruence|].
    rewrite Ex in Ex'. injection Ex' as <- <-.
    destruct Hcmp as [He|[He Hm]].
    + apply (IHn (Z.to_nat (ey - e0))) with (k := Pos.to_nat my) (m := my) (e := ey);
        try reflexivity; [lia|exact Ey].
    + subst ey. apply (IHk (Pos.to_nat my)) with (m := my) (e := e); try assumption.
      * lia.
      * reflexivity.
Qed.

Lemma double_descent lo : (of_Z 0 <. lo) = true -> well_founded (below lo).
Proof.
  intros Hpos x.
  destruct (@positive_double lo Hpos) as [El|(m0 & e0 & El)].
  - constructor. intros y [Hlo Hlt].
    destruct (@lt_infinity y x (@above_infinity lo y El Hlo) Hlt).
  - constructor. intros y [Hlo Hlt].
    destruct (@above_positive lo y _ _ El Hlo) as [Ey|(my & ey & Ey & Hey)].
    + destruct (@lt_infinity y x Ey Hlt).
    + eapply (@finite_descent lo _ _ El); [exact Ey|reflexivity|reflexivity].
Qed.

Section LoopStalls.
Context {N : Type} `{JsNumber N}.
Variables (acc every : t N -> N) (set_acc : N -> t N -> t N) (spawn : t N -> t N).
Hypothesis acc_step : forall v g, acc (spawn (set_acc v g)) = v.
Hypothesis every_step : forall v g, every (spawn (set_acc v g)) = every g.

(** A loop that reaches a value which the subtraction gives back never ends. *)
Lemma spawn_while_stalls (e a : N) :
  (a >=. e) = true -> a -. e = a ->
  forall fuel g, every g = e -> drains e (acc g) a ->
  spawn_while fuel acc every set_acc spawn g = OutOfFuel.
Proof.
  intros Ha Habs. induction fuel as [|fuel IH]; intros g He D.
  - apply drains_first in D. cbn [spawn_while].
    destruct D as [E|[Hge _]]; [rewrite E, He, Ha|rewrite He, Hge]; reflexivity.
  - apply drains_first in D.
    assert (Hge : (acc g >=. every g) = true).
    { destruct D as [E|[Hge _]]; [rewrite E, He; exact Ha|rewrite He; exact Hge]. }
    rewrite spawn_while_enter by exact Hge.
    apply IH; [rewrite every_step; exact He|].
    rewrite acc_step, He.
    destruct D as [E|[_ D]]; [|exact D].
    rewrite E, Habs. apply drains_start.
Qed.

End LoopStalls.

Section LoopDouble.
Variables (acc every : t float -> float) (set_acc : float -> t float -> t float)
          (spawn : t float -> t float).
Hypothesis acc_step : forall v g, acc (spawn (set_acc v g)) = v.
Hypothesis every_step : forall v g, every (spawn (set_acc v g)) = every g.

Lemma spawn_while_progress g :
  (of_Z 0 <. every g) = true -> makes_progress (every g) (acc g) ->
  exists n g', forall fuel, n <= fuel ->
    spawn_while fuel acc every set_acc spawn g = Ok g'.
Proof.
  intros Hpos. remember (every g) as e eqn:He. remember (acc g) as a eqn:Ha.
  revert g He Ha.
  induction (@double_descent e Hpos a) as [a _ IH]. intros g He Ha Hp.
  destruct (acc g >=. every g) eqn:E.
  - set (g1 := spawn (set_acc (acc g -. every g) g)).
    assert (Ha1 : acc g1 = a -. e) by (subst g1 a e; apply acc_step).
    assert (He1 : every g1 = e) by (subst g1 e; apply every_step).
    assert (Hge : (a >=. e) = true) by (subst a e; exact E).
    destruct (acc g1 >=. every g1) eqn:E1.
    + destruct (IH (a -. e)) with (g := g1) as (n & g' & Hn); try congruence.
      * split; [rewrite <- Ha1, <- He1; exact E1|].
        apply Hp; [apply drains_start|exact Hge].
      * apply makes_progress_next; assumption.
      * exists (S n), g'. intros fuel Hfuel. destruct fuel as [|fuel]; [lia|].
        rewrite spawn_while_enter by exact E. apply Hn. lia.
    + exists 1, g1. intros fuel Hfuel. destruct fuel as [|fuel]; [lia|].
      rewrite spawn_while_enter by exact E. apply spawn_while_exit. exact E1.
  - exists 0, g. intros fuel _. apply spawn_while_exit. exact E.
Qed.

End LoopDouble.

Section Accums.
Context {N : Type} `{JsNumber N}.
Variable host : Host N.

(** A spawn loop writes its own accumulator only. *)
Lemma spawn_crops_accums fuel dt (g g' : t N) :
  spawn_crops host fuel dt g = Ok g' ->
  powerUpSpawnEvery g' = powerUpSpawnEvery g /\
  _accumPowerUpSpawn g' = _accumPowerUpSpawn g /\
  crowSpawnEvery g' = crowSpawnEvery g /\ _accumCrowSpawn g' = _accumCrowSpawn g.
Proof.
  unfold spawn_crops.
  apply spawn_while_inv with
    (P := fun g' => powerUpSpawnEvery g' = powerUpSpawnEvery g /\
                    _accumPowerUpSpawn g' = _accumPowerUpSpawn g /\
                    crowSpawnEvery g' = crowSpawnEvery g /\
                    _accumCrowSpawn g' = _accumCrowSpawn g).
  - intros ? ? Hg; exact Hg.
  - repeat split.
Qed.

Lemma spawn_powerUps_accums fuel dt (g g' : t N) :
  spawn_powerUps host fuel dt g = Ok g' ->
  crowSpawnEvery g' = crowSpawnEvery g /\ _accumCrowSpawn g' = _accumCrowSpawn g.
Proof.
  unfold spawn_powerUps.
  apply spawn_while_inv with
    (P := fun g' => crowSpawnEvery g' = crowSpawnEvery g /\
                    _accumCrowSpawn g' = _accumCrowSpawn g).
  - intros ? ? Hg; exact Hg.
  - repeat split.
Qed.

End Accums.

(** In exact arithmetic a positive interval always makes progress. *)
Lemma progress_Q (every a0 : Q) : (0 < every)%Q -> makes_progress every a0.
Proof.
  intros Hpos a _ _. cbn [num_lt num_sub Q_number].
  apply negb_true_iff, not_true_is_false. intros E. apply Qle_bool_iff in E. lra.
Qed.

Section UpdateDouble.
Variable host : Host float.

Lemma spawn_crops_double dt (g : t float) :
  (of_Z 0 <. spawnEvery g) = true ->
  makes_progress (spawnEvery g) (_accumSpawn g +. dt) ->
  exists n g', forall fuel, n <= fuel -> spawn_crops host fuel dt g = Ok g'.
Proof.
  intros Hpos Hp. unfold spawn_crops.
  apply spawn_while_progress; try reflexivity; assumption.
Qed.

Lemma spawn_powerUps_double dt (g : t float) :
  (of_Z 0 <. powerUpSpawnEvery g) = true ->
  makes_progress (powerUpSpawnEvery g) (_accumPowerUpSpawn g +. dt) ->
  exists n g', forall fuel, n <= fuel -> spawn_powerUps host fuel dt g = Ok g'.
Proof.
  intros Hpos Hp. unfold spawn_powerUps.
  apply spawn_while_progress; try reflexivity; assumption.
Qed.

Lemma spawn_crows_double dt (g : t float) :
  (of_Z 0 <. crowSpawnEvery g) = true ->
  makes_progress (crowSpawnEvery g) (_accumCrowSpawn g +. dt) ->
  exists n g', forall fuel, n <= fuel -> spawn_crows host fuel dt g = Ok g'.
Proof.
  intros Hpos Hp. unfold spawn_crows.
  apply spawn_while_progress; try reflexivity; assumption.
Qed.

Lemma before_collect_double dt (g : t float) :
  (of_Z 0 <. spawnEvery g) = true ->
  (of_Z 0 <. powerUpSpawnEvery g) = true ->
  (of_Z 0 <. crowSpawnEvery g) = true ->
  makes_progress (spawnEvery g) (_accumSpawn g +. dt) ->
  makes_progress (powerUpSpawnEvery g) (_accumPowerUpSpawn g +. dt) ->
  makes_progress (crowSpawnEvery g) (_accumCrowSpawn g +. dt) ->
  exists fuel0 g1, forall fuel, fuel0 <= fuel ->
    run_phases host fuel dt before_collect g = Ok g1.
Proof.
  intros H1 H2 H3 P1 P2 P3. unfold before_collect. cbn [run_phases run_phase bind].
  set (ga := update_player host dt (handle_input g)).
  destruct (spawn_crops_double dt ga H1 P1) as (n1 & gb & E1).
  destruct (spawn_crops_accums host n1 dt ga gb (E1 n1 (le_n _))) as (He2 & Ha2 & He3 & Ha3).
  change (powerUpSpawnEvery ga) with (powerUpSpawnEvery g) in He2.
  change (_accumPowerUpSpawn ga) with (_accumPowerUpSpawn g) in Ha2.
  change (crowSpawnEvery ga) with (crowSpawnEvery g) in He3.
  change (_accumCrowSpawn ga) with (_accumCrowSpawn g) in Ha3.
  rewrite <- He2 in H2. rewrite <- He2, <- Ha2 in P2.
  destruct (spawn_powerUps_double dt gb H2 P2) as (n2 & gc & E2).
  destruct (spawn_powerUps_accums host n2 dt gb gc (E2 n2 (le_n _))) as (He3' & Ha3').
  rewrite <- He3, <- He3' in H3. rewrite <- He3, <- Ha3, <- He3', <- Ha3' in P3.
  destruct (spawn_crows_double dt gc H3 P3) as (n3 & gd & E3).
  exists (Nat.max n1 (Nat.max n2 n3)), gd. intros fuel Hfuel.
  rewrite E1 by lia. cbn [bind]. rewrite E2 by lia. cbn [bind].
  rewrite E3 by lia. reflexivity.
Qed.

Lemma update_terminates_double dt (g : t float) :
  (of_Z 0 <. spawnEvery g) = true ->
  (of_Z 0 <. powerUpSpawnEvery g) = true ->
  (of_Z 0 <. crowSpawnEvery g) = true ->
  makes_progress (spawnEvery g) (_accumSpawn g +. dt) ->
  makes_progress (powerUpSpawnEvery g) (_accumPowerUpSpawn g +. dt) ->
  makes_progress (crowSpawnEvery g) (_accumCrowSpawn g +. dt) ->
  exists fuel0 r, r <> OutOfFuel /\
    forall fuel, fuel0 <= fuel -> update host fuel dt g = r.
Proof.
  intros H1 H2 H3 P1 P2 P3.
  destruct (state g) eqn:Hs;
    try (exists 0, (Ok g); split; [discriminate|];
         intros fuel _; unfold update; rewrite Hs; reflexivity).
  destruct (timeLeft (countdown dt g) <=. of_Z 0) eqn:Ht.
  - exists 0, (Ok (set_state GAME_OVER (countdown dt g))). split; [discriminate|].
    intros fuel _. apply update_time_up; assumption.
  - destruct (before_collect_double dt (countdown dt g) H1 H2 H3 P1 P2 P3)
      as (fuel0 & g1 & E).
    exists fuel0, (g2 <- collect_crops host g1 ;; Ok (after_collect_fn host dt g2)).
    split.
    + pose proof (collect_crops_fuel_free host g1) as Hc.
      destruct (collect_crops host g1); cbn [bind]; congruence.
    + intros fuel Hfuel. rewrite update_playing by assumption.
      rewrite (E fuel Hfuel). reflexivity.
Qed.

End UpdateDouble.

Lemma double_zero (x : float) s : Prim2SF x = S754_zero s -> x = if s then (-0)%float else 0%float.
Proof.
  intros E. rewrite <- (SF2Prim_Prim2SF x), E. destruct s; reflexivity.
Qed.

(** At binary64 a loop whose interval is a zero stalls as soon as it is
    entered: subtracting a zero gives the accumulator back, at once or after
    one step from -0 to +0. *)
Lemma zero_interval_stalls (e a : float) :
  (e =. of_Z 0) = true -> (a >=. e) = true -> stalls e a.
Proof.
  cbn [num_eq num_le float_number]. rewrite eqb_spec, leb_spec. unfold SFeqb, SFleb.
  change (Prim2SF (of_Z 0)) with (S754_zero false).
  destruct (Prim2SF e) as [s|s| |s m ex] eqn:Ee; cbn [SFcompare];
    try discriminate; try (destruct s; discriminate).
  intros _.
  destruct (Prim2SF a) as [sa|sa| |sa ma ea] eqn:Ea; cbn [SFcompare]; try discriminate.
  - intros _. apply double_zero in Ee. apply double_zero in Ea. subst e a.
    destruct sa, s;
      first [ exists (-0)%float; split; [apply drains_start|split; vm_compute; reflexivity]
            | exists 0%float; split; [apply drains_start|split; vm_compute; reflexivity]
            | exists ((-0)%float -. (-0)%float); split;
              [apply drains_step; [apply drains_start|vm_compute; reflexivity]
              |split; vm_compute; reflexivity] ].
  - destruct sa; [discriminate|]. intros _.
    exists a. split; [apply drains_start|]. split.
    + cbn [num_le float_number]. rewrite leb_spec, Ee, Ea. reflexivity.
    + apply Prim2SF_inj. cbn [num_sub float_number]. rewrite sub_spec, Ee, Ea. reflexivity.
  - destruct sa; [discriminate|]. intros _.
    exists a. split; [apply drains_start|]. split.
    + cbn [num_le float_number]. rewrite leb_spec, Ee, Ea. reflexivity.
    + apply Prim2SF_inj. cbn [num_sub float_number]. rewrite sub_spec, Ee, Ea. reflexivity.
Qed.

(** *** Rounding keeps the sign *)

Lemma shr_1_nonneg mrs : (0 <= shr_m mrs)%Z -> (0 <= shr_m (shr_1 mrs))%Z.
Proof.
  destruct mrs as [m r s]. cbn [shr_m shr_1].
  destruct m as [|[p|p|]|[p|p|]]; cbn [shr_m]; lia.
Qed.

Lemma iter_shr_1_nonneg p : forall mrs,
  (0 <= shr_m mrs)%Z -> (0 <= shr_m (iter_pos shr_1 p mrs))%Z.
Proof.
  induction p as [p IH|p IH|]; intros mrs Hm; cbn [iter_pos].
  - apply IH, IH, shr_1_nonneg, Hm.
  - apply IH, IH, Hm.
  - apply shr_1_nonneg, Hm.
Qed.

Lemma shr_fexp_nonneg m e l :
  (0 <= m)%Z -> (0 <= shr_m (fst (shr_fexp prec emax m e l)))%Z.
Proof.
  intros Hm. unfold shr_fexp, shr.
  assert (H0 : (0 <= shr_m (shr_record_of_loc m l))%Z)
    by (destruct l as [|[| |]]; exact Hm).
  destruct (_ - e)%Z; cbn [fst]; [exact H0|apply iter_shr_1_nonneg, H0|exact H0].
Qed.

Lemma round_nearest_even_nonneg m l : (0 <= m)%Z -> (0 <= round_nearest_even m l)%Z.
Proof.
  intros Hm. destruct l as [|[| |]]; cbn [round_nearest_even]; try lia.
  destruct (Z.even m); lia.
Qed.

Lemma binary_round_aux_sign mx ex lx :
  (0 <= mx)%Z -> not_negative (binary_round_aux prec emax false mx ex lx) = true.
Proof.
  intros Hm. unfold binary_round_aux.
  pose proof (shr_fexp_nonneg mx ex lx Hm) as H1.
  destruct (shr_fexp prec emax mx ex lx) as [mrs1 e1]. cbn [fst] in H1.
  pose proof (shr_fexp_nonneg _ e1 loc_Exact
                (round_nearest_even_nonneg _ (loc_of_shr_record mrs1) H1)) as H2.
  destruct (shr_fexp prec emax _ e1 loc_Exact) as [mrs2 e2]. cbn [fst] in H2.
  destruct (shr_m mrs2); [reflexivity|destruct (Z.leb _ _); reflexivity|lia].
Qed.

Lemma binary_normalize_sign z e :
  (0 <= z)%Z -> not_negative (binary_normalize prec emax z e false) = true.
Proof.
  intros Hz. destruct z as [|m|m]; [reflexivity| |lia].
  cbn [binary_normalize]. unfold binary_round.
  destruct (shl_align m e _) as [mz ez]. apply binary_round_aux_sign. lia.
Qed.

(** *** Valid doubles: the mantissa against the exponent *)

Lemma digits2_bounds m :
  (2 ^ (Zpos (digits2_pos m) - 1) <= Zpos m < 2 ^ Zpos (digits2_pos m))%Z.
Proof.
  induction m as [m IH|m IH|]; cbn [digits2_pos].
  - rewrite Pos2Z.inj_succ.
    replace (Z.succ (Zpos (digits2_pos m)) - 1)%Z with (Z.succ (Zpos (digits2_pos m) - 1))%Z by lia.
    rewrite !Z.pow_succ_r by lia. lia.
  - rewrite Pos2Z.inj_succ.
    replace (Z.succ (Zpos (digits2_pos m)) - 1)%Z with (Z.succ (Zpos (digits2_pos m) - 1))%Z by lia.
    rewrite !Z.pow_succ_r by lia. lia.
  - cbn. lia.
Qed.

Lemma valid_finite s m e :
  valid_binary (S754_finite s m e) = true ->
  (Zpos m < 2 ^ 53)%Z /\ (-1074 <= e)%Z /\ ((-1074 < e)%Z -> (2 ^ 52 <= Zpos m)%Z).
Proof.
  unfold valid_binary, bounded, canonical_mantissa, fexp, emin.
  change prec with 53%Z. change emax with 1024%Z.
  intros H. apply andb_prop in H as [H _]. apply Z.eqb_eq in H.
  pose proof (digits2_bounds m) as [Hlo Hhi].
  set (d := Zpos (digits2_pos m)) in H, Hlo, Hhi.
  assert (Hd : (0 < d)%Z) by (subst d; lia).
  split; [|split].
  - eapply Z.lt_le_trans; [exact Hhi|]. apply Z.pow_le_mono_r; lia.
  - lia.
  - intros He. assert (Ed : d = 53%Z) by lia. rewrite Ed in Hlo. exact Hlo.
Qed.

Lemma iter_xO_value m d : Zpos (Pos.iter xO m d) = (Zpos m * 2 ^ Zpos d)%Z.
Proof.
  rewrite (Pos.iter_swap_gen _ _ Zpos xO (Z.mul 2)) by reflexivity.
  change (Pos.iter (Z.mul 2) (Zpos m) d) with (Z.shiftl (Zpos m) (Zpos d)).
  apply Z.shiftl_mul_pow2. lia.
Qed.

Lemma shl_align_value mx ex ez :
  (ez <= ex)%Z -> Zpos (fst (shl_align mx ex ez)) = (Zpos mx * 2 ^ (ex - ez))%Z.
Proof.
  intros Hle. unfold shl_align.
  destruct (ez - ex)%Z as [|d|d] eqn:E; cbn [fst].
  - replace (ex - ez)%Z with 0%Z by lia. lia.
  - lia.
  - rewrite iter_xO_value. replace (ex - ez)%Z with (Zpos d) by lia. reflexivity.
Qed.

(** *** Subtracting a negative double *)

Lemma sub_negative_sign (x y : spec_float) :
  valid_binary x = true -> valid_binary y = true ->
  SFltb y (S754_zero false) = true -> SFleb y x = true ->
  x <> S754_infinity true ->
  not_negative (SFsub prec emax x y) = true.
Proof.
  intros Vx Vy Hy Hle Hx.
  destruct y as [sy|sy| |sy my ey]; cbn in Hy; try discriminate;
    destruct sy; try discriminate.
  - (* y is -infinity *)
    destruct x as [sx|sx| |sx mx ex]; cbn in Hle |- *; try discriminate; try reflexivity.
    destruct sx; [contradiction Hx; reflexivity|reflexivity].
  - (* y is negative and finite *)
    destruct x as [sx|sx| |sx mx ex]; try discriminate.
    + reflexivity.
    + destruct sx; [contradiction Hx; reflexivity|reflexivity].
    + unfold SFsub. cbv zeta. apply binary_normalize_sign.
      set (ez := Z.min ex ey).
      rewrite !shl_align_value by (subst ez; lia).
      destruct sx; cbn [cond_Zopp].
      * (* both negative: the order of the doubles is the order of the values *)
        apply valid_finite in Vx as (Hmx & Hex & _).
        apply valid_finite in Vy as (_ & _ & Hmy).
        unfold SFleb in Hle. cbn [SFcompare] in Hle.
        assert (Hc : (ex < ey)%Z \/ (ex = ey /\ (Zpos mx <= Zpos my)%Z)).
        { destruct (Z.compare_spec ey ex) as [->|Hlt|Hgt]; try discriminate.
          - right. split; [reflexivity|].
            change (PosDef.Pos.compare_cont Eq my mx) with (Pos.compare my mx) in Hle.
            destruct (Pos.compare_spec my mx) as [->|Hl|Hg]; cbn [CompOpp] in Hle;
              try discriminate; lia.
          - left. lia. }
        destruct Hc as [Hlt|[-> Hm]].
        -- subst ez. rewrite Z.min_l by lia.
           replace (ex - ex)%Z with 0%Z by lia.
           assert (Hp : (2 ^ 1 <= 2 ^ (ey - ex))%Z) by (apply Z.pow_le_mono_r; lia).
           specialize (Hmy ltac:(lia)).
           change (2 ^ 0)%Z with 1%Z. change (2 ^ 1)%Z with 2%Z in Hp.
           change (2 ^ 53)%Z with (2 * 2 ^ 52)%Z in Hmx. nia.
        -- subst ez. rewrite Z.min_id.
           replace (ey - ey)%Z with 0%Z by lia. change (2 ^ 0)%Z with 1%Z. lia.
      * assert (H1 : (0 <= 2 ^ (ex - ez))%Z) by (apply Z.pow_nonneg; lia).
        assert (H2 : (0 <= 2 ^ (ey - ez))%Z) by (apply Z.pow_nonneg; lia).
        nia.
Qed.

Lemma not_negative_above (b e : spec_float) :
  not_negative b = true -> SFltb e (S754_zero false) = true ->
  SFleb e b = true /\ b <> S754_infinity true.
Proof.
  intros Hb He.
  destruct e as [se|se| |se me ee]; cbn in He; try discriminate;
    destruct se; try discriminate;
    destruct b as [sb|sb| |sb mb eb]; cbn in Hb; try discriminate;
    try (destruct sb; try discriminate); split; try reflexivity; discriminate.
Qed.

Section LoopNegative.
Variables (acc every : t float -> float) (set_acc : float -> t float -> t float)
          (spawn : t float -> t float).
Hypothesis acc_step : forall v g, acc (spawn (set_acc v g)) = v.
Hypothesis every_step : forall v g, every (spawn (set_acc v g)) = every g.

Lemma spawn_while_negative (e : float) :
  (e <. of_Z 0) = true ->
  forall fuel g, every g = e ->
    (acc g >=. e) = true -> Prim2SF (acc g) <> S754_infinity true ->
    spawn_while fuel acc every set_acc spawn g = OutOfFuel.
Proof.
  intros He. induction fuel as [|fuel IH]; intros g Eg Hge Hinf.
  - cbn [spawn_while]. rewrite Eg, Hge. reflexivity.
  - rewrite spawn_while_enter by (rewrite Eg; exact Hge).
    assert (Hs : not_negative (Prim2SF (acc g -. e)) = true).
    { cbn [num_sub float_number]. rewrite sub_spec.
      apply sub_negative_sign; try apply Prim2SF_valid; try assumption.
      - cbn [num_lt float_number] in He. rewrite ltb_spec in He. exact He.
      - cbn [num_le float_number] in Hge. rewrite leb_spec in Hge. exact Hge. }
    assert (He' : SFltb (Prim2SF e) (S754_zero false) = true).
    { cbn [num_lt float_number] in He. rewrite ltb_spec in He. exact He. }
    destruct (not_negative_above _ _ Hs He') as [Hge' Hinf'].
    apply IH.
    + rewrite every_step. exact Eg.
    + rewrite acc_step, Eg. cbn [num_le float_number]. rewrite leb_spec. exact Hge'.
    + rewrite acc_step, Eg. exact Hinf'.
Qed.

End LoopNegative.

Lemma isFinite_spec x :
  isFinite x = true ->
  (exists s, Prim2SF x = S754_zero s) \/ (exists s m e, Prim2SF x = S754_finite s m e).
Proof.
  unfold isFinite. rewrite ltb_spec, abs_spec.
  change (Prim2SF infinity) with (S754_infinity false).
  destruct (Prim2SF x) as [s|s| |s m e]; cbn; try discriminate; eauto.
Qed.

Lemma isFinite_not_infinity a s : isFinite a = true -> Prim2SF a <> S754_infinity s.
Proof.
  intros H E. destruct (isFinite_spec a H) as [(s' & E')|(s' & m & e & E')];
    rewrite E in E'; discriminate.
Qed.

Lemma stalls_never_ends {N} `{JsNumber N} (every a0 : N) :
  stalls every a0 -> never_ends every a0.
Proof.
  intros (a & D & Hge & Habs) acc every' set_acc spawn Hacc Hev fuel g Ea Ee.
  apply (@spawn_while_stalls N _ acc every' set_acc spawn Hacc Hev every a Hge Habs);
    [exact Ee|rewrite Ea; exact D].
Qed.

(** At binary64 a loop whose interval is zero or negative never ends once it
    is entered with a finite accumulator. *)
Lemma nonpositive_never_ends (e a : float) :
  (e <=. of_Z 0) = true -> (a >=. e) = true -> isFinite a = true -> never_ends e a.
Proof.
  intros He Hge Hfin.
  assert (Hc : (e <. of_Z 0) = true \/ (e =. of_Z 0) = true).
  { revert He. cbn [num_le num_lt num_eq float_number].
    rewrite leb_spec, ltb_spec, eqb_spec. unfold SFleb, SFltb, SFeqb.
    destruct (SFcompare (Prim2SF e) (Prim2SF (of_Z 0))) as [[| |]|];
      try discriminate; auto. }
  destruct Hc as [Hneg|Hz].
  - intros acc every' set_acc spawn Hacc Hev fuel g Ea Ee.
    apply (@spawn_while_negative acc every' set_acc spawn Hacc Hev e Hneg);
      [exact Ee|rewrite Ea; exact Hge|rewrite Ea; apply isFinite_not_infinity, Hfin].
  - apply stalls_never_ends, zero_interval_stalls; assumption.
Qed.

Section Never.
Context {N : Type} `{JsNumber N}.
Variable host : Host N.

(** A frame never ends when one of its three loops never ends. *)
Lemma update_never_ends dt (g : t N) :
  state g = PLAYING ->
  (timeLeft (countdown dt g) <=. of_Z 0) = false ->
  never_ends (spawnEvery g) (_accumSpawn g +. dt) \/
  never_ends (powerUpSpawnEvery g) (_accumPowerUpSpawn g +. dt) \/
  never_ends (crowSpawnEvery g) (_accumCrowSpawn g +. dt) ->
  diverges (fun fuel => update host fuel dt g).
Proof.
  intros Hs Ht Hbad fuel. rewrite (update_playing host fuel _ _ Hs Ht).
  unfold before_collect. cbn [run_phases run_phase bind].
  set (ga := update_player host dt (handle_input (countdown dt g))).
  destruct Hbad as [Hn|[Hn|Hn]].
  - unfold spawn_crops.
    rewrite (Hn (@_accumSpawn N) (@spawnEvery N) set_accumSpawn (spawnCrop host)
                (fun _ _ => eq_refl) (fun _ _ => eq_refl)); reflexivity.
  - destruct (spawn_crops host fuel dt ga) as [gb| |] eqn:E1; cbn [bind];
      [|exfalso; exact (spawn_while_no_throw _ _ _ _ _ _ E1)|reflexivity].
    apply spawn_crops_accums in E1 as (He & Ha & _).
    unfold spawn_powerUps.
    rewrite (Hn (@_accumPowerUpSpawn N) (@powerUpSpawnEvery N)
                set_accumPowerUpSpawn (spawnPowerUp host)
                (fun _ _ => eq_refl) (fun _ _ => eq_refl)); [reflexivity| |].
    + cbn [_accumPowerUpSpawn set_accumPowerUpSpawn]. rewrite Ha. reflexivity.
    + change (powerUpSpawnEvery gb = powerUpSpawnEvery g). rewrite He. reflexivity.
  - destruct (spawn_crops host fuel dt ga) as [gb| |] eqn:E1; cbn [bind];
      [|exfalso; exact (spawn_while_no_throw _ _ _ _ _ _ E1)|reflexivity].
    apply spawn_crops_accums in E1 as (_ & _ & He & Ha).
    destruct (spawn_powerUps host fuel dt gb) as [gc| |] eqn:E2; cbn [bind];
      [|exfalso; exact (spawn_while_no_throw _ _ _ _ _ _ E2)|reflexivity].
    apply spawn_powerUps_accums in E2 as (He' & Ha').
    unfold spawn_crows.
    rewrite (Hn (@_accumCrowSpawn N) (@crowSpawnEvery N)
                set_accumCrowSpawn (spawnCrow host)
                (fun _ _ => eq_refl) (fun _ _ => eq_refl)); [reflexivity| |].
    + cbn [_accumCrowSpawn set_accumCrowSpawn]. rewrite Ha', Ha. reflexivity.
    + change (crowSpawnEvery gc = crowSpawnEvery g). rewrite He', He. reflexivity.
Qed.

End Never.

(** ** The crow check is the last thing a frame does *)

Section Penalty.
Context {N : Type} `{JsNumber N}.
Variable host : Host N.

Lemma run_before_penalty fuel dt (g : t N) :
  run_phases host fuel dt before_penalty g =
    (g1 <- run_phases host fuel dt before_collect g ;;
     g2 <- collect_crops host g1 ;;
     Ok (crows_moved host dt g2)).
Proof.
  unfold before_penalty, before_collect. cbn [run_phases run_phase bind].
  destruct (spawn_crops host fuel dt _); cbn [bind]; try reflexivity.
  destruct (spawn_powerUps host fuel dt _); cbn [bind]; try reflexivity.
  destruct (spawn_crows host fuel dt _); cbn [bind]; try reflexivity.
Qed.

(** A playing frame whose time has not run out is the phases before the crow
    check, then the crow check and the purge of the crows. *)
Lemma update_penalty_last fuel dt (g g' : t N) :
  state g = PLAYING ->
  (timeLeft (countdown dt g) <=. of_Z 0) = false ->
  update host fuel dt g = Ok g' ->
  exists g1 g2,
    run_phases host fuel dt before_collect (countdown dt g) = Ok g1 /\
    collect_crops host g1 = Ok g2 /\
    run_phases host fuel dt before_penalty (countdown dt g) = Ok (crows_moved host dt g2) /\
    g' = purge_crows (hit_crows (crows_moved host dt g2)).
Proof.
  intros Hs Ht E.
  destruct (update_playing_cut host fuel dt g g' Hs Ht E) as (g1 & g2 & E1 & E2 & ->).
  exists g1, g2. split; [exact E1|]. split; [exact E2|]. split.
  - rewrite run_before_penalty, E1. cbn [bind]. rewrite E2. reflexivity.
  - apply after_collect_split.
Qed.

End Penalty.

(** ** A level that the configuration lacks *)

Lemma advanceLevel_missing {N} `{JsNumber N} (host : Host N) (g : t N) :
  level g < 3 -> level_config (config g) (level g) = Throws ->
  advanceLevel host g = Throws.
Proof.
  intros Hl Hc. unfold advanceLevel.
  destruct (Nat.leb_spec 3 (level g)) as [Hge|_]; [lia|].
  cbv zeta.
  replace (level (set_level (S (level g)) g) - 1) with (level g)
    by (cbn [level set_level]; lia).
  change (config (set_level (S (level g)) g)) with (config g).
  rewrite Hc. reflexivity.
Qed.

(** * The claims *)

(** C1.  In a playing frame whose countdown leaves [timeLeft] at or below
    zero, the state becomes [GAME_OVER] whatever the score is, and nothing
    else of the frame runs: the player, the entity lists, the score, the
    spawn accumulators and the random cursor are those of the frame's start.
    This holds over every number instance; over exact rationals the countdown
    leaves [timeLeft] at or below zero as soon as [timeLeft - dt <= 0]. *)
Theorem C1_time_up_ends_the_game :
  (forall N (num : JsNumber N) (host : Host N) fuel dt (g : t N),
      state g = PLAYING ->
      (timeLeft (countdown dt g) <=. of_Z 0) = true ->
      time_up_result dt g (update host fuel dt g)) /\
  (forall (host : Host Q) fuel dt (g : t Q),
      state g = PLAYING ->
      (timeLeft g - dt <= 0)%Q ->
      time_up_result dt g (update host fuel dt g)).
Proof.
  split.
  - intros N num host fuel dt g Hs Ht. apply time_up_frame; assumption.
  - intros host fuel dt g Hs Ht. apply time_up_frame; [exact Hs|].
    apply countdown_expires_Q, Ht.
Qed.

Lemma C1_witness :
  (score late_game >=. goal late_game) = true /\
  exists g', update demo_host 1 (dec 33 3) late_game = Ok g' /\ state g' = GAME_OVER.
Proof.
  split; [vm_compute; reflexivity|].
  assert (Hs : state late_game = PLAYING) by (vm_compute; reflexivity).
  assert (Ht : (timeLeft (countdown (dec 33 3) late_game) <=. of_Z 0) = true)
    by (vm_compute; reflexivity).
  destruct (proj1 C1_time_up_ends_the_game float _ demo_host 1 (dec 33 3) late_game Hs Ht)
    as (g' & E & Hg & _).
  exists g'. split; assumption.
Defined.

(** C2, amended.  The goal check is made only in a frame that collects at
    least one crop, right after the points are added.  If the score then
    reaches the cumulative goal and the level is below 3: when the
    configuration has an entry for the next level, the level grows by one,
    [timeLeft] is the new level's time limit, the three accumulators are 0,
    the crop, power-up and crow lists are empty, the obstacle list has the
    new level's scarecrow count and the new level's goal is added to the
    cumulative goal; when the configuration has no such entry, the frame
    throws.  At level 3 the state becomes [WIN].  A frame that collects no
    crop keeps level, state and goal, whatever the score.  In every frame
    the level stays or grows by exactly one, and never passes 3. *)
Theorem C2_level_advance_on_collection :
  (forall N (num : JsNumber N) (host : Host N) fuel dt (g g1 : t N) c rest,
      state g = PLAYING ->
      (timeLeft (countdown dt g) <=. of_Z 0) = false ->
      run_phases host fuel dt before_collect (countdown dt g) = Ok g1 ->
      filter (touches_crop g1) (crops g1) = c :: rest ->
      (score g +. addedPoints (c :: rest) >=. goal g) = true ->
      (forall lc, level g < 3 -> level_config (config g) (level g) = Ok lc ->
         exists g', update host fuel dt g = Ok g' /\ advanced lc g g' /\
                    score g' = score g +. addedPoints (c :: rest)) /\
      (level g < 3 -> level_config (config g) (level g) = Throws ->
         update host fuel dt g = Throws) /\
      (3 <= level g ->
         exists g', update host fuel dt g = Ok g' /\ state g' = WIN /\ level g' = level g))
  /\
  (forall N (num : JsNumber N) (host : Host N) fuel dt (g g1 : t N),
      state g = PLAYING ->
      (timeLeft (countdown dt g) <=. of_Z 0) = false ->
      run_phases host fuel dt before_collect (countdown dt g) = Ok g1 ->
      filter (touches_crop g1) (crops g1) = [] ->
      exists g', update host fuel dt g = Ok g' /\
                 level g' = level g /\ state g' = PLAYING /\ goal g' = goal g)
  /\
  (forall N (num : JsNumber N) (host : Host N) fuel dt (g g' : t N),
      update host fuel dt g = Ok g' ->
      (level g' = level g \/ (level g < 3 /\ level g' = S (level g))) /\
      level g <= level g' /\ (level g <= 3 -> level g' <= 3)).
Proof.
  split; [|split; [intros N num; apply update_without_collection|]].
  - intros N num host fuel dt g g1 c rest Hs Ht Hpre Hcol Hgoal.
    assert (Hsame := Hpre). apply before_collect_same_run in Hsame.
    destruct Hsame as (Hst & Hlv & Hcf & Hrq & _ & _ & Hsc & Hgl & _).
    cbn [state level config requiredScore score goal countdown set_timeLeft] in Hst, Hlv, Hcf, Hrq, Hsc, Hgl.
    rewrite update_playing by assumption. rewrite Hpre. cbn [bind].
    rewrite (collect_crops_scored host g1 _ _ Hcol). cbv zeta.
    cbn [score goal level set_score set_crops].
    rewrite Hsc, Hgl, Hgoal, Hlv.
    split; [|split].
    + intros lc Hl Hc.
      assert (Hl' : Nat.ltb (level g) 3 = true) by (apply Nat.ltb_lt; exact Hl).
      rewrite Hl'.
      match goal with |- context [advanceLevel host ?gs] =>
        destruct (@advanceLevel_advances N num host gs lc) as (g2 & E2 & Hadv)
      end.
      * cbn [level set_score set_crops]. rewrite Hlv. exact Hl.
      * cbn [config level set_score set_crops]. rewrite Hcf, Hlv. exact Hc.
      * rewrite E2. cbn [bind].
        destruct Hadv as (A1 & A2 & A3 & A4 & A5 & A6 & A7 & A8 & A9 & A10 & A11 & A12 & A13 & A14 & A15 & A16).
        rewrite (after_collect_empty host dt g2 A8 A9 A10).
        exists g2. split; [reflexivity|].
        cbn [state level requiredScore set_score set_crops] in A1, A2, A14, A15.
        rewrite Hst in A1. rewrite Hlv in A2. rewrite Hrq in A14, A15.
        split.
        -- unfold advanced. repeat split; assumption.
        -- (* the score is not touched by [advanceLevel] *)
           revert E2. unfold advanceLevel.
           destruct (Nat.leb 3 _); [intros [= <-]; reflexivity|].
           intros E2. apply bind_Ok in E2 as (lc' & _ & E2). injection E2 as <-.
           apply place_scarecrows_inv; [intros ? ? ? Hg; exact Hg|].
           reflexivity.
    + intros Hl Hc.
      assert (Hl' : Nat.ltb (level g) 3 = true) by (apply Nat.ltb_lt; exact Hl).
      rewrite Hl'.
      match goal with |- context [advanceLevel host ?gs] =>
        rewrite (@advanceLevel_missing N num host gs)
      end.
      * reflexivity.
      * cbn [level set_score set_crops]. rewrite Hlv. exact Hl.
      * cbn [config level set_score set_crops]. rewrite Hcf, Hlv. exact Hc.
    + intros Hl.
      assert (Hl' : Nat.ltb (level g) 3 = false) by (apply Nat.ltb_ge; exact Hl).
      rewrite Hl'. cbn [bind]. eexists. split; [reflexivity|].
      match goal with |- context [after_collect_fn host dt ?gs] =>
        destruct (after_collect_state_level host dt gs) as [-> ->]
      end.
      cbn. auto.
  - intros N num host fuel dt g g' E.
    apply update_level in E. split; [exact E|].
    destruct E as [->|[Hl ->]]; lia.
Qed.

Lemma C2_witness :
  exists g',
    update demo_host 1 (dec 33 3) wheat_under_player = Ok g' /\
    level g' = 2 /\ goal g' = of_Z 15 +. of_Z 20 /\ timeLeft g' = of_Z 55 /\
    List.length (obstacles g') = 3 /\ score g' = of_Z 14 +. (of_Z 0 +. of_Z 1).
Proof.
  pose (lc := LevelConfig.make (of_Z 20 : float) (of_Z 55) (dec 6 1) (of_Z 4) (of_Z 8) 3).
  pose (g1 := unwrap (run_phases demo_host 1 (dec 33 3) before_collect
                        (countdown (dec 33 3) wheat_under_player)) new).
  pose (c := Crop.new (of_Z 440 : float) (of_Z 460) Crop.wheat (dec 5 1)).
  assert (H1 : state wheat_under_player = PLAYING) by (vm_compute; reflexivity).
  assert (H2 : (timeLeft (countdown (dec 33 3) wheat_under_player) <=. of_Z 0) = false)
    by (vm_compute; reflexivity).
  assert (H3 : run_phases demo_host 1 (dec 33 3) before_collect
                 (countdown (dec 33 3) wheat_under_player) = Ok g1)
    by (vm_compute; reflexivity).
  assert (H4 : filter (touches_crop g1) (crops g1) = [c]) by (vm_compute; reflexivity).
  assert (H5 : (score wheat_under_player +. addedPoints [c] >=. goal wheat_under_player) = true)
    by (vm_compute; reflexivity).
  assert (H6 : level wheat_under_player < 3) by (vm_compute; lia).
  assert (H7 : level_config (config wheat_under_player) (level wheat_under_player) = Ok lc)
    by (vm_compute; reflexivity).
  destruct (proj1 C2_level_advance_on_collection float _ demo_host 1 (dec 33 3)
              wheat_under_player g1 c [] H1 H2 H3 H4 H5) as [Hadv _].
  destruct (Hadv lc H6 H7) as (g' & E & Ha & Hsc).
  destruct Ha as (_ & Hl & Ht & _ & _ & _ & _ & _ & _ & _ & _ & _ & _ & _ & Hg & Ho).
  exists g'. split; [exact E|].
  split; [rewrite Hl; vm_compute; reflexivity|].
  split; [rewrite Hg; vm_compute; reflexivity|].
  split; [rewrite Ht; vm_compute; reflexivity|].
  split; [rewrite Ho; vm_compute; reflexivity|].
  rewrite Hsc. vm_compute. reflexivity.
Defined.

(** C2 as written fails: after seven idle seconds and a walk into a pile of
    eight golden apples, one batch takes the score from 0 to 40, past the goal
    of level 1 (15) and of level 2 (35).  In the next frame the game is
    playing at level 2 with score 40 and goal 35, no crop is collected, and
    the level stays 2. *)
Lemma C2_counterexample :
  ticks demo_host 1 (frames 180 0) started = Ok stacked /\
  ticks demo_host 1 (frames 37 180) (onKeyDown "ArrowRight" stacked) = Ok jumped /\
  state jumped = PLAYING /\ level jumped = 2 /\
  score jumped = of_Z 40 /\ goal jumped = of_Z 35 /\
  (exists g', update demo_host 1 (dec 33 3) jumped = Ok g' /\
              state g' = PLAYING /\ level g' = 2 /\
              score g' = of_Z 40 /\ goal g' = of_Z 35) /\
  ~ goal_checked_every_frame.
Proof.
  pose (g' := unwrap (update demo_host 1 (dec 33 3) jumped) new).
  assert (E : update demo_host 1 (dec 33 3) jumped = Ok g') by (vm_compute; reflexivity).
  assert (Hl : level g' = 2) by (vm_compute; reflexivity).
  split; [vm_compute; reflexivity|].
  split; [vm_compute; reflexivity|].
  split; [vm_compute; reflexivity|].
  split; [vm_compute; reflexivity|].
  split; [vm_compute; reflexivity|].
  split; [vm_compute; reflexivity|].
  split.
  - exists g'. split; [exact E|].
    split; [vm_compute; reflexivity|].
    split; [exact Hl|].
    split; vm_compute; reflexivity.
  - intros Hclaim.
    assert (H1 : state jumped = PLAYING) by (vm_compute; reflexivity).
    assert (H2 : (timeLeft (countdown (dec 33 3) jumped) <=. of_Z 0) = false)
      by (vm_compute; reflexivity).
    assert (H3 : (score jumped >=. goal jumped) = true) by (vm_compute; reflexivity).
    assert (H4 : level jumped = 2) by (vm_compute; reflexivity).
    destruct (Hclaim demo_host 1 (dec 33 3) jumped g' H1 H2 H3 E) as [Hadv _].
    rewrite H4, Hl in Hadv. specialize (Hadv (le_n 3)).
    discriminate Hadv.
Qed.

(** C3, amended.  The collision steps are interleaved with the entity
    updates, class by class: crops are collected, purged and then updated;
    power-ups are collected, purged and then updated; crows are updated, then
    hit, then purged.  Every phase runs once per frame.  Each purge follows
    its own class's collision step, and the frame leaves the same state as if
    the three purges ran together at the very end. *)
Theorem C3_collisions_interleaved_purges_commute :
  frame_phases =
    before_collect ++
    [ CollectCrops; PurgeCrops; UpdateCrops;
      CollectPowerUps; PurgePowerUps; UpdatePowerUps;
      UpdateCrows; HitCrows; PurgeCrows ] /\
  NoDup frame_phases /\
  (forall N (num : JsNumber N) (host : Host N) fuel dt (g : t N),
      run_phases host fuel dt frame_phases g
      = run_phases host fuel dt deferred_purge_phases g) /\
  (forall N (num : JsNumber N) (host : Host N) fuel dt (g : t N),
      state g = PLAYING ->
      (timeLeft (countdown dt g) <=. of_Z 0) = false ->
      update host fuel dt g
      = run_phases host fuel dt deferred_purge_phases (countdown dt g)).
Proof.
  split; [reflexivity|]. split.
  - unfold frame_phases.
    repeat (constructor; [cbn; intuition discriminate|]). constructor.
  - split.
    + intros N num host fuel dt g. apply frame_deferred_purge.
    + intros N num host fuel dt g Hs Ht. rewrite <- frame_deferred_purge.
      unfold update. rewrite Hs, Ht. reflexivity.
Qed.

Lemma C3_witness :
  update demo_host 1 (dec 33 3) crop_and_powerUp
  = run_phases demo_host 1 (dec 33 3) deferred_purge_phases
               (countdown (dec 33 3) crop_and_powerUp).
Proof.
  assert (Hs : state crop_and_powerUp = PLAYING) by (vm_compute; reflexivity).
  assert (Ht : (timeLeft (countdown (dec 33 3) crop_and_powerUp) <=. of_Z 0) = false)
    by (vm_compute; reflexivity).
  exact (proj2 (proj2 (proj2 C3_collisions_interleaved_purges_commute))
           float _ demo_host 1 (dec 33 3) crop_and_powerUp Hs Ht).
Defined.

(** C3 as written fails: [UpdateCrops] runs after [CollectCrops], and
    [PurgeCrops] runs before [CollectPowerUps].  With a wheat and a power-up
    both under the player, the frame's first seven phases end with the wheat
    already purged while the power-up is still alive, unmarked and under the
    player. *)
Lemma C3_counterexample :
  ~ collisions_after_updates_purges_last /\
  firstn 7 frame_phases =
    [ HandleInput; UpdatePlayer; SpawnCrops; SpawnPowerUps; SpawnCrows;
      CollectCrops; PurgeCrops ] /\
  exists g' p,
    run_phases demo_host 1 (dec 33 3) (firstn 7 frame_phases)
               (countdown (dec 33 3) crop_and_powerUp) = Ok g' /\
    List.length (crops crop_and_powerUp) = 1 /\ crops g' = [] /\
    powerUps g' = [p] /\ PowerUp.dead p = false /\ touches_powerUp g' p = true.
Proof.
  split.
  - intros [H1 _]. vm_compute in H1. discriminate H1.
  - split; [reflexivity|].
    exists (unwrap (run_phases demo_host 1 (dec 33 3) (firstn 7 frame_phases)
                      (countdown (dec 33 3) crop_and_powerUp)) new),
           (PowerUp.new (of_Z 440) (of_Z 465) (dec 5 1)).
    split; [vm_compute; reflexivity|].
    split; [vm_compute; reflexivity|].
    split; [vm_compute; reflexivity|].
    split; [vm_compute; reflexivity|].
    split; vm_compute; reflexivity.
Qed.

(** C4.  Every playing frame whose time has not run out ends with the crow
    check, made on the game [gm] that the earlier phases of that same frame
    have produced (crows moved, crops already counted): the frame's result is
    [gm] after the check and the purge of the crows.  With [count] the number
    of crows of [gm] whose box intersects the player's, the score after the
    frame is the score of [gm] when [count] is 0 and
    [Math.max(0, score - 2 * count)] otherwise; the crows left are exactly the
    live crows of [gm] that did not touch the player; [gm] has the score the
    frame started with when the frame collects no crop.  Over exact
    rationals, for a score that is not negative, this is
    [max 0 (score - 2 * count)] in both cases, so the score is never
    negative, and two crows at score 3 give 0. *)
Theorem C4_crow_penalty_floored :
  (forall N (num : JsNumber N) (host : Host N) fuel dt (g g' : t N),
      state g = PLAYING ->
      (timeLeft (countdown dt g) <=. of_Z 0) = false ->
      update host fuel dt g = Ok g' ->
      exists gm,
        run_phases host fuel dt before_penalty (countdown dt g) = Ok gm /\
        g' = purge_crows (hit_crows gm) /\
        (crows_hit gm = 0 -> score g' = score gm) /\
        (0 < crows_hit gm ->
           score g' = Math_max (of_Z 0) (score gm -. of_Z 2 *. of_nat (crows_hit gm))) /\
        (forall c, In c (crows g') <->
                   In c (crows gm) /\ touches_crow gm c = false /\ Crow.dead c = false) /\
        (forall g1, run_phases host fuel dt before_collect (countdown dt g) = Ok g1 ->
                    filter (touches_crop g1) (crops g1) = [] -> score gm = score g))
  /\
  (forall host fuel dt (g g' gm : t Q),
      state g = PLAYING ->
      (timeLeft (countdown dt g) <=. of_Z 0) = false ->
      (0 <= score g)%Q ->
      update host fuel dt g = Ok g' ->
      run_phases host fuel dt before_penalty (countdown dt g) = Ok gm ->
      (0 <= score gm)%Q /\
      (score g' == Qmax 0 (score gm - 2 * inject_Z (Z.of_nat (crows_hit gm))))%Q /\
      (0 <= score g')%Q /\
      (forall c, In c (crows g') -> touches_crow g' c = false) /\
      (crows_hit gm = 2 -> (score gm == 3)%Q -> (score g' == 0)%Q))
  /\
  (forall host fuel dt (g g' : t Q),
      (0 <= score g)%Q -> update host fuel dt g = Ok g' -> (0 <= score g')%Q)
  /\
  (forall g : t Q,
      (0 <= score g)%Q ->
      let g' := purge_crows (hit_crows g) in
      (score g' == Qmax 0 (score g - 2 * inject_Z (Z.of_nat (crows_hit g))))%Q /\
      (0 <= score g')%Q).
Proof.
  split; [|split; [|split]].
  - intros N num host fuel dt g g' Hst Ht E.
    destruct (update_penalty_last host fuel dt g g' Hst Ht E)
      as (g1 & g2 & E1 & E2 & Em & ->).
    exists (crows_moved host dt g2). split; [exact Em|]. split; [reflexivity|].
    rewrite purge_crows_score.
    destruct (hit_crows_cases (crows_moved host dt g2)) as [H0 Hpos].
    split; [intros Hc; unfold crows_hit in Hc; rewrite (H0 Hc); reflexivity|].
    split; [exact Hpos|].
    split; [intros c; apply purge_hit_crows_spec|].
    intros g1' E1' Hnil. rewrite E1 in E1'. injection E1' as <-.
    rewrite crows_moved_score.
    unfold collect_crops in E2. rewrite Hnil in E2. injection E2 as <-.
    apply before_collect_same_run in E1.
    destruct E1 as (_ & _ & _ & _ & _ & _ & Hsc & _). exact Hsc.
  - intros host fuel dt g g' gm Hst Ht Hs E Egm.
    destruct (update_penalty_last host fuel dt g g' Hst Ht E)
      as (g1 & g2 & E1 & E2 & Em & ->).
    rewrite Egm in Em. injection Em as ->.
    apply before_collect_same_run in E1.
    destruct E1 as (_ & _ & _ & _ & _ & _ & Hsc & _).
    cbn [score countdown set_timeLeft] in Hsc.
    assert (Hs2 : (0 <= score g2)%Q).
    { eapply collect_crops_nonneg; [|exact E2]. rewrite Hsc. exact Hs. }
    assert (Hsm : (0 <= score (crows_moved host dt g2))%Q)
      by (rewrite crows_moved_score; exact Hs2).
    assert (Hsc' : (score (purge_crows (hit_crows (crows_moved host dt g2)))
                    == Qmax 0 (score (crows_moved host dt g2)
                               - 2 * inject_Z (Z.of_nat (crows_hit (crows_moved host dt g2)))))%Q).
    { rewrite purge_crows_score. apply hit_crows_score, Hsm. }
    split; [exact Hsm|]. split; [exact Hsc'|].
    split; [rewrite Hsc'; apply Q.le_max_l|].
    split.
    + intros c Hin. rewrite purge_hit_touches.
      apply purge_hit_crows_spec in Hin. apply Hin.
    + intros Hc H3. rewrite Hsc', Hc, H3. reflexivity.
  - intros host fuel dt g g'. apply update_score_nonneg.
  - intros g Hs g'.
    assert (Hsc : (score g' == Qmax 0 (score g - 2 * inject_Z (Z.of_nat (crows_hit g))))%Q).
    { subst g'. rewrite purge_crows_score. apply hit_crows_score, Hs. }
    split; [exact Hsc|]. rewrite Hsc. apply Q.le_max_l.
Qed.

Lemma C4_witness :
  update demo_host 1 (dec 33 3) two_crows = Ok after_two_crows /\
  run_phases demo_host 1 (dec 33 3) before_penalty (countdown (dec 33 3) two_crows)
    = Ok two_crows_moved /\
  crows_hit two_crows_moved = 2 /\ (score two_crows_moved == 3)%Q /\
  (score after_two_crows == 0)%Q /\ crows after_two_crows = [].
Proof.
  assert (Hs : state two_crows = PLAYING) by (vm_compute; reflexivity).
  assert (Ht : (timeLeft (countdown (dec 33 3) two_crows) <=. of_Z 0) = false)
    by (vm_compute; reflexivity).
  assert (H0 : (0 <= score two_crows)%Q) by (vm_compute; discriminate).
  assert (E : update demo_host 1 (dec 33 3) two_crows = Ok after_two_crows)
    by (vm_compute; reflexivity).
  assert (Em : run_phases demo_host 1 (dec 33 3) before_penalty
                 (countdown (dec 33 3) two_crows) = Ok two_crows_moved)
    by (vm_compute; reflexivity).
  assert (Hc : crows_hit two_crows_moved = 2) by (vm_compute; reflexivity).
  assert (H3 : (score two_crows_moved == 3)%Q) by (vm_compute; reflexivity).
  destruct (proj1 (proj2 C4_crow_penalty_floored) demo_host 1 (dec 33 3) two_crows
              after_two_crows two_crows_moved Hs Ht H0 E Em) as (_ & _ & _ & _ & Hex).
  split; [exact E|]. split; [exact Em|]. split; [exact Hc|].
  split; [exact H3|]. split; [exact (Hex Hc H3)|]. vm_compute. reflexivity.
Defined.

(** C5.  The crops whose box intersects the player's are collected as one
    batch: the batch is computed on the whole list before anything is marked
    or removed, each of its crops is marked dead, and the score grows by the
    sum of their points, 1 for wheat, 3 for a pumpkin, 5 for a golden apple.
    After the purge no crop that touched the player is left, and the others
    are all still there (the lists are emptied when the batch makes the level
    advance).  Crops in the list are alive at the start of the step; a
    playing frame that starts with live crops reaches the collection with
    live crops, spawned ones included, and ends with live crops: those that
    did not touch the player, updated, when the level did not change. *)
Theorem C5_crops_collected_as_batch :
  (forall N (num : JsNumber N) (host : Host N) (g g1 : t N),
      Forall (fun c => Crop.dead c = false) (crops g) ->
      collect_crops host g = Ok g1 ->
      let collected := filter (touches_crop g) (crops g) in
      let marked := map (fun c => if touches_crop g c then Crop.set_dead true c else c)
                        (crops g) in
      (collected = [] -> g1 = g) /\
      (collected <> [] -> score g1 = score g +. addedPoints collected) /\
      addedPoints collected
        = fold_left (fun sum c => sum +. match Crop.type c with
                                         | Crop.wheat => of_Z 1
                                         | Crop.pumpkin => of_Z 3
                                         | Crop.golden_apple => of_Z 5
                                         end) collected (of_Z 0) /\
      (level g1 = level g -> collected <> [] -> crops g1 = marked) /\
      (level g1 = level g ->
         crops (purge_crops g1) = filter (fun c => negb (touches_crop g c)) (crops g)) /\
      (forall c, In c (crops (purge_crops g1)) -> In c (crops g) /\ touches_crop g c = false))
  /\
  (forall N (num : JsNumber N) (host : Host N) fuel dt (g g' : t N),
      state g = PLAYING ->
      (timeLeft (countdown dt g) <=. of_Z 0) = false ->
      Forall (fun c => Crop.dead c = false) (crops g) ->
      update host fuel dt g = Ok g' ->
      exists g1 g2,
        run_phases host fuel dt before_collect (countdown dt g) = Ok g1 /\
        Forall (fun c => Crop.dead c = false) (crops g1) /\
        collect_crops host g1 = Ok g2 /\
        g' = after_collect_fn host dt g2 /\
        Forall (fun c => Crop.dead c = false) (crops g') /\
        (level g' = level g ->
           crops g' = map (Crop.update dt)
                          (filter (fun c => negb (touches_crop g1 c)) (crops g1)))).
Proof.
  split.
  - intros N num host g g1. apply collect_crops_batch.
  - intros N num host fuel dt g g' Hst Ht Halive E.
    destruct (update_playing_cut host fuel dt g g' Hst Ht E) as (g1 & g2 & E1 & E2 & ->).
    assert (Halive1 : Forall (fun c => Crop.dead c = false) (crops g1))
      by exact (before_collect_alive host fuel dt (countdown dt g) g1 Halive E1).
    exists g1, g2.
    split; [exact E1|]. split; [exact Halive1|]. split; [exact E2|].
    split; [reflexivity|]. rewrite after_collect_crops.
    split; [apply alive_after_purge_update|].
    intros Hl.
    destruct (after_collect_state_level host dt g2) as [_ Hl2]. rewrite Hl2 in Hl.
    apply before_collect_same_run in E1. destruct E1 as (_ & Hl1 & _).
    cbn [level countdown set_timeLeft] in Hl1. rewrite <- Hl1 in Hl.
    destruct (collect_crops_batch N num host g1 g2 Halive1 E2) as (_ & _ & _ & _ & Hp & _).
    specialize (Hp Hl). unfold purge_crops in Hp. cbn [crops set_crops] in Hp.
    rewrite Hp. reflexivity.
Qed.

Lemma C5_witness :
  exists g1,
    collect_crops demo_host pumpkin_under_player = Ok g1 /\
    score g1 = of_Z 0 +. (of_Z 0 +. of_Z 3) /\
    crops (purge_crops g1) = [Crop.new (of_Z 90) (of_Z 90) Crop.wheat (dec 5 1)].
Proof.
  pose (g1 := unwrap (collect_crops demo_host pumpkin_under_player) new).
  assert (Hrun : collect_crops demo_host pumpkin_under_player = Ok g1)
    by (vm_compute; reflexivity).
  assert (Halive : Forall (fun c => Crop.dead c = false) (crops pumpkin_under_player)).
  { repeat constructor. }
  assert (Hne : filter (touches_crop pumpkin_under_player) (crops pumpkin_under_player) <> [])
    by (vm_compute; discriminate).
  assert (Hl : level g1 = level pumpkin_under_player) by (vm_compute; reflexivity).
  destruct (proj1 C5_crops_collected_as_batch float _ demo_host pumpkin_under_player g1
              Halive Hrun) as (_ & Hs & _ & _ & Hp & _).
  exists g1. split; [exact Hrun|].
  split; [rewrite (Hs Hne); vm_compute; reflexivity|].
  rewrite (Hp Hl). vm_compute. reflexivity.
Defined.

(** C6.  The position the player asks for is the old one plus velocity times
    [dt], clamped to the world on each axis by itself.  If the box at that
    position intersects any static obstacle the player stays where it was on
    both axes; if it intersects none the player is at that position. *)
Theorem C6_blocked_move_reverts_both_axes :
  forall N (num : JsNumber N) (now dt : N) (obstacles : list (Entity.t N)) (f : Farmer.t N),
    let f' := Farmer.update now dt obstacles f in
    let cx := clamp (Entity.x (Farmer.base f) +. Farmer.vx f *. dt) (of_Z 0)
                    (WIDTH -. Entity.w (Farmer.base f)) in
    let cy := clamp (Entity.y (Farmer.base f) +. Farmer.vy f *. dt) (of_Z 0)
                    (HEIGHT -. Entity.h (Farmer.base f)) in
    let candidate := Entity.set_pos cx cy (Farmer.base f) in
    ((exists o, In o obstacles /\ aabb candidate o = true) ->
       Entity.x (Farmer.base f') = Entity.x (Farmer.base f) /\
       Entity.y (Farmer.base f') = Entity.y (Farmer.base f)) /\
    ((forall o, In o obstacles -> aabb candidate o = false) ->
       Entity.x (Farmer.base f') = cx /\ Entity.y (Farmer.base f') = cy).
Proof.
  intros N num now dt obstacles f f' cx cy candidate.
  assert (Hbase : Farmer.base f' =
                  if existsb (aabb candidate) obstacles
                  then Farmer.base f else candidate).
  { subst f'. unfold Farmer.update.
    destruct (Farmer.isMoving f); [destruct (_ >=. _)|]; reflexivity. }
  split.
  - intros Hhit. apply (existsb_exists (aabb candidate)) in Hhit.
    rewrite Hbase, Hhit. split; reflexivity.
  - intros Hfree.
    assert (Hno : existsb (aabb candidate) obstacles = false).
    { apply not_true_is_false. intros Hhit. apply existsb_exists in Hhit.
      destruct Hhit as (o & Hin & Ho). rewrite (Hfree o Hin) in Ho. discriminate. }
    rewrite Hbase, Hno. split; reflexivity.
Qed.


Lemma C6_witness :
  let f' := Farmer.update (of_Z 0) (dec 33 3) corner_obstacle cornered in
  Farmer.vx cornered = of_Z 260 /\ Farmer.vy cornered = of_Z 260 /\
  Entity.x (Farmer.base f') = of_Z 100 /\ Entity.y (Farmer.base f') = of_Z 100 /\
  Entity.x (Farmer.base (Farmer.update (of_Z 0) (dec 33 3) [] cornered))
    = of_Z 100 +. of_Z 260 *. dec 33 3.
Proof.
  intros f'. subst f'.
  split; [vm_compute; reflexivity|]. split; [vm_compute; reflexivity|].
  destruct (C6_blocked_move_reverts_both_axes float _ (of_Z 0) (dec 33 3)
              corner_obstacle cornered) as [Hblocked _].
  destruct Hblocked as [Hx Hy].
  { exists (Scarecrow.new (of_Z 140) (of_Z 140)).
    split; [left; reflexivity|vm_compute; reflexivity]. }
  split; [rewrite Hx; vm_compute; reflexivity|].
  split; [rewrite Hy; vm_compute; reflexivity|].
  vm_compute. reflexivity.
Defined.

(** C7.  With an empty accumulator, interval 0.8 and [dt] 2.5 the crop loop
    spawns exactly three crops and leaves 0.1: exactly over the rationals,
    and as the double 2.5 - 0.8 - 0.8 - 0.8, which is within 1e-15 of the
    double 0.1 and differs from it, at binary64.  In general the loop spawns
    [n] crops in one frame when [n * interval <= accumulator + dt <
    (n + 1) * interval], and it is a while loop: it tests, subtracts, spawns
    and tests again. *)
Theorem C7_accumulator_drains_fully :
  (forall (host : Host Q) (g : t Q) fuel,
      (_accumSpawn g == 0)%Q -> (spawnEvery g == 8 # 10)%Q -> 3 <= fuel ->
      exists g', spawn_crops host fuel (25 # 10)%Q g = Ok g' /\
                 List.length (crops g') = List.length (crops g) + 3 /\
                 (_accumSpawn g' == 1 # 10)%Q) /\
  (forall (host : Host float) (g : t float) fuel,
      _accumSpawn g = of_Z 0 -> spawnEvery g = dec 8 1 -> 3 <= fuel ->
      exists g', spawn_crops host fuel (dec 25 1) g = Ok g' /\
                 List.length (crops g') = List.length (crops g) + 3 /\
                 _accumSpawn g' = dec 25 1 -. dec 8 1 -. dec 8 1 -. dec 8 1 /\
                 (Math_abs (_accumSpawn g' -. dec 1 1) <=. dec 1 15) = true /\
                 (_accumSpawn g' =. dec 1 1) = false) /\
  (forall (host : Host Q) (g : t Q) dt n fuel,
      (0 < spawnEvery g)%Q ->
      (inject_Z (Z.of_nat n) * spawnEvery g <= _accumSpawn g + dt)%Q ->
      (_accumSpawn g + dt < (inject_Z (Z.of_nat n) + 1) * spawnEvery g)%Q ->
      n <= fuel ->
      exists g', spawn_crops host fuel dt g = Ok g' /\
                 List.length (crops g') = List.length (crops g) + n /\
                 (_accumSpawn g' == _accumSpawn g + dt - inject_Z (Z.of_nat n) * spawnEvery g)%Q) /\
  (forall N (num : JsNumber N) acc every set_acc spawn fuel (g : t N),
      spawn_while (S fuel) acc every set_acc spawn g =
      if acc g >=. every g
      then spawn_while fuel acc every set_acc spawn (spawn (set_acc (acc g -. every g) g))
      else Ok g).
Proof.
  split; [intros host g fuel; apply drain_exact_Q|].
  split; [intros host g fuel; apply drain_double|].
  split; [|reflexivity].
  intros host g dt n fuel Hpos Hlo Hhi Hfuel. unfold spawn_crops.
  set (g0 := set_accumSpawn (_accumSpawn g +. dt) g).
  eexists. split; [|split].
  - apply (spawn_while_count (@_accumSpawn Q) (@spawnEvery Q) set_accumSpawn
             (spawnCrop host)) with (n := n); try reflexivity; assumption.
  - rewrite crop_steps_length. reflexivity.
  - destruct (loop_step_iter_acc (@_accumSpawn Q) (@spawnEvery Q) set_accumSpawn
                (spawnCrop host) (fun _ _ => eq_refl) (fun _ _ => eq_refl) n g0) as [E _].
    rewrite E. reflexivity.
Qed.

Lemma C7_witness :
  (exists g', spawn_crops demo_host 3 (25 # 10)%Q (started : t Q) = Ok g' /\
              List.length (crops g') = 3 /\ (_accumSpawn g' == 1 # 10)%Q) /\
  (exists g', update demo_host 3 (dec 25 1) (started : t float) = Ok g' /\
              List.length (crops g') = 3 /\
              _accumSpawn g' = dec 25 1 -. dec 8 1 -. dec 8 1 -. dec 8 1).
Proof.
  split.
  - assert (Ha : (_accumSpawn (started : t Q) == 0)%Q) by (vm_compute; reflexivity).
    assert (He : (spawnEvery (started : t Q) == 8 # 10)%Q) by (vm_compute; reflexivity).
    destruct (proj1 C7_accumulator_drains_fully demo_host started 3 Ha He (le_n 3))
      as (g' & E & Hl & Hr).
    exists g'. split; [exact E|]. split; [rewrite Hl; vm_compute; reflexivity|exact Hr].
  - exists (unwrap (update demo_host 3 (dec 25 1) (started : t float)) new).
    split; [vm_compute; reflexivity|]. split; vm_compute; reflexivity.
Defined.

(** C8.  In every state other than [PLAYING] the update step returns the game
    unchanged, for every [dt] and for every sequence of [dt]s; a sequence of
    frame callbacks changes nothing but [lastTime]. *)
Theorem C8_update_is_a_no_op_unless_playing :
  forall N (num : JsNumber N) (host : Host N) fuel (g : t N),
    state g <> PLAYING ->
    (forall dt, update host fuel dt g = Ok g) /\
    (forall dts, updates host fuel dts g = Ok g) /\
    (forall tss, ticks host fuel tss g = Ok (set_lastTime (last tss (lastTime g)) g)).
Proof.
  intros N num host fuel g Hs. split; [|split].
  - intros dt. apply update_idle, Hs.
  - intros dts. apply updates_idle, Hs.
  - intros tss. apply ticks_idle, Hs.
Qed.

Lemma C8_witness :
  state paused = PAUSED /\
  updates demo_host 1 [dec 33 3; dec 5 1; dec 25 1] paused = Ok paused.
Proof.
  assert (Hs : state paused = PAUSED) by (vm_compute; reflexivity).
  split; [exact Hs|].
  apply (C8_update_is_a_no_op_unless_playing float _ demo_host 1 paused).
  rewrite Hs. discriminate.
Defined.

(** C9.  [aabb a b = aabb b a] for all boxes, over every number instance;
    and two boxes that touch along an edge, on either axis and either side, do
    not intersect: over exact rationals, and over doubles, where touching
    means that the sum the engine computes compares equal ([==]) to the other
    box's coordinate. *)
Theorem C9_aabb_symmetric_strict :
  (forall N (num : JsNumber N) (a b : Entity.t N), aabb a b = aabb b a) /\
  (forall a b : Entity.t Q,
      (Entity.x a + Entity.w a == Entity.x b \/ Entity.x b + Entity.w b == Entity.x a \/
       Entity.y a + Entity.h a == Entity.y b \/ Entity.y b + Entity.h b == Entity.y a)%Q ->
      aabb a b = false) /\
  (forall a b : Entity.t float,
      (Entity.x a +. Entity.w a =. Entity.x b) = true \/
      (Entity.x b +. Entity.w b =. Entity.x a) = true \/
      (Entity.y a +. Entity.h a =. Entity.y b) = true \/
      (Entity.y b +. Entity.h b =. Entity.y a) = true ->
      aabb a b = false).
Proof.
  split; [|split].
  - intros N num a b. apply aabb_sym.
  - intros a b Htouch. unfold aabb. cbn [num_lt num_add Q_number].
    assert (Hirr : forall p q : Q, (p == q)%Q -> negb (Qle_bool p q) = false).
    { intros p q Hpq. apply negb_false_iff, Qle_bool_iff. rewrite Hpq. apply Qle_refl. }
    destruct Htouch as [Ht|[Ht|[Ht|Ht]]]; rewrite (Hirr _ _ Ht);
      rewrite ?andb_false_r; reflexivity.
  - intros a b Htouch. unfold aabb. cbn [num_lt num_add num_eq float_number] in Htouch |- * .
    destruct Htouch as [Ht|[Ht|[Ht|Ht]]]; rewrite (double_eq_not_lt _ _ Ht);
      rewrite ?andb_false_r; reflexivity.
Qed.

Lemma C9_witness : aabb box_left box_right = false /\ aabb box_right box_left = false.
Proof.
  assert (Ht : (Entity.x box_left + Entity.w box_left == Entity.x box_right)%Q)
    by (vm_compute; reflexivity).
  split.
  - exact (proj1 (proj2 C9_aabb_symmetric_strict) box_left box_right (or_introl Ht)).
  - rewrite (proj1 C9_aabb_symmetric_strict Q _ box_right box_left).
    exact (proj1 (proj2 C9_aabb_symmetric_strict) box_left box_right (or_introl Ht)).
Defined.

(** C10, amended.  At binary64, with the three spawn intervals strictly
    positive and every subtraction [acc - every] that the three loops perform
    giving a strictly smaller accumulator, every update step terminates:
    above some amount of fuel it gives one and the same result, a state or a
    thrown exception.  The second condition cannot be dropped: over every
    number instance, a playing frame whose time has not run out never
    terminates when one of its three loops reaches an accumulator value that
    the subtraction gives back.  At binary64 again, the frame never
    terminates when an interval is zero or negative and its accumulator
    (after adding [dt]) is finite and not below it.  In exact arithmetic a
    positive interval always makes progress, so positive intervals alone
    make every update terminate, and an interval that is zero or negative
    with its accumulator not below it makes the frame never terminate. *)
Theorem C10_update_terminates_unless_absorbed :
  (forall (host : Host float) dt (g : t float),
      (of_Z 0 <. spawnEvery g) = true ->
      (of_Z 0 <. powerUpSpawnEvery g) = true ->
      (of_Z 0 <. crowSpawnEvery g) = true ->
      makes_progress (spawnEvery g) (_accumSpawn g +. dt) ->
      makes_progress (powerUpSpawnEvery g) (_accumPowerUpSpawn g +. dt) ->
      makes_progress (crowSpawnEvery g) (_accumCrowSpawn g +. dt) ->
      exists fuel0 r, r <> OutOfFuel /\
        forall fuel, fuel0 <= fuel -> update host fuel dt g = r) /\
  (forall N (num : JsNumber N) (host : Host N) dt (g : t N),
      state g = PLAYING ->
      (timeLeft (countdown dt g) <=. of_Z 0) = false ->
      stalls (spawnEvery g) (_accumSpawn g +. dt) \/
      stalls (powerUpSpawnEvery g) (_accumPowerUpSpawn g +. dt) \/
      stalls (crowSpawnEvery g) (_accumCrowSpawn g +. dt) ->
      diverges (fun fuel => update host fuel dt g)) /\
  (forall (host : Host float) dt (g : t float),
      state g = PLAYING ->
      (timeLeft (countdown dt g) <=. of_Z 0) = false ->
      ((spawnEvery g <=. of_Z 0) = true /\
       (_accumSpawn g +. dt >=. spawnEvery g) = true /\
       isFinite (_accumSpawn g +. dt) = true) \/
      ((powerUpSpawnEvery g <=. of_Z 0) = true /\
       (_accumPowerUpSpawn g +. dt >=. powerUpSpawnEvery g) = true /\
       isFinite (_accumPowerUpSpawn g +. dt) = true) \/
      ((crowSpawnEvery g <=. of_Z 0) = true /\
       (_accumCrowSpawn g +. dt >=. crowSpawnEvery g) = true /\
       isFinite (_accumCrowSpawn g +. dt) = true) ->
      diverges (fun fuel => update host fuel dt g)) /\
  (forall every a0 : Q, (0 < every)%Q -> makes_progress every a0) /\
  positive_intervals_terminate Q /\
  (forall (host : Host Q) dt (g : t Q),
      (0 < spawnEvery g)%Q -> (0 < powerUpSpawnEvery g)%Q -> (0 < crowSpawnEvery g)%Q ->
      exists fuel0 r, r <> OutOfFuel /\
        forall fuel, fuel0 <= fuel -> update host fuel dt g = r) /\
  (forall (host : Host Q) dt (g : t Q),
      state g = PLAYING ->
      (timeLeft (countdown dt g) <=. of_Z 0) = false ->
      ((spawnEvery g <= 0 /\ spawnEvery g <= _accumSpawn g + dt) \/
       (powerUpSpawnEvery g <= 0 /\ powerUpSpawnEvery g <= _accumPowerUpSpawn g + dt) \/
       (crowSpawnEvery g <= 0 /\ crowSpawnEvery g <= _accumCrowSpawn g + dt))%Q ->
      diverges (fun fuel => update host fuel dt g)).
Proof.
  split; [apply update_terminates_double|].
  split.
  { intros N num host dt g Hs Ht Hst. apply update_never_ends; [exact Hs|exact Ht|].
    destruct Hst as [Hst|[Hst|Hst]];
      [left|right; left|right; right]; apply stalls_never_ends, Hst. }
  split.
  { intros host dt g Hs Ht Hz. apply update_never_ends; [exact Hs|exact Ht|].
    destruct Hz as [(Hz & Hge & Hf)|[(Hz & Hge & Hf)|(Hz & Hge & Hf)]];
      [left|right; left|right; right]; apply nonpositive_never_ends; assumption. }
  split; [apply progress_Q|].
  split.
  { intros host dt g H1 H2 H3.
    apply lt_zero_Q in H1. apply lt_zero_Q in H2. apply lt_zero_Q in H3.
    destruct (update_terminates host dt g H1 H2 H3) as (fuel0 & r & Hr & E).
    exists fuel0. rewrite (E fuel0 (le_n _)). exact Hr. }
  split; [intros host dt g; apply update_terminates|].
  intros host dt g. apply update_diverges.
Qed.

Lemma C10_witness :
  exists fuel0 r, r <> OutOfFuel /\
    forall fuel, fuel0 <= fuel -> update demo_host fuel (dec 25 1) (started : t float) = r.
Proof.
  assert (H1 : (of_Z 0 <. spawnEvery (started : t float)) = true) by (vm_compute; reflexivity).
  assert (H2 : (of_Z 0 <. powerUpSpawnEvery (started : t float)) = true)
    by (vm_compute; reflexivity).
  assert (H3 : (of_Z 0 <. crowSpawnEvery (started : t float)) = true)
    by (vm_compute; reflexivity).
  assert (P1 : makes_progress (spawnEvery (started : t float))
                              (_accumSpawn (started : t float) +. dec 25 1)).
  { apply progress_by_list with (l := drained_values (dec 8 1) (dec 25 1 : float)).
    - left. vm_compute. reflexivity.
    - refine (Forall_cons _ _ (Forall_cons _ _ (Forall_cons _ _
                (Forall_cons _ _ (Forall_nil _))))); intros Hge.
      + split; [right; left|]; vm_compute; reflexivity.
      + split; [right; right; left|]; vm_compute; reflexivity.
      + split; [right; right; right; left|]; vm_compute; reflexivity.
      + vm_compute in Hge. discriminate Hge. }
  assert (P2 : makes_progress (powerUpSpawnEvery (started : t float))
                              (_accumPowerUpSpawn (started : t float) +. dec 25 1)).
  { apply progress_by_list with (l := [dec 25 1 : float]).
    - left. vm_compute. reflexivity.
    - refine (Forall_cons _ _ (Forall_nil _)). intros Hge.
      vm_compute in Hge. discriminate Hge. }
  assert (P3 : makes_progress (crowSpawnEvery (started : t float))
                              (_accumCrowSpawn (started : t float) +. dec 25 1)).
  { apply progress_by_list with (l := [dec 25 1 : float]).
    - left. vm_compute. reflexivity.
    - refine (Forall_cons _ _ (Forall_nil _)). intros Hge.
      vm_compute in Hge. discriminate Hge. }
  exact (proj1 C10_update_terminates_unless_absorbed
           demo_host (dec 25 1) started H1 H2 H3 P1 P2 P3).
Defined.

(** C10 as written fails at binary64: with the first level's crop interval
    set to 1e-20, all three intervals are positive, yet in the first frame
    the accumulator is 0.033 and 0.033 - 1e-20 is the double 0.033 again, so
    the crop loop never ends. *)
Lemma C10_counterexample :
  (of_Z 0 <. spawnEvery tiny_interval_game) = true /\
  (of_Z 0 <. powerUpSpawnEvery tiny_interval_game) = true /\
  (of_Z 0 <. crowSpawnEvery tiny_interval_game) = true /\
  state tiny_interval_game = PLAYING /\
  dec 33 3 -. spawnEvery tiny_interval_game = (dec 33 3 : float) /\
  diverges (fun fuel => update demo_host fuel (dec 33 3) tiny_interval_game) /\
  ~ positive_intervals_terminate float.
Proof.
  assert (H1 : (of_Z 0 <. spawnEvery tiny_interval_game) = true) by (vm_compute; reflexivity).
  assert (H2 : (of_Z 0 <. powerUpSpawnEvery tiny_interval_game) = true)
    by (vm_compute; reflexivity).
  assert (H3 : (of_Z 0 <. crowSpawnEvery tiny_interval_game) = true)
    by (vm_compute; reflexivity).
  assert (Hs : state tiny_interval_game = PLAYING) by (vm_compute; reflexivity).
  assert (Ht : (timeLeft (countdown (dec 33 3) tiny_interval_game) <=. of_Z 0) = false)
    by (vm_compute; reflexivity).
  assert (Hdiv : diverges (fun fuel => update demo_host fuel (dec 33 3) tiny_interval_game)).
  { apply update_diverges_absorbed; try assumption; vm_compute; reflexivity. }
  split; [exact H1|]. split; [exact H2|]. split; [exact H3|]. split; [exact Hs|].
  split; [vm_compute; reflexivity|]. split; [exact Hdiv|].
  intros Hclaim.
  destruct (Hclaim demo_host (dec 33 3) tiny_interval_game H1 H2 H3) as (fuel & Hfuel).
  apply Hfuel, Hdiv.
Qed.

(** * Further properties of the engine *)

(** ** Invariants, phase by phase *)

Section FrameInv.
Context {N : Type} `{JsNumber N}.
Variable host : Host N.

Lemma run_phases_inv (P : t N -> Prop) fuel dt :
  (forall p g g', P g -> run_phase host fuel dt p g = Ok g' -> P g') ->
  forall ps g g', P g -> run_phases host fuel dt ps g = Ok g' -> P g'.
Proof.
  intros Hp. induction ps as [|p ps IH]; intros g g' Hg; cbn [run_phases].
  - intros [= <-]. exact Hg.
  - intros E. apply bind_Ok in E as (g1 & E1 & E). eapply IH; [|exact E].
    eapply Hp; [exact Hg|exact E1].
Qed.

(** An invariant of the countdown, of the time-up exit and of every phase is
    an invariant of [update]. *)
Lemma update_inv (P : t N -> Prop) fuel dt :
  (forall g, P g -> P (countdown dt g)) ->
  (forall g, P g -> P (set_state GAME_OVER g)) ->
  (forall p g g', P g -> run_phase host fuel dt p g = Ok g' -> P g') ->
  forall g g', P g -> update host fuel dt g = Ok g' -> P g'.
Proof.
  intros Hc Ho Hp g g' Hg. unfold update.
  destruct (state g); try (intros [= <-]; exact Hg).
  destruct (timeLeft (countdown dt g) <=. of_Z 0).
  - intros [= <-]. apply Ho, Hc, Hg.
  - apply run_phases_inv; [exact Hp|apply Hc, Hg].
Qed.

(** The same, phase by phase down to the single assignments. *)
Lemma run_phase_inv (P : t N -> Prop) fuel dt :
  (forall g, P g -> P (handle_input g)) ->
  (forall g, P g -> P (update_player host dt g)) ->
  (forall g v, P g -> P (set_accumSpawn v g)) ->
  (forall g v, P g -> P (set_accumPowerUpSpawn v g)) ->
  (forall g v, P g -> P (set_accumCrowSpawn v g)) ->
  (forall g, P g -> P (spawnCrop host g)) ->
  (forall g, P g -> P (spawnPowerUp host g)) ->
  (forall g, P g -> P (spawnCrow host g)) ->
  (forall g g', P g -> collect_crops host g = Ok g' -> P g') ->
  (forall g, P g -> P (purge_crops g)) ->
  (forall g, P g -> P (update_crops dt g)) ->
  (forall g, P g -> P (collect_powerUps host g)) ->
  (forall g, P g -> P (purge_powerUps g)) ->
  (forall g, P g -> P (update_powerUps dt g)) ->
  (forall g, P g -> P (update_crows host dt g)) ->
  (forall g, P g -> P (hit_crows g)) ->
  (forall g, P g -> P (purge_crows g)) ->
  forall p g g', P g -> run_phase host fuel dt p g = Ok g' -> P g'.
Proof.
  intros Hi Hpl Ha1 Ha2 Ha3 Hs1 Hs2 Hs3 Hc Hpc Huc Hcp Hpp Hup Huw Hh Hpw p g g' Hg.
  destruct p; cbn [run_phase]; try (intros [= <-]; auto; fail).
  - unfold spawn_crops. apply spawn_while_inv; [intros; apply Hs1, Ha1; assumption|].
    apply Ha1, Hg.
  - unfold spawn_powerUps. apply spawn_while_inv; [intros; apply Hs2, Ha2; assumption|].
    apply Ha2, Hg.
  - unfold spawn_crows. apply spawn_while_inv; [intros; apply Hs3, Ha3; assumption|].
    apply Ha3, Hg.
  - apply Hc, Hg.
Qed.

(** The crop collection, down to its assignments and the level advance. *)
Lemma collect_crops_inv (P : t N -> Prop) :
  (forall g s, P g ->
     P (set_score s (set_crops (map (fun c => if touches_crop g c
                                              then Crop.set_dead true c else c)
                                    (crops g)) g))) ->
  (forall g, P g -> 3 <= level g -> P (set_state WIN g)) ->
  (forall g g', P g -> level g < 3 -> advanceLevel host g = Ok g' -> P g') ->
  forall g g', P g -> collect_crops host g = Ok g' -> P g'.
Proof.
  intros Hm Hw Ha g g' Hg. unfold collect_crops.
  destruct (filter (touches_crop g) (crops g)) as [|c rest]; [intros [= <-]; exact Hg|].
  cbv zeta.
  match goal with |- context [set_score ?s ?g0] =>
    assert (Hg1 : P (set_score s g0)) by apply Hm, Hg;
    revert Hg1; generalize (set_score s g0) end.
  intros g1 Hg1.
  destruct (score g1 >=. goal g1).
  - destruct (Nat.ltb (level g1) 3) eqn:E.
    + apply Nat.ltb_lt in E. intros E'. eapply Ha; eauto.
    + apply Nat.ltb_ge in E. intros [= <-]. apply Hw; [exact Hg1|exact E].
  - intros [= <-]. exact Hg1.
Qed.

(** The level advance, down to its assignments. *)
Lemma advanceLevel_inv (P : t N -> Prop) :
  (forall g lc, P g -> level g < 3 ->
     level_config (config g) (level g) = Ok lc ->
     P (place_scarecrows host (LevelConfig.numScarecrows lc)
          (set_obstacles []
          (set_goal (requiredScore g +. LevelConfig.goal lc)
          (set_requiredScore (requiredScore g +. LevelConfig.goal lc)
          (set_powerUpSpawnEvery (LevelConfig.powerUpSpawnEvery lc)
          (set_crowSpawnEvery (LevelConfig.crowSpawnEvery lc)
          (set_spawnEvery (LevelConfig.spawnEvery lc)
          (set_accumCrowSpawn (of_Z 0)
          (set_accumPowerUpSpawn (of_Z 0)
          (set_accumSpawn (of_Z 0)
          (set_crows []
          (set_powerUps []
          (set_crops []
          (set_maxTime (LevelConfig.timeLimit lc)
          (set_timeLeft (LevelConfig.timeLimit lc)
          (set_level (S (level g)) g))))))))))))))))) ->
  forall g g', P g -> level g < 3 -> advanceLevel host g = Ok g' -> P g'.
Proof.
  intros Hstep g g' Hg Hl. unfold advanceLevel.
  destruct (Nat.leb 3 (level g)) eqn:E; [apply Nat.leb_le in E; lia|].
  cbv zeta.
  replace (level (set_level (S (level g)) g) - 1) with (level g)
    by (cbn [level set_level]; lia).
  change (config (set_level (S (level g)) g)) with (config g).
  destruct (level_config (config g) (level g)) as [lc| |] eqn:Hc; cbn [bind];
    try discriminate.
  intros [= <-]. apply (Hstep g lc Hg Hl Hc).
Qed.

(** What a frame never writes: a property that no assignment of the frame can
    change is kept by [update]. *)
Lemma update_keeps (P : t N -> Prop) :
  (forall g v, P g -> P (set_state v g)) ->
  (forall g v, P g -> P (set_level v g)) ->
  (forall g v, P g -> P (set_requiredScore v g)) ->
  (forall g v, P g -> P (set_maxTime v g)) ->
  (forall g v, P g -> P (set_player v g)) ->
  (forall g v, P g -> P (set_crops v g)) ->
  (forall g v, P g -> P (set_obstacles v g)) ->
  (forall g v, P g -> P (set_powerUps v g)) ->
  (forall g v, P g -> P (set_crows v g)) ->
  (forall g v, P g -> P (set_timeLeft v g)) ->
  (forall g v, P g -> P (set_spawnEvery v g)) ->
  (forall g v, P g -> P (set_accumSpawn v g)) ->
  (forall g v, P g -> P (set_powerUpSpawnEvery v g)) ->
  (forall g v, P g -> P (set_accumPowerUpSpawn v g)) ->
  (forall g v, P g -> P (set_crowSpawnEvery v g)) ->
  (forall g v, P g -> P (set_accumCrowSpawn v g)) ->
  (forall g v, P g -> P (set_score v g)) ->
  (forall g v, P g -> P (set_goal v g)) ->
  (forall g v, P g -> P (set_rnd v g)) ->
  (forall g v, P g -> P (set_clk v g)) ->
  forall fuel dt g g', P g -> update host fuel dt g = Ok g' -> P g'.
Proof.
  intros Hst Hlv Hrs Hmt Hpl Hcr Hob Hpu Hcw Htl Hse Has Hpe Hap Hce Hac Hsc Hgo Hrn Hck
         fuel dt.
  apply update_inv.
  - intros g Hg. apply Htl, Hg.
  - intros g Hg. apply Hst, Hg.
  - apply run_phase_inv.
    + intros g Hg. apply Hpl, Hg.
    + intros g Hg. apply Hck, Hpl, Hg.
    + exact Has.
    + exact Hap.
    + exact Hac.
    + intros g Hg. apply Hrn, Hcr, Hg.
    + intros g Hg. apply Hrn, Hpu, Hg.
    + intros g Hg. apply Hrn, Hcw, Hg.
    + apply collect_crops_inv.
      * intros g s Hg. apply Hsc, Hcr, Hg.
      * intros g Hg _. apply Hst, Hg.
      * apply advanceLevel_inv. intros g lc Hg _ _.
        apply place_scarecrows_inv; [intros g0 l r Hg0; apply Hrn, Hob, Hg0|].
        apply Hob, Hgo, Hrs, Hpe, Hce, Hse, Hac, Hap, Has, Hcw, Hpu, Hcr, Hmt, Htl, Hlv, Hg.
    + intros g Hg. apply Hcr, Hg.
    + intros g Hg. apply Hcr, Hg.
    + apply collect_powerUps_inv; [exact Hpu|intros g p c Hg; apply Hck, Hpl, Hg].
    + intros g Hg. apply Hpu, Hg.
    + intros g Hg. apply Hpu, Hg.
    + apply update_crows_inv. intros g l r Hg. apply Hrn, Hcw, Hg.
    + apply hit_crows_inv. intros g l s Hg. apply Hcw, Hsc, Hg.
    + intros g Hg. apply Hcw, Hg.
Qed.

(** From the crop collection to the end of the frame: what only the level
    advance writes is kept when the level stays. *)
Lemma rest_of_frame_keeps (P : t N -> Prop) :
  (forall g v, P g -> P (set_state v g)) ->
  (forall g v, P g -> P (set_player v g)) ->
  (forall g v, P g -> P (set_crops v g)) ->
  (forall g v, P g -> P (set_powerUps v g)) ->
  (forall g v, P g -> P (set_crows v g)) ->
  (forall g v, P g -> P (set_score v g)) ->
  (forall g v, P g -> P (set_rnd v g)) ->
  (forall g v, P g -> P (set_clk v g)) ->
  forall dt (g1 g2 : t N),
    P g1 -> collect_crops host g1 = Ok g2 ->
    level (after_collect_fn host dt g2) = level g1 ->
    P (after_collect_fn host dt g2).
Proof.
  intros Hst Hpl Hcr Hpu Hcw Hsc Hrn Hck dt g1 g2 Hg1 E Hl.
  pose (P' := fun g : t N => (level g = level g1 /\ P g) \/ level g1 < level g).
  assert (H2 : P' g2).
  { revert E. apply (collect_crops_inv P').
    - intros g s [[Hlv Hg]|Hlt]; [left|right; exact Hlt].
      split; [exact Hlv|]. apply Hsc, Hcr, Hg.
    - intros g [[Hlv Hg]|Hlt] _; [left|right; exact Hlt].
      split; [exact Hlv|]. apply Hst, Hg.
    - intros g g' Hg Hlt E. right.
      apply advanceLevel_level in E. destruct E as [[Hge _]|(_ & Hl' & _)]; [lia|].
      rewrite Hl'. destruct Hg as [[Hlv _]|Hlt']; lia.
    - left. split; [reflexivity|exact Hg1]. }
  assert (H3 : P' (after_collect_fn host dt g2)).
  { apply (after_collect_inv host P'); try exact H2;
      try (intros g v [[Hlv Hg]|Hlt]; [left|right; exact Hlt]; split; [exact Hlv|]; auto).
    intros g. apply (hit_crows_inv P').
    intros g0 l s [[Hlv Hg]|Hlt]; [left|right; exact Hlt].
    split; [exact Hlv|]. apply Hcw, Hsc, Hg. }
  destruct H3 as [[_ Hg]|Hlt]; [exact Hg|lia].
Qed.

(** Every power-up collected calls [applySpeedBoost(5)] once. *)
Lemma collect_powerUps_boost_inv (P : t N -> Prop) :
  (forall g l, P g -> P (set_powerUps l g)) ->
  (forall g p, P g -> P (boost_step host g p)) ->
  forall g, P g -> P (collect_powerUps host g).
Proof.
  intros Hl Hb g Hg. unfold collect_powerUps.
  generalize (filter (touches_powerUp g) (powerUps g)). intros l.
  match goal with |- P (fold_left _ _ ?g1) =>
    assert (Hg1 : P g1) by apply Hl, Hg; revert Hg1; generalize g1 end.
  induction l as [|p l IH]; intros g1 Hg1; cbn [fold_left].
  - exact Hg1.
  - apply IH. apply (Hb g1 p Hg1).
Qed.

(** A property of the player that its three methods keep is kept by a
    frame. *)
Lemma player_inv (Qp : Farmer.t N -> Prop) :
  (forall i p, Qp p -> Qp (Farmer.handleInput i p)) ->
  (forall now dt obs p, Qp p -> Qp (Farmer.update now dt obs p)) ->
  (forall now p, Qp p -> Qp (Farmer.applySpeedBoost now (of_Z 5) p)) ->
  forall fuel dt (g g' : t N),
    Qp (player g) -> update host fuel dt g = Ok g' -> Qp (player g').
Proof.
  intros Hi Hu Hb fuel dt.
  apply update_inv with (P := fun g => Qp (player g)).
  - intros g Hg. exact Hg.
  - intros g Hg. exact Hg.
  - apply (run_phase_inv (fun g => Qp (player g))); try (intros; assumption).
    + intros g Hg. apply Hi, Hg.
    + intros g Hg. apply Hu, Hg.
    + apply (collect_crops_inv (fun g => Qp (player g))); try (intros; assumption).
      apply (advanceLevel_inv (fun g => Qp (player g))). intros g lc Hg _ _.
      apply (place_scarecrows_inv host (fun g => Qp (player g)));
        [intros ? ? ? Hg'; exact Hg'|exact Hg].
    + apply (collect_powerUps_boost_inv (fun g => Qp (player g))); [intros; assumption|].
      intros g p Hg. apply Hb, Hg.
    + apply (update_crows_inv host (fun g => Qp (player g))). intros; assumption.
    + apply (hit_crows_inv (fun g => Qp (player g))). intros; assumption.
Qed.

End FrameInv.

(** ** Comparisons of exact rationals *)

Lemma Qeq_bool_false_iff a b : Qeq_bool a b = false <-> ~ (a == b)%Q.
Proof.
  split.
  - intros E Heq. apply Qeq_bool_iff in Heq. congruence.
  - intros Hne. destruct (Qeq_bool a b) eqn:E; [|reflexivity].
    apply Qeq_bool_iff in E. contradiction.
Qed.

Lemma Qle_bool_false_iff a b : Qle_bool a b = false <-> (b < a)%Q.
Proof.
  split.
  - intros E. apply Qnot_le_lt. intros Hle. apply Qle_bool_iff in Hle. congruence.
  - intros Hlt. destruct (Qle_bool a b) eqn:E; [|reflexivity].
    apply Qle_bool_iff in E. lra.
Qed.

Lemma lt_Q (a b : Q) : (a <. b) = true <-> (a < b)%Q.
Proof.
  cbn [num_lt Q_number]. rewrite negb_true_iff. apply Qle_bool_false_iff.
Qed.

Lemma lt_Q_false (a b : Q) : (a <. b) = false <-> (b <= a)%Q.
Proof.
  cbn [num_lt Q_number]. rewrite negb_false_iff. apply Qle_bool_iff.
Qed.

(** ** Comparisons of doubles, through their specification *)

Lemma SFcompare_refl f : f <> S754_nan -> SFcompare f f = Some Eq.
Proof.
  destruct f as [s|s| |s m e]; cbn [SFcompare]; intros Hn; try reflexivity.
  - destruct s; reflexivity.
  - contradiction.
  - rewrite Z.compare_refl, Pcompare_refl. destruct s; reflexivity.
Qed.

Lemma not_nan_spec x : not_nan x <-> Prim2SF x <> S754_nan.
Proof.
  unfold not_nan, F64.is_nan. rewrite negb_false_iff, eqb_spec. unfold SFeqb. split.
  - intros E Hn. rewrite Hn in E. discriminate.
  - intros Hn. rewrite (SFcompare_refl _ Hn). reflexivity.
Qed.

Lemma SFcompare_defined a b :
  a <> S754_nan -> b <> S754_nan -> exists c, SFcompare a b = Some c.
Proof.
  destruct a as [sa|sa| |sa ma ea], b as [sb|sb| |sb mb eb]; cbn [SFcompare];
    intros Ha Hb; try contradiction; eexists; reflexivity.
Qed.

Lemma compare_cont_swap (ma mb : positive) :
  Pos.compare_cont Eq mb ma = CompOpp (Pos.compare_cont Eq ma mb).
Proof. rewrite (Pos.compare_cont_antisym ma mb Eq). reflexivity. Qed.

Lemma SFcompare_Gt_Lt a b : SFcompare a b = Some Gt -> SFcompare b a = Some Lt.
Proof.
  destruct a as [sa|sa| |sa ma ea], b as [sb|sb| |sb mb eb]; cbn [SFcompare];
    try discriminate;
    try (destruct sa; (discriminate || reflexivity));
    try (destruct sb; (discriminate || reflexivity));
    try (destruct sa, sb; (discriminate || reflexivity)).
  change PosDef.Pos.compare_cont with Pos.compare_cont.
  rewrite (compare_cont_swap ma mb), (Z.compare_antisym ea eb).
  destruct sa, sb; try discriminate; try reflexivity;
    destruct (Z.compare ea eb); cbn [CompOpp]; try discriminate; try reflexivity;
    destruct (Pos.compare_cont Eq ma mb); cbn [CompOpp]; (discriminate || reflexivity).
Qed.

Lemma SFcompare_Lt_Gt a b : SFcompare a b = Some Lt -> SFcompare b a = Some Gt.
Proof.
  destruct a as [sa|sa| |sa ma ea], b as [sb|sb| |sb mb eb]; cbn [SFcompare];
    try discriminate;
    try (destruct sa; (discriminate || reflexivity));
    try (destruct sb; (discriminate || reflexivity));
    try (destruct sa, sb; (discriminate || reflexivity)).
  change PosDef.Pos.compare_cont with Pos.compare_cont.
  rewrite (compare_cont_swap ma mb), (Z.compare_antisym ea eb).
  destruct sa, sb; try discriminate; try reflexivity;
    destruct (Z.compare ea eb); cbn [CompOpp]; try discriminate; try reflexivity;
    destruct (Pos.compare_cont Eq ma mb); cbn [CompOpp]; (discriminate || reflexivity).
Qed.

Lemma double_order (x y : float) :
  not_nan x -> not_nan y ->
  (PrimFloat.ltb x y = true /\ PrimFloat.ltb y x = false /\ PrimFloat.leb x y = true) \/
  (PrimFloat.ltb y x = true /\ PrimFloat.ltb x y = false /\ PrimFloat.leb y x = true) \/
  (PrimFloat.eqb x y = true /\ PrimFloat.ltb x y = false /\ PrimFloat.ltb y x = false /\
   PrimFloat.leb x y = true /\ PrimFloat.leb y x = true).
Proof.
  intros Hx Hy. apply not_nan_spec in Hx. apply not_nan_spec in Hy.
  rewrite !ltb_spec, !leb_spec, !eqb_spec. unfold SFltb, SFleb, SFeqb.
  destruct (SFcompare_defined _ _ Hx Hy) as ([| |] & E); rewrite E.
  - right. right. rewrite (SFcompare_Eq_sym _ _ E). auto.
  - left. rewrite (SFcompare_Lt_Gt _ _ E). auto.
  - right. left. rewrite (SFcompare_Gt_Lt _ _ E). auto.
Qed.

Lemma leb_refl_double x : not_nan x -> PrimFloat.leb x x = true.
Proof.
  intros Hx. apply not_nan_spec in Hx. rewrite leb_spec. unfold SFleb.
  rewrite (SFcompare_refl _ Hx). reflexivity.
Qed.

(** A double that compares equal to 0 is +0 or -0. *)
Lemma eqb_zero x : PrimFloat.eqb x 0%float = true -> x = 0%float \/ x = (-0)%float.
Proof.
  rewrite eqb_spec. unfold SFeqb.
  change (Prim2SF 0%float) with (S754_zero false).
  intros E. rewrite <- (SF2Prim_Prim2SF x).
  destruct (Prim2SF x) as [s|s| |s m e]; cbn [SFcompare] in E; try discriminate;
    try (destruct s; discriminate).
  destruct s; [right|left]; reflexivity.
Qed.

Lemma eqb_zero_both x y :
  PrimFloat.eqb x y = true -> PrimFloat.eqb x 0%float = true ->
  (x = 0%float \/ x = (-0)%float) /\ (y = 0%float \/ y = (-0)%float).
Proof.
  intros Exy Ex. pose proof (eqb_zero x Ex) as Hx. split; [exact Hx|].
  apply eqb_zero. rewrite eqb_spec in Exy |- * . unfold SFeqb in Exy |- * .
  change (Prim2SF 0%float) with (S754_zero false).
  assert (Hpx : exists s, Prim2SF x = S754_zero s)
    by (destruct Hx as [-> | ->]; eexists; reflexivity).
  destruct Hpx as (s & Hpx). rewrite Hpx in Exy.
  destruct (Prim2SF y) as [sy|sy| |sy my ey]; cbn [SFcompare] in Exy |- *;
    try discriminate; try reflexivity; destruct sy; discriminate.
Qed.

(** Comparing with a zero does not depend on the zero's sign. *)
Lemma leb_zero_sign x z z' :
  (z = 0%float \/ z = (-0)%float) -> (z' = 0%float \/ z' = (-0)%float) ->
  PrimFloat.leb x z = PrimFloat.leb x z' /\ PrimFloat.leb z x = PrimFloat.leb z' x.
Proof.
  intros Hz Hz'. rewrite !leb_spec. unfold SFleb.
  assert (E : exists s, Prim2SF z = S754_zero s)
    by (destruct Hz as [-> | ->]; eexists; reflexivity).
  assert (E' : exists s, Prim2SF z' = S754_zero s)
    by (destruct Hz' as [-> | ->]; eexists; reflexivity).
  destruct E as (s & ->). destruct E' as (s' & ->).
  destruct (Prim2SF x); split; reflexivity.
Qed.

Lemma max_double (x y : float) :
  not_nan x -> not_nan y ->
  not_nan (F64.max x y) /\
  PrimFloat.leb x (F64.max x y) = true /\ PrimFloat.leb y (F64.max x y) = true /\
  (PrimFloat.leb x y = true -> PrimFloat.leb (F64.max x y) y = true).
Proof.
  intros Hx Hy. unfold F64.max. rewrite Hx, Hy.
  destruct (double_order x y Hx Hy) as [(H1 & H2 & H3)|[(H1 & H2 & H3)|(H0 & H1 & H2 & H3 & H4)]];
    rewrite ?H1, ?H2.
  - repeat split; auto using leb_refl_double.
  - repeat split; auto using leb_refl_double.
  - destruct (PrimFloat.eqb x 0%float) eqn:Ez.
    + destruct (eqb_zero_both x y H0 Ez) as [Zx Zy].
      destruct Zx as [-> | ->], Zy as [-> | ->]; vm_compute; auto.
    + repeat split; auto using leb_refl_double.
Qed.

Lemma min_double (x y : float) :
  not_nan x -> not_nan y ->
  not_nan (F64.min x y) /\
  PrimFloat.leb (F64.min x y) x = true /\ PrimFloat.leb (F64.min x y) y = true /\
  (forall lo, PrimFloat.leb lo x = true -> PrimFloat.leb lo y = true ->
              PrimFloat.leb lo (F64.min x y) = true).
Proof.
  intros Hx Hy. unfold F64.min. rewrite Hx, Hy.
  destruct (double_order x y Hx Hy) as [(H1 & H2 & H3)|[(H1 & H2 & H3)|(H0 & H1 & H2 & H3 & H4)]];
    rewrite ?H1, ?H2.
  - repeat split; auto using leb_refl_double.
  - repeat split; auto using leb_refl_double.
  - destruct (PrimFloat.eqb x 0%float) eqn:Ez.
    + destruct (eqb_zero_both x y H0 Ez) as [Zx Zy].
      assert (Zr : PrimFloat.opp (PrimFloat.add (PrimFloat.opp x) (PrimFloat.opp y)) = 0%float \/
                   PrimFloat.opp (PrimFloat.add (PrimFloat.opp x) (PrimFloat.opp y)) = (-0)%float)
        by (destruct Zx as [-> | ->], Zy as [-> | ->]; vm_compute; auto).
      split; [destruct Zr as [-> | ->]; vm_compute; reflexivity|].
      split; [rewrite (proj2 (leb_zero_sign x _ x Zr Zx)); apply leb_refl_double, Hx|].
      split; [rewrite (proj2 (leb_zero_sign y _ y Zr Zy)); apply leb_refl_double, Hy|].
      intros lo Hlo _. rewrite (proj1 (leb_zero_sign lo _ x Zr Zx)). exact Hlo.
    + repeat split; auto using leb_refl_double.
Qed.

Lemma clamp_double (v lo hi : float) :
  not_nan lo -> not_nan hi ->
  (not_nan v -> (lo <=. hi) = true ->
     not_nan (clamp v lo hi) /\
     (lo <=. clamp v lo hi) = true /\ (clamp v lo hi <=. hi) = true) /\
  (F64.is_nan v = true -> F64.is_nan (clamp v lo hi) = true).
Proof.
  intros Hlo Hhi. split.
  - intros Hv Hle.
    destruct (max_double lo v Hlo Hv) as (Hm & Hlm & _).
    destruct (min_double hi (F64.max lo v) Hhi Hm) as (Hr & Hrh & _ & Hglb).
    split; [exact Hr|]. split; [apply Hglb; assumption|exact Hrh].
  - intros Hv. unfold clamp. cbn [Math_min Math_max float_number].
    unfold F64.max at 1. rewrite Hlo, Hv.
    unfold F64.min. rewrite Hhi, Hv. exact Hv.
Qed.

Lemma clamp_within (v lo hi : float) :
  not_nan lo -> not_nan hi -> (lo <=. hi) = true -> within_double lo hi (clamp v lo hi).
Proof.
  intros Hlo Hhi Hle. destruct (clamp_double v lo hi Hlo Hhi) as [Hin Hnan].
  destruct (F64.is_nan v) eqn:Hv.
  - left. apply Hnan. reflexivity.
  - right. destruct (Hin Hv Hle) as (_ & H1 & H2). split; assumption.
Qed.

Lemma is_nan_spec x : F64.is_nan x = true <-> Prim2SF x = S754_nan.
Proof.
  split.
  - intros E. destruct (Prim2SF x) as [s|s| |s m e] eqn:Hp; try reflexivity;
      assert (Hn : not_nan x) by (apply not_nan_spec; rewrite Hp; discriminate);
      unfold not_nan in Hn; congruence.
  - intros Hp. destruct (F64.is_nan x) eqn:E; [reflexivity|].
    apply not_nan_spec in E. contradiction.
Qed.

Lemma sub_nan (x y : float) :
  F64.is_nan x = true \/ F64.is_nan y = true -> F64.is_nan (PrimFloat.sub x y) = true.
Proof.
  rewrite !is_nan_spec, sub_spec. unfold SF64sub.
  intros [-> | ->]; [reflexivity|]. destruct (Prim2SF x); reflexivity.
Qed.

Lemma nan_not_le (x y : float) : F64.is_nan x = true -> PrimFloat.leb x y = false.
Proof.
  rewrite is_nan_spec, leb_spec. intros ->. reflexivity.
Qed.

Lemma is_zero_spec x : is_zero x <-> exists s, Prim2SF x = S754_zero s.
Proof.
  split.
  - intros [-> | ->]; eexists; reflexivity.
  - intros (s & E). rewrite <- (SF2Prim_Prim2SF x), E. destruct s; [right|left]; reflexivity.
Qed.

Lemma mul_zero_double z d : is_zero z -> isFinite d = true -> is_zero (PrimFloat.mul z d).
Proof.
  intros Hz Hd. apply is_zero_spec in Hz as (s & Ez). apply is_zero_spec.
  rewrite mul_spec, Ez.
  destruct (isFinite_spec d Hd) as [(sd & ->)|(sd & m & e & ->)]; eexists; reflexivity.
Qed.

(** Adding a zero gives the number back, up to the sign of a zero. *)
Lemma add_zero_double x z :
  not_nan x -> is_zero z -> PrimFloat.add x z = x \/ (is_zero (PrimFloat.add x z) /\ is_zero x).
Proof.
  intros Hx Hz. apply not_nan_spec in Hx. apply is_zero_spec in Hz as (s & Ez).
  destruct (Prim2SF x) as [sx|sx| |sx m e] eqn:Ex; try contradiction.
  - right. split; apply is_zero_spec; [|eauto].
    rewrite add_spec, Ex, Ez. unfold SF64add, SFadd.
    destruct sx, s; eexists; reflexivity.
  - left. apply Prim2SF_inj. rewrite add_spec, Ex, Ez. reflexivity.
  - left. apply Prim2SF_inj. rewrite add_spec, Ex, Ez. reflexivity.
Qed.

Lemma eqb_zeros x y : is_zero x -> is_zero y -> PrimFloat.eqb x y = true.
Proof. intros [-> | ->] [-> | ->]; reflexivity. Qed.

Lemma eqb_refl_double x : not_nan x -> PrimFloat.eqb x x = true.
Proof.
  intros Hx. apply not_nan_spec in Hx. rewrite eqb_spec. unfold SFeqb.
  rewrite (SFcompare_refl _ Hx). reflexivity.
Qed.

Lemma leb_not_nan x y : PrimFloat.leb x y = true -> not_nan x /\ not_nan y.
Proof.
  rewrite leb_spec. unfold SFleb. intros E.
  split; apply not_nan_spec; intros Hn; rewrite Hn in E;
    [|destruct (Prim2SF x)]; discriminate.
Qed.

Lemma leb_not_ltb x y : PrimFloat.leb x y = true -> PrimFloat.ltb y x = false.
Proof.
  rewrite leb_spec, ltb_spec. unfold SFleb, SFltb.
  destruct (SFcompare (Prim2SF x) (Prim2SF y)) as [[| |]|] eqn:E; try discriminate; intros _.
  - rewrite (SFcompare_Eq_sym _ _ E). reflexivity.
  - rewrite (SFcompare_Lt_Gt _ _ E). reflexivity.
Qed.

(** Doubles that compare equal are the same double, or two zeros. *)
Lemma eqb_cases x y : PrimFloat.eqb x y = true -> x = y \/ (is_zero x /\ is_zero y).
Proof.
  rewrite eqb_spec. unfold SFeqb. intros E.
  destruct (Prim2SF x) as [sx|sx| |sx mx ex] eqn:Ex,
           (Prim2SF y) as [sy|sy| |sy my ey] eqn:Ey;
    cbn [SFcompare] in E; try discriminate;
    try (destruct sx; discriminate); try (destruct sy; discriminate).
  - right. split; apply is_zero_spec; eauto.
  - left. apply Prim2SF_inj. rewrite Ex, Ey.
    destruct sx, sy; try discriminate; reflexivity.
  - left. apply Prim2SF_inj. rewrite Ex, Ey.
    destruct sx, sy; try discriminate;
      destruct (Z.compare_spec ex ey) as [->| |]; try discriminate;
      destruct (Pos.compare_cont Eq mx my) eqn:Ec; try discriminate;
      apply Pcompare_Eq_eq in Ec; subst my; reflexivity.
Qed.

(** A double between 0 and the upper bound is its own clamp, up to the sign
    of a zero. *)
Lemma clamp_fixed (v hi : float) :
  (of_Z 0 <=. v) = true -> (v <=. hi) = true -> (clamp v (of_Z 0) hi =. v) = true.
Proof.
  intros H0 Hh.
  destruct (leb_not_nan _ _ H0) as [Hz Hv]. destruct (leb_not_nan _ _ Hh) as [_ Hhi].
  assert (HM : not_nan (F64.max (of_Z 0) v) /\
               (F64.max (of_Z 0) v = v \/ (is_zero (F64.max (of_Z 0) v) /\ is_zero v))).
  { unfold F64.max. rewrite Hz, Hv.
    destruct (double_order (of_Z 0) v Hz Hv)
      as [(H1 & H2 & H3)|[(H1 & H2 & H3)|(He & H1 & H2 & H3 & H4)]]; rewrite ?H1, ?H2.
    - auto.
    - cbn [num_le float_number] in H0. rewrite (leb_not_ltb _ _ H0) in H1. discriminate.
    - change (PrimFloat.eqb (of_Z 0) 0%float) with true. cbv iota.
      destruct (eqb_cases _ _ He) as [<-|[_ Zv]].
      + split; [vm_compute; reflexivity|left; vm_compute; reflexivity].
      + split; [destruct Zv as [-> | ->]; vm_compute; reflexivity|].
        right. split; [|exact Zv]. destruct Zv as [-> | ->]; left; vm_compute; reflexivity. }
  destruct HM as [HMn HM].
  set (M := F64.max (of_Z 0) v) in HMn, HM |- * .
  assert (HMv : PrimFloat.eqb M v = true).
  { destruct HM as [->|[Z1 Z2]]; [apply eqb_refl_double, Hv|apply eqb_zeros; assumption]. }
  assert (HMh : PrimFloat.leb M hi = true).
  { destruct HM as [->|[Z1 Z2]]; [exact Hh|].
    rewrite (proj2 (leb_zero_sign hi M v Z1 Z2)). exact Hh. }
  unfold clamp. cbn [Math_min Math_max num_eq float_number]. fold M.
  unfold F64.min. rewrite Hhi, HMn.
  rewrite (leb_not_ltb _ _ HMh).
  destruct (PrimFloat.ltb M hi) eqn:Hlt; [exact HMv|].
  assert (Heq : PrimFloat.eqb hi M = true).
  { destruct (double_order hi M Hhi HMn)
      as [(H1 & _)|[(H1 & _)|(He & _)]]; [|congruence|exact He].
    rewrite (leb_not_ltb _ _ HMh) in H1. discriminate. }
  destruct (PrimFloat.eqb hi 0%float) eqn:Ez.
  - destruct (eqb_zero_both hi M Heq Ez) as [Zh ZM].
    apply eqb_zeros.
    + destruct Zh as [-> | ->], ZM as [-> | ->];
        first [left; vm_compute; reflexivity | right; vm_compute; reflexivity].
    + destruct HM as [Hmv|[_ Zv]]; [rewrite <- Hmv; exact ZM|exact Zv].
  - destruct (eqb_cases _ _ Heq) as [Hhm|[Zh _]]; [rewrite Hhm; exact HMv|].
    destruct Zh as [-> | ->]; vm_compute in Ez; discriminate.
Qed.

Lemma eqb_trans_double x y z :
  PrimFloat.eqb x y = true -> PrimFloat.eqb y z = true -> PrimFloat.eqb x z = true.
Proof.
  intros Exy Eyz.
  destruct (eqb_cases _ _ Exy) as [->|[Zx Zy]]; [exact Eyz|].
  destruct (eqb_cases _ _ Eyz) as [<-|[_ Zz]]; [exact Exy|].
  apply eqb_zeros; assumption.
Qed.

(** Concrete facts about rationals, by evaluation. *)
Ltac by_evaluation := vm_compute; first [reflexivity | discriminate | intuition discriminate].

(** ** Utils.js: [clamp] *)

(** X1.  Over exact rationals [clamp v lo hi] lies between [lo] and [hi] when
    [lo <= hi], is [v] itself when [v] already lies between them, is [hi]
    whatever [v] is when the bounds are inverted, and clamping twice is
    clamping once.  Over doubles, with bounds that are not NaN: the clamp of
    a [v] that is not NaN lies between [lo] and [hi] when [lo <= hi] (signed
    zeros included) and is not NaN, and the clamp of NaN is NaN. *)
Theorem X1_clamp_keeps_range :
  (forall v lo hi : Q,
      ((lo <= hi)%Q -> (lo <= clamp v lo hi)%Q /\ (clamp v lo hi <= hi)%Q) /\
      ((lo <= v)%Q -> (v <= hi)%Q -> (clamp v lo hi == v)%Q) /\
      ((hi < lo)%Q -> (clamp v lo hi == hi)%Q) /\
      (clamp (clamp v lo hi) lo hi == clamp v lo hi)%Q) /\
  (forall v lo hi : float,
      not_nan lo -> not_nan hi ->
      (not_nan v -> (lo <=. hi) = true ->
         not_nan (clamp v lo hi) /\
         (lo <=. clamp v lo hi) = true /\ (clamp v lo hi <=. hi) = true) /\
      (F64.is_nan v = true -> F64.is_nan (clamp v lo hi) = true)).
Proof.
  split; [|intros v lo hi; apply clamp_double].
  intros v lo hi.
  change (clamp (clamp v lo hi) lo hi) with (Qmin hi (Qmax lo (Qmin hi (Qmax lo v)))).
  change (clamp v lo hi) with (Qmin hi (Qmax lo v)).
  assert (Hinv : (hi < lo)%Q -> forall w, (Qmin hi (Qmax lo w) == hi)%Q).
  { intros Hlt w. apply Q.min_l.
    eapply Qle_trans; [apply Qlt_le_weak, Hlt|apply Q.le_max_l]. }
  split; [|split; [|split]].
  - intros Hle. split.
    + apply Q.min_glb; [exact Hle | apply Q.le_max_l].
    + apply Q.le_min_l.
  - intros H1 H2. rewrite (Q.max_r lo v) by exact H1. apply Q.min_r. exact H2.
  - intros Hlt. apply Hinv, Hlt.
  - destruct (Qlt_le_dec hi lo) as [Hlt|Hle].
    + rewrite (Hinv Hlt v). apply Hinv, Hlt.
    + assert (H1 : (lo <= Qmin hi (Qmax lo v))%Q)
        by (apply Q.min_glb; [exact Hle | apply Q.le_max_l]).
      assert (H2 : (Qmin hi (Qmax lo v) <= hi)%Q) by apply Q.le_min_l.
      rewrite (Q.max_r lo _) by exact H1. apply Q.min_r. exact H2.
Qed.

Lemma X1_witness :
  ((0 <= 540)%Q /\ (0 <= clamp (-3) 0 540)%Q /\ (clamp (-3) 0 540 <= 540)%Q) /\
  ((540 < 600)%Q /\ (clamp 7 600 540 == 540)%Q) /\
  (not_nan (of_Z 0 : float) /\ not_nan (of_Z 866 : float) /\
   not_nan (of_Z 900 : float) /\
   ((of_Z 0 : float) <=. of_Z 866) = true /\
   (clamp (of_Z 900 : float) (of_Z 0) (of_Z 866) <=. of_Z 866) = true).
Proof.
  assert (H1 : (0 <= 540)%Q) by by_evaluation.
  assert (H2 : (540 < 600)%Q) by by_evaluation.
  assert (H3 : not_nan (of_Z 0 : float)) by (vm_compute; reflexivity).
  assert (H4 : not_nan (of_Z 866 : float)) by (vm_compute; reflexivity).
  assert (H5 : not_nan (of_Z 900 : float)) by (vm_compute; reflexivity).
  assert (H6 : ((of_Z 0 : float) <=. of_Z 866) = true) by (vm_compute; reflexivity).
  split; [|split].
  - split; [exact H1|].
    exact (proj1 (proj1 X1_clamp_keeps_range (-3)%Q 0%Q 540%Q) H1).
  - split; [exact H2|].
    exact (proj1 (proj2 (proj2 (proj1 X1_clamp_keeps_range 7%Q 600%Q 540%Q))) H2).
  - split; [exact H3|]. split; [exact H4|]. split; [exact H5|]. split; [exact H6|].
    exact (proj2 (proj2 (proj1 (proj2 X1_clamp_keeps_range (of_Z 900) (of_Z 0) (of_Z 866)
                                  H3 H4) H5 H6))).
Defined.

(** ** input.js: the held keys *)

Lemma has_add i k k' :
  Input.has (Input.add k i) k' = Input.has i k' || String.eqb k' k.
Proof.
  unfold Input.add. destruct (Input.has i k) eqn:E.
  - destruct (String.eqb_spec k' k) as [->|]; [rewrite E|rewrite orb_false_r]; reflexivity.
  - unfold Input.has. cbn [Input.keys]. rewrite existsb_app. cbn [existsb].
    rewrite orb_false_r. reflexivity.
Qed.

Lemma has_delete i k k' :
  Input.has (Input.delete k i) k' = Input.has i k' && negb (String.eqb k k').
Proof.
  unfold Input.has, Input.delete. cbn [Input.keys].
  induction (Input.keys i) as [|a l IH]; [reflexivity|].
  cbn [filter existsb].
  destruct (String.eqb_spec k a) as [->|Hne]; cbn [negb existsb].
  - rewrite IH. destruct (String.eqb_spec k' a) as [->|Hne'].
    + rewrite String.eqb_refl. cbn. rewrite andb_false_r. reflexivity.
    + reflexivity.
  - rewrite IH. destruct (String.eqb_spec k' a) as [->|Hne'].
    + destruct (String.eqb_spec k a); [contradiction|]. cbn. reflexivity.
    + reflexivity.
Qed.

Lemma has_In i k : Input.has i k = true <-> In k (Input.keys i).
Proof.
  unfold Input.has. rewrite existsb_exists. split.
  - intros (x & Hx & E). apply String.eqb_eq in E. subst. exact Hx.
  - intros Hk. exists k. split; [exact Hk|apply String.eqb_refl].
Qed.

Lemma add_NoDup i k : NoDup (Input.keys i) -> NoDup (Input.keys (Input.add k i)).
Proof.
  intros Hn. unfold Input.add. destruct (Input.has i k) eqn:E; [exact Hn|].
  cbn [Input.keys]. apply NoDup_app; [exact Hn|repeat constructor; intros []|].
  intros x Hx [<-|[]]. apply has_In in Hx. congruence.
Qed.

Lemma delete_NoDup i k : NoDup (Input.keys i) -> NoDup (Input.keys (Input.delete k i)).
Proof. intros Hn. unfold Input.delete. cbn [Input.keys]. apply NoDup_filter, Hn. Qed.

Lemma input_onKeyDown {N} (g : t N) k :
  input (onKeyDown k g) = Input.add k (input g).
Proof.
  unfold onKeyDown. destruct (_ || _); [|reflexivity].
  unfold togglePause. destruct (state g); reflexivity.
Qed.

(** X2.  The two keyboard listeners keep the set of held keys: after a
    keydown the key is held, after a keyup it is not (however many keydowns
    came before), no other key is affected, the set never holds a key twice,
    and a keydown followed by the keyup of the same key leaves the set as a
    keyup alone would. *)
Theorem X2_key_events_track_held_keys {N} (g : t N) (k k' : string) :
  Input.has (input (onKeyDown k g)) k = true /\
  Input.has (input (onKeyUp k g)) k = false /\
  (k' <> k ->
     Input.has (input (onKeyDown k g)) k' = Input.has (input g) k' /\
     Input.has (input (onKeyUp k g)) k' = Input.has (input g) k') /\
  (NoDup (Input.keys (input g)) ->
     NoDup (Input.keys (input (onKeyDown k g))) /\
     NoDup (Input.keys (input (onKeyUp k g)))) /\
  input (onKeyUp k (onKeyDown k g)) = Input.delete k (input g).
Proof.
  rewrite !input_onKeyDown.
  change (input (onKeyUp k g)) with (Input.delete k (input g)).
  split; [|split; [|split; [|split]]].
  - rewrite has_add, String.eqb_refl. apply orb_true_r.
  - rewrite has_delete, String.eqb_refl. apply andb_false_r.
  - intros Hne. rewrite has_add, has_delete.
    destruct (String.eqb_spec k' k) as [->|_]; [contradiction|].
    destruct (String.eqb_spec k k') as [->|_]; [contradiction|].
    rewrite orb_false_r, andb_true_r. split; reflexivity.
  - intros Hn. split; [apply add_NoDup|apply delete_NoDup]; exact Hn.
  - unfold onKeyUp. cbn [input set_input]. rewrite input_onKeyDown.
    unfold Input.add. destruct (Input.has (input g) k) eqn:E; [reflexivity|].
    unfold Input.delete. cbn [Input.keys]. f_equal.
    rewrite filter_app. cbn [filter]. rewrite String.eqb_refl. cbn [negb].
    apply app_nil_r.
Qed.

Lemma X2_witness :
  "ArrowLeft"%string <> "ArrowRight"%string /\
  Input.has (input (onKeyUp "ArrowRight" (onKeyDown "ArrowLeft" (@new Q _)))) "ArrowLeft" = true.
Proof.
  assert (Hne : "ArrowLeft"%string <> "ArrowRight"%string) by discriminate.
  split; [exact Hne|].
  destruct (X2_key_events_track_held_keys (onKeyDown "ArrowLeft" (@new Q _))
              "ArrowRight" "ArrowLeft") as (_ & _ & Hother & _).
  rewrite (proj2 (Hother Hne)).
  exact (proj1 (X2_key_events_track_held_keys (@new Q _) "ArrowLeft" "ArrowLeft")).
Defined.

(** ** Pause *)

Lemma togglePause_involutive {N} (g : t N) : togglePause (togglePause g) = g.
Proof. destruct g as [s]. destruct s; reflexivity. Qed.

(** X3.  The key [p] or [P] switches between [PLAYING] and [PAUSED], leaves
    every other state alone, and changes nothing else but the set of held
    keys; any other key only joins the held keys.  Toggling twice gives the
    game back, and so does pausing, letting any number of updates pass and
    resuming. *)
Theorem X3_pause_key_toggles {N} `{JsNumber N} (host : Host N) (g : t N) (k : string) :
  (k = "p"%string \/ k = "P"%string ->
     onKeyDown k g = set_input (Input.add k (input g))
                       (set_state (match state g with
                                   | PLAYING => PAUSED
                                   | PAUSED => PLAYING
                                   | s => s
                                   end) g)) /\
  (k <> "p"%string -> k <> "P"%string ->
     onKeyDown k g = set_input (Input.add k (input g)) g) /\
  togglePause (togglePause g) = g /\
  (forall fuel dts, state g = PLAYING ->
     exists g1, updates host fuel dts (togglePause g) = Ok g1 /\ togglePause g1 = g).
Proof.
  split; [|split; [|split]].
  - intros Hk. unfold onKeyDown.
    assert (E : (String.eqb k "p" || String.eqb k "P") = true)
      by (destruct Hk as [-> | ->]; reflexivity).
    rewrite E. unfold togglePause. destruct g as [s]. destruct s; reflexivity.
  - intros H1 H2. unfold onKeyDown.
    destruct (String.eqb_spec k "p"); [contradiction|].
    destruct (String.eqb_spec k "P"); [contradiction|]. reflexivity.
  - apply togglePause_involutive.
  - intros fuel dts Hs. exists (togglePause g). split.
    + apply updates_idle. unfold togglePause. rewrite Hs. cbn. discriminate.
    + apply togglePause_involutive.
Qed.

Lemma X3_witness :
  state (@started Q _) = PLAYING /\
  state (onKeyDown "p" (@started Q _)) = PAUSED /\
  exists g1, updates demo_host 1 [dec 33 3; dec 33 3] (togglePause (@started Q _)) = Ok g1 /\
             togglePause g1 = started.
Proof.
  assert (Hs : state (@started Q _) = PLAYING) by (vm_compute; reflexivity).
  split; [exact Hs|]. split.
  - rewrite (proj1 (X3_pause_key_toggles demo_host (@started Q _) "p") (or_introl eq_refl)).
    cbn [state set_input set_state]. rewrite Hs. reflexivity.
  - exact (proj2 (proj2 (proj2 (X3_pause_key_toggles demo_host (@started Q _) "p")))
             1 [dec 33 3; dec 33 3] Hs).
Defined.

(** ** Farmer.js: [handleInput] *)

Lemma axis_cases a b (s : Q) :
  (axis a b s == if a then (if b then 0 else s) else (if b then - s else 0))%Q.
Proof.
  unfold axis, of_bool. cbn [of_Z num_sub num_mul Q_number].
  destruct a, b; unfold inject_Z; ring.
Qed.

Lemma axis_zero a b (s : Q) : (0 < s)%Q -> (axis a b s =. of_Z 0) = negb (xorb a b).
Proof.
  intros Hs. cbn [num_eq of_Z Q_number].
  pose proof (axis_cases a b s) as E.
  destruct a, b; cbn [xorb negb] in E |- * .
  - apply Qeq_bool_iff. exact E.
  - apply Qeq_bool_false_iff. rewrite E. unfold inject_Z. intros H0. lra.
  - apply Qeq_bool_false_iff. rewrite E. unfold inject_Z. intros H0. lra.
  - apply Qeq_bool_iff. exact E.
Qed.

Lemma axis_pos a b (s : Q) : (0 < s)%Q -> (axis a b s >. of_Z 0) = a && negb b.
Proof.
  intros Hs. pose proof (axis_cases a b s) as E.
  destruct a, b; cbn [andb negb] in E |- *;
    first [ apply lt_Q | apply lt_Q_false ]; cbn [of_Z Q_number]; rewrite E;
    unfold inject_Z; lra.
Qed.

Lemma axis_abs a b (s : Q) : (0 < s)%Q -> (Qabs (axis a b s) == if xorb a b then s else 0)%Q.
Proof.
  intros Hs. rewrite (axis_cases a b s).
  destruct a, b; cbn [xorb].
  - reflexivity.
  - apply Qabs_pos. lra.
  - rewrite Qabs_opp. apply Qabs_pos. lra.
  - reflexivity.
Qed.

Lemma abs_gt a b c d (s : Q) : (0 < s)%Q ->
  (Math_abs (axis a b s) >. Math_abs (axis c d s)) = xorb a b && negb (xorb c d).
Proof.
  intros Hs. cbn [Math_abs Q_number].
  pose proof (axis_abs a b s Hs) as E1. pose proof (axis_abs c d s Hs) as E2.
  destruct (xorb a b), (xorb c d); cbn [andb negb];
    first [ apply lt_Q | apply lt_Q_false ]; rewrite E1, E2; lra.
Qed.

Lemma handleInput_base {N} `{JsNumber N} i (p : Farmer.t N) :
  Farmer.base (Farmer.handleInput i p) = Farmer.base p.
Proof. unfold Farmer.handleInput. cbv zeta. destruct (negb _ || negb _); reflexivity. Qed.

Lemma handleInput_velocity {N} `{JsNumber N} (i : Input.t) (f : Farmer.t N) :
  Farmer.vx (Farmer.handleInput i f)
    = axis (Input.has i "ArrowRight") (Input.has i "ArrowLeft") (Farmer.speed f) /\
  Farmer.vy (Farmer.handleInput i f)
    = axis (Input.has i "ArrowDown") (Input.has i "ArrowUp") (Farmer.speed f).
Proof.
  unfold Farmer.handleInput. cbv zeta. destruct (negb _ || negb _); split; reflexivity.
Qed.

(** X4.  [handleInput] gives each axis the velocity [+speed], [-speed] or 0,
    the two keys of an axis cancelling each other; the player is moving
    exactly when some axis has one key held without its opposite.  The sprite
    row follows the horizontal axis whenever that axis moves (right 2, left
    1), diagonals included, and otherwise the vertical one (down 0, up 3); a
    player that stops keeps its row and shows frame 0.  Position and speed
    are left alone.  This holds over exact rationals for every positive
    speed, and over doubles for the two speeds the game uses, 260 and
    260 * 1.5. *)
Theorem X4_handleInput_direction :
  (forall (input : Input.t) (f : Farmer.t Q),
      (0 < Farmer.speed f)%Q ->
      let L := Input.has input "ArrowLeft" in
      let R := Input.has input "ArrowRight" in
      let U := Input.has input "ArrowUp" in
      let D := Input.has input "ArrowDown" in
      let f' := Farmer.handleInput input f in
      (Farmer.vx f' == if R then (if L then 0 else Farmer.speed f)
                       else (if L then - Farmer.speed f else 0))%Q /\
      (Farmer.vy f' == if D then (if U then 0 else Farmer.speed f)
                       else (if U then - Farmer.speed f else 0))%Q /\
      Farmer.isMoving f' = xorb L R || xorb U D /\
      Farmer.currentRow f' =
        (if xorb L R then (if R then 2 else 1)
         else if xorb U D then (if D then 0 else 3)
         else Farmer.currentRow f) /\
      Farmer.currentFrame f' =
        (if xorb L R || xorb U D then Farmer.currentFrame f else 0) /\
      Farmer.base f' = Farmer.base f /\ Farmer.speed f' = Farmer.speed f) /\
  (forall (input : Input.t) (f : Farmer.t float),
      Farmer.speed f = of_Z 260 \/ Farmer.speed f = of_Z 260 *. dec 15 1 ->
      let L := Input.has input "ArrowLeft" in
      let R := Input.has input "ArrowRight" in
      let U := Input.has input "ArrowUp" in
      let D := Input.has input "ArrowDown" in
      let f' := Farmer.handleInput input f in
      Farmer.vx f' = (if R then (if L then of_Z 0 else Farmer.speed f)
                      else (if L then -. Farmer.speed f else of_Z 0)) /\
      Farmer.vy f' = (if D then (if U then of_Z 0 else Farmer.speed f)
                      else (if U then -. Farmer.speed f else of_Z 0)) /\
      Farmer.isMoving f' = xorb L R || xorb U D /\
      Farmer.currentRow f' =
        (if xorb L R then (if R then 2 else 1)
         else if xorb U D then (if D then 0 else 3)
         else Farmer.currentRow f) /\
      Farmer.currentFrame f' =
        (if xorb L R || xorb U D then Farmer.currentFrame f else 0) /\
      Farmer.base f' = Farmer.base f /\ Farmer.speed f' = Farmer.speed f).
Proof.
  split.
  - intros input f Hs L R U D f'.
    assert (Ef : f' =
      let vx' := axis R L (Farmer.speed f) in
      let vy' := axis D U (Farmer.speed f) in
      if negb (vx' =. of_Z 0) || negb (vy' =. of_Z 0) then
        Farmer.make (Farmer.base f) (Farmer.speed f) vx' vy' (Farmer.baseSpeed f)
          (Farmer.speedBoostEnd f)
          (if Math_abs vy' >. Math_abs vx'
           then (if vy' >. of_Z 0 then 0 else 3)
           else (if vx' >. of_Z 0 then 2 else 1))
          (Farmer.currentFrame f) (Farmer.frameTime f) (Farmer.frameDuration f)
          (Farmer.cellSize f) true
      else
        Farmer.make (Farmer.base f) (Farmer.speed f) vx' vy' (Farmer.baseSpeed f)
          (Farmer.speedBoostEnd f) (Farmer.currentRow f) 0 (Farmer.frameTime f)
          (Farmer.frameDuration f) (Farmer.cellSize f) false) by reflexivity.
    cbv zeta in Ef.
    rewrite (axis_zero R L _ Hs), (axis_zero D U _ Hs), !negb_involutive in Ef.
    rewrite (abs_gt D U R L _ Hs), (axis_pos R L _ Hs), (axis_pos D U _ Hs) in Ef.
    rewrite Ef. rewrite (xorb_comm L R), (xorb_comm U D).
    pose proof (axis_cases R L (Farmer.speed f)) as Ex.
    pose proof (axis_cases D U (Farmer.speed f)) as Ey.
    destruct R, L, D, U; cbn [xorb orb andb negb Farmer.vx Farmer.vy Farmer.isMoving
       Farmer.currentRow Farmer.currentFrame Farmer.base Farmer.speed] in Ex, Ey |- *;
      repeat split; assumption.
  - intros input f Hs. cbv zeta. unfold Farmer.handleInput. cbv zeta.
    destruct (Input.has input "ArrowLeft"), (Input.has input "ArrowRight"),
             (Input.has input "ArrowUp"), (Input.has input "ArrowDown");
      destruct Hs as [-> | ->]; vm_compute; repeat split; reflexivity.
Qed.

Lemma X4_witness :
  ((0 < Farmer.speed fresh_player)%Q /\
   Farmer.currentRow (Farmer.handleInput heading_down_right fresh_player) = 2 /\
   Farmer.isMoving (Farmer.handleInput heading_down_right fresh_player) = true) /\
  (Farmer.speed fresh_player_double = of_Z 260 /\
   Farmer.vx (Farmer.handleInput heading_down_right fresh_player_double) = of_Z 260).
Proof.
  assert (Hs : (0 < Farmer.speed fresh_player)%Q) by by_evaluation.
  assert (Hd : Farmer.speed fresh_player_double = of_Z 260) by reflexivity.
  split.
  - split; [exact Hs|].
    destruct (proj1 X4_handleInput_direction heading_down_right fresh_player Hs)
      as (_ & _ & Hm & Hr & _).
    split; [rewrite Hr|rewrite Hm]; vm_compute; reflexivity.
  - split; [exact Hd|].
    destruct (proj2 X4_handleInput_direction heading_down_right fresh_player_double
                (or_introl Hd)) as (Hvx & _).
    rewrite Hvx. vm_compute. reflexivity.
Defined.

(** ** Game.js: [start], [reset] and [resetWithConfig] *)

Lemma place_scarecrows_rnd {N} `{JsNumber N} (host : Host N) n (g : t N) :
  rnd (place_scarecrows host n g) = rnd g + 2 * n.
Proof.
  revert g. induction n as [|n IH]; intros g; cbn [place_scarecrows].
  - lia.
  - rewrite IH. cbn [rnd set_rnd]. lia.
Qed.

Lemma resetWithConfig_restarts {N} `{JsNumber N} (host : Host N) cfg lc rest (g : t N) :
  Config.levels cfg = lc :: rest ->
  exists g', resetWithConfig host cfg g = Ok g' /\
             state g' = MENU /\ config g' = config g /\ restarted host lc g g'.
Proof.
  intros Hl. unfold resetWithConfig, level_config. rewrite Hl. cbn [nth_error bind].
  eexists. split; [reflexivity|].
  split; [apply place_scarecrows_inv; [intros ? ? ? Hg; exact Hg | reflexivity]|].
  split; [apply place_scarecrows_inv; [intros ? ? ? Hg; exact Hg | reflexivity]|].
  unfold restarted.
  repeat match goal with
         | |- _ /\ _ => split
         end;
    try (apply place_scarecrows_inv; [intros ? ? ? Hg; exact Hg | reflexivity]).
  - rewrite place_scarecrows_length. reflexivity.
  - rewrite place_scarecrows_rnd. reflexivity.
Qed.

Lemma resetWithConfig_empty {N} `{JsNumber N} (host : Host N) cfg (g : t N) :
  Config.levels cfg = [] -> resetWithConfig host cfg g = Throws.
Proof. intros Hl. unfold resetWithConfig, level_config. rewrite Hl. reflexivity. Qed.

Lemma resetWithConfig_Ok {N} `{JsNumber N} (host : Host N) cfg (g g' : t N) :
  resetWithConfig host cfg g = Ok g' ->
  exists lc rest, Config.levels cfg = lc :: rest /\
                  state g' = MENU /\ config g' = config g /\ restarted host lc g g'.
Proof.
  intros E. destruct (Config.levels cfg) as [|lc rest] eqn:Hl.
  - rewrite (resetWithConfig_empty host cfg g Hl) in E. discriminate.
  - destruct (resetWithConfig_restarts host cfg lc rest g Hl) as (g1 & E1 & Hs & Hc & Hr).
    rewrite E1 in E. injection E as <-. exists lc, rest. auto.
Qed.

(** The handlers of a finished load: the loaded configuration when it has a
    first level, the built-in one otherwise. *)
Lemma config_loaded_cases {N} `{JsNumber N} (host : Host N) fetched (g : t N) :
  exists cfg lc rest g1,
    config_loaded host fetched g = Ok (set_state PLAYING g1) /\
    Config.levels cfg = lc :: rest /\
    state g1 = MENU /\ config g1 = Some cfg /\ restarted host lc g g1 /\
    resetWithConfig host cfg (set_config (Some cfg) g) = Ok g1 /\
    match fetched with
    | Some c => match Config.levels c with
                | [] => cfg = default_config
                | _ :: _ => cfg = c
                end
    | None => cfg = default_config
    end.
Proof.
  assert (Hreset : forall c lc rest, Config.levels c = lc :: rest ->
            exists g1, resetWithConfig host c (set_config (Some c) g) = Ok g1 /\
                       state g1 = MENU /\ config g1 = Some c /\ restarted host lc g g1).
  { intros c lc rest Hl.
    destruct (resetWithConfig_restarts host c lc rest (set_config (Some c) g) Hl)
      as (g1 & E & Hs & Hc & Hr).
    exists g1. split; [exact E|]. split; [exact Hs|]. split; [exact Hc|exact Hr]. }
  assert (Hfb : exists lc rest g1,
            (g' <- resetWithConfig host default_config
                     (set_config (Some default_config) g) ;;
             Ok (set_state PLAYING g')) = Ok (set_state PLAYING g1) /\
            Config.levels (default_config (N := N)) = lc :: rest /\
            state g1 = MENU /\ config g1 = Some default_config /\
            restarted host lc g g1 /\
            resetWithConfig host default_config (set_config (Some default_config) g)
              = Ok g1).
  { destruct (Hreset default_config _ _ eq_refl) as (g1 & E & Hs & Hc & Hr).
    eexists _, _, g1. rewrite E. cbn [bind].
    split; [reflexivity|]. split; [reflexivity|]. auto. }
  unfold config_loaded. cbv zeta.
  destruct fetched as [c|].
  - destruct (Config.levels c) as [|lc rest] eqn:Hl.
    + rewrite (resetWithConfig_empty host c _ Hl).
      destruct Hfb as (lc & rest & g1 & E & Hl' & Hs & Hc & Hr & E').
      exists default_config, lc, rest, g1. auto 10.
    + destruct (Hreset c lc rest Hl) as (g1 & E & Hs & Hc & Hr).
      exists c, lc, rest, g1. rewrite E. auto 10.
  - destruct Hfb as (lc & rest & g1 & E & Hl' & Hs & Hc & Hr & E').
    exists default_config, lc, rest, g1. auto 10.
Qed.

Lemma start_not_paused {N} `{JsNumber N} (host : Host N) fetched (g : t N) :
  state g <> PAUSED -> start host fetched g = config_loaded host fetched g.
Proof.
  intros Hs. unfold start, config_loaded. destruct (state g); try contradiction; reflexivity.
Qed.

(** X5.  [start] on a paused game only resumes it.  In every other state it
    restarts the game from level 1 with the loaded configuration (score 0,
    goal, clock and spawn intervals of the first level, empty lists, as many
    scarecrows as the level asks for, a new player, the input kept) and
    enters [PLAYING]; when the load fails or the loaded configuration has no
    level, it does the same with the built-in levels. *)
Theorem X5_start_resumes_or_restarts {N} `{JsNumber N} (host : Host N)
        (fetched : option (Config.t N)) (g : t N) :
  (state g = PAUSED -> start host fetched g = Ok (set_state PLAYING g)) /\
  (state g <> PAUSED ->
     forall cfg lc rest, fetched = Some cfg -> Config.levels cfg = lc :: rest ->
     exists g', start host fetched g = Ok g' /\
                state g' = PLAYING /\ config g' = Some cfg /\ restarted host lc g g') /\
  (state g <> PAUSED ->
     fetched = None \/ (exists cfg, fetched = Some cfg /\ Config.levels cfg = []) ->
     exists g', start host fetched g = Ok g' /\
                state g' = PLAYING /\ config g' = Some default_config /\
                restarted host (LevelConfig.make (of_Z 15) (of_Z 60) (dec 8 1)
                                                 (of_Z 5) (of_Z 10) 2) g g').
Proof.
  split; [|split].
  - intros Hs. unfold start. rewrite Hs. reflexivity.
  - intros Hs cfg lc rest -> Hl. rewrite start_not_paused by exact Hs.
    destruct (config_loaded_cases host (Some cfg) g)
      as (cfg' & lc' & rest' & g1 & E & Hl' & _ & Hc & Hr & _ & Hcfg).
    rewrite Hl in Hcfg. subst cfg'. rewrite Hl in Hl'. injection Hl' as <- <-.
    exists (set_state PLAYING g1). split; [exact E|]. split; [reflexivity|].
    split; [exact Hc|exact Hr].
  - intros Hs Hf. rewrite start_not_paused by exact Hs.
    destruct (config_loaded_cases host fetched g)
      as (cfg' & lc' & rest' & g1 & E & Hl' & _ & Hc & Hr & _ & Hcfg).
    assert (Hd : cfg' = default_config).
    { destruct Hf as [-> | (cfg & -> & Hl)]; [exact Hcfg|]. rewrite Hl in Hcfg. exact Hcfg. }
    subst cfg'. injection Hl' as <- <-.
    exists (set_state PLAYING g1). split; [exact E|]. split; [reflexivity|].
    split; [exact Hc|exact Hr].
Qed.

Lemma X5_witness :
  state (@new Q _) <> PAUSED /\
  exists g', start demo_host None (@new Q _) = Ok g' /\
             state g' = PLAYING /\ level g' = 1 /\ goal g' = of_Z 15 /\
             timeLeft g' = of_Z 60 /\ List.length (obstacles g') = 2.
Proof.
  assert (Hs : state (@new Q _) <> PAUSED) by discriminate.
  split; [exact Hs|].
  destruct (proj2 (proj2 (X5_start_resumes_or_restarts demo_host None (@new Q _)))
              Hs (or_introl eq_refl)) as (g' & E & Hst & _ & Hr).
  destruct Hr as (Hl & _ & _ & Hg & Ht & _ & _ & _ & _ & _ & _ & _ & _ & _ & _ & Ho & _).
  exists g'. repeat split; assumption.
Defined.

(** X6.  [reset] with a configuration already loaded restarts the game from
    level 1 like [start] does but leaves it in the menu, where [update] does
    nothing; with no configuration loaded yet it behaves like [start]. *)
Theorem X6_reset_returns_to_menu {N} `{JsNumber N} (host : Host N)
        (fetched : option (Config.t N)) (g : t N) :
  (forall cfg lc rest, config g = Some cfg -> Config.levels cfg = lc :: rest ->
     exists g', reset host fetched g = Ok g' /\
                state g' = MENU /\ config g' = Some cfg /\ restarted host lc g g' /\
                forall fuel dt, update host fuel dt g' = Ok g') /\
  (config g = None -> reset host fetched g = start host fetched g).
Proof.
  split.
  - intros cfg lc rest Hc Hl.
    destruct (resetWithConfig_restarts host cfg lc rest g Hl) as (g' & E & Hs & Hc' & Hr).
    exists g'. unfold reset. rewrite Hc.
    split; [exact E|]. split; [exact Hs|]. split; [congruence|]. split; [exact Hr|].
    intros fuel dt. apply update_idle. rewrite Hs. discriminate.
  - intros Hc. unfold reset. rewrite Hc. reflexivity.
Qed.

Lemma X6_witness :
  config first_frame = Some default_config /\
  exists g', reset demo_host None first_frame = Ok g' /\
             state g' = MENU /\ score g' = of_Z 0 /\ level g' = 1 /\
             update demo_host 1 (dec 33 3) g' = Ok g'.
Proof.
  assert (Hc : config first_frame = Some default_config) by (vm_compute; reflexivity).
  split; [exact Hc|].
  destruct (proj1 (X6_reset_returns_to_menu demo_host None first_frame)
              default_config _ _ Hc eq_refl) as (g' & E & Hs & _ & Hr & Hu).
  destruct Hr as (Hl & Hsc & _).
  exists g'. repeat split; try assumption. apply Hu.
Defined.

(** ** Farmer.js: [update] *)

Lemma update_base {N} `{JsNumber N} now dt obs (p : Farmer.t N) :
  Farmer.base (Farmer.update now dt obs p) =
  let moved := Entity.set_pos (Farmer.candidate_x dt p) (Farmer.candidate_y dt p)
                              (Farmer.base p) in
  if existsb (aabb moved) obs then Farmer.base p else moved.
Proof.
  unfold Farmer.update. cbv zeta.
  destruct (Farmer.isMoving p); [destruct (_ >=. _)|]; reflexivity.
Qed.

Lemma clamp_inside (v len size : Q) :
  (size <= len)%Q ->
  (0 <= clamp v (of_Z 0) (len - size) /\ clamp v (of_Z 0) (len - size) + size <= len)%Q.
Proof.
  intros Hs. change (clamp v (of_Z 0) (len - size)%Q) with (Qmin (len - size) (Qmax 0 v)).
  split.
  - apply Q.min_glb; [lra|apply Q.le_max_l].
  - pose proof (Q.le_min_l (len - size)%Q (Qmax 0 v)). lra.
Qed.

Lemma farmer_update_inside now dt obs (p : Farmer.t Q) :
  inside_field (Farmer.base p) -> inside_field (Farmer.base (Farmer.update now dt obs p)).
Proof.
  intros Hin. rewrite update_base. cbv zeta.
  destruct (existsb _ obs); [exact Hin|].
  destruct Hin as (Hx & Hxw & Hy & Hyh).
  unfold inside_field, Entity.set_pos; cbn [Entity.x Entity.y Entity.w Entity.h].
  unfold Farmer.candidate_x, Farmer.candidate_y.
  destruct (clamp_inside (Entity.x (Farmer.base p) +. Farmer.vx p *. dt) WIDTH
                         (Entity.w (Farmer.base p))) as [H1 H2]; [lra|].
  destruct (clamp_inside (Entity.y (Farmer.base p) +. Farmer.vy p *. dt) HEIGHT
                         (Entity.h (Farmer.base p))) as [H3 H4]; [lra|].
  repeat split; assumption.
Qed.

Lemma frame_inside_field (host : Host Q) fuel dt (g g' : t Q) :
  inside_field (Farmer.base (player g)) ->
  update host fuel dt g = Ok g' ->
  inside_field (Farmer.base (player g')).
Proof.
  apply (player_inv host (fun p => inside_field (Farmer.base p))).
  - intros i p Hp. rewrite handleInput_base. exact Hp.
  - intros now dt0 obs p Hp. apply farmer_update_inside, Hp.
  - intros now p Hp. exact Hp.
Qed.

(** *** An axis with both keys held, or none *)

Lemma idle_axis_velocity (b : bool) (s : float) :
  isFinite s = true -> is_zero (axis b b s).
Proof.
  intros Hs. unfold axis.
  assert (Z : is_zero (of_bool b -. of_bool b : float))
    by (destruct b; left; vm_compute; reflexivity).
  apply mul_zero_double; assumption.
Qed.

(** The candidate position along an axis with no velocity. *)
Lemma idle_axis_candidate (b : bool) (s dt x hi : float) :
  isFinite s = true -> isFinite dt = true ->
  (of_Z 0 <=. x) = true -> (x <=. hi) = true ->
  (clamp (x +. axis b b s *. dt) (of_Z 0) hi =. x) = true.
Proof.
  intros Hs Hdt H0 Hh.
  destruct (leb_not_nan _ _ H0) as [_ Hx].
  assert (Z : is_zero (axis b b s *. dt))
    by (apply mul_zero_double; [apply idle_axis_velocity, Hs|exact Hdt]).
  destruct (add_zero_double x _ Hx Z) as [E|[Zv Zx]].
  - cbn [num_add num_mul float_number] in E |- * . rewrite E. apply clamp_fixed; assumption.
  - cbn [num_add num_mul float_number] in Zv |- * .
    set (v := PrimFloat.add x _) in Zv |- * .
    apply eqb_trans_double with (y := v); [|apply eqb_zeros; assumption].
    apply clamp_fixed.
    + cbn [num_le float_number].
      rewrite (proj1 (leb_zero_sign (of_Z 0) v x Zv Zx)). exact H0.
    + cbn [num_le float_number].
      rewrite (proj2 (leb_zero_sign hi v x Zv Zx)). exact Hh.
Qed.

(** X7.  At binary64, for a finite [dt] and a finite speed: one step of
    [handleInput] followed by [update] leaves the player where it is along an
    axis whose two keys are both held or both released, when the coordinate
    lies between 0 and the field's size minus the player's; the new
    coordinate compares equal to the old one (it is the same double, or a
    zero for a zero). *)
Theorem X7_idle_axis_stays_put (i : Input.t) (now dt : float) obs (p : Farmer.t float) :
  isFinite dt = true -> isFinite (Farmer.speed p) = true ->
  let p' := Farmer.update now dt obs (Farmer.handleInput i p) in
  (Input.has i "ArrowLeft" = Input.has i "ArrowRight" ->
   (of_Z 0 <=. Entity.x (Farmer.base p)) = true ->
   (Entity.x (Farmer.base p) <=. WIDTH -. Entity.w (Farmer.base p)) = true ->
   (Entity.x (Farmer.base p') =. Entity.x (Farmer.base p)) = true) /\
  (Input.has i "ArrowUp" = Input.has i "ArrowDown" ->
   (of_Z 0 <=. Entity.y (Farmer.base p)) = true ->
   (Entity.y (Farmer.base p) <=. HEIGHT -. Entity.h (Farmer.base p)) = true ->
   (Entity.y (Farmer.base p') =. Entity.y (Farmer.base p)) = true).
Proof.
  intros Hdt Hs. cbv zeta. rewrite update_base. cbv zeta.
  unfold Farmer.candidate_x, Farmer.candidate_y.
  destruct (handleInput_velocity i p) as [Evx Evy]. rewrite Evx, Evy.
  rewrite !handleInput_base.
  split; intros E H0 Hh.
  - destruct (leb_not_nan _ _ H0) as [_ Hx].
    destruct (existsb _ obs); cbn [Entity.x Entity.set_pos].
    + apply eqb_refl_double, Hx.
    + rewrite E. apply idle_axis_candidate; assumption.
  - destruct (leb_not_nan _ _ H0) as [_ Hy].
    destruct (existsb _ obs); cbn [Entity.y Entity.set_pos].
    + apply eqb_refl_double, Hy.
    + rewrite E. apply idle_axis_candidate; assumption.
Qed.

Lemma X7_witness :
  isFinite (dec 33 3) = true /\
  Input.has both_sides "ArrowLeft" = Input.has both_sides "ArrowRight" /\
  (Entity.x (Farmer.base (Farmer.update (of_Z 0) (dec 33 3) []
                            (Farmer.handleInput both_sides fresh_player_double)))
   =. Entity.x (Farmer.base fresh_player_double)) = true.
Proof.
  assert (Hdt : isFinite (dec 33 3) = true) by (vm_compute; reflexivity).
  assert (Hs : isFinite (Farmer.speed fresh_player_double) = true)
    by (vm_compute; reflexivity).
  assert (E : Input.has both_sides "ArrowLeft" = Input.has both_sides "ArrowRight")
    by reflexivity.
  assert (H0 : (of_Z 0 <=. Entity.x (Farmer.base fresh_player_double)) = true)
    by (vm_compute; reflexivity).
  assert (Hh : (Entity.x (Farmer.base fresh_player_double)
                <=. WIDTH -. Entity.w (Farmer.base fresh_player_double)) = true)
    by (vm_compute; reflexivity).
  split; [exact Hdt|]. split; [exact E|].
  exact (proj1 (X7_idle_axis_stays_put both_sides (of_Z 0) (dec 33 3) []
                  fresh_player_double Hdt Hs) E H0 Hh).
Defined.

(** ** The player against the scarecrows *)

Lemma farmer_update_clear {N} `{JsNumber N} now dt obs (p : Farmer.t N) :
  clear_of obs p -> clear_of obs (Farmer.update now dt obs p).
Proof.
  intros Hc o Ho. rewrite update_base. cbv zeta.
  destruct (existsb _ obs) eqn:E; [apply Hc, Ho|].
  destruct (aabb _ o) eqn:Ea; [|reflexivity].
  assert (Hex : existsb (aabb (Entity.set_pos (Farmer.candidate_x dt p)
              (Farmer.candidate_y dt p) (Farmer.base p))) obs = true)
    by (apply existsb_exists; exists o; split; assumption).
  congruence.
Qed.

Section Scarecrows.
Context {N : Type} `{JsNumber N}.
Variable host : Host N.

Ltac keep_clear :=
  let g := fresh "g" in
  intros g; intros;
  match goal with Hg : still_clear _ _ |- _ =>
    destruct Hg as [(? & ? & ?)|?]; [left; repeat split; assumption|right; assumption]
  end.

Lemma update_still_clear fuel dt (g0 g g' : t N) :
  still_clear g0 g -> update host fuel dt g = Ok g' -> still_clear g0 g'.
Proof.
  apply (update_inv host (still_clear g0)).
  - keep_clear.
  - keep_clear.
  - apply (run_phase_inv host (still_clear g0)); try keep_clear.
    + intros g1 [(Hl & Ho & Hc)|Hl]; [left|right; exact Hl].
      repeat split; try assumption. unfold handle_input. cbn [player set_player].
      intros o Hin. rewrite handleInput_base. apply Hc, Hin.
    + intros g1 [(Hl & Ho & Hc)|Hl]; [left|right; exact Hl].
      repeat split; try assumption. unfold update_player. cbn [player set_player set_clk].
      rewrite Ho. apply farmer_update_clear, Hc.
    + apply (collect_crops_inv host (still_clear g0)); try keep_clear.
      apply (advanceLevel_inv host (still_clear g0)).
      intros g1 lc Hg1 _ _. right.
      assert (Hl : level g0 <= level g1) by (destruct Hg1 as [(Hl & _)|Hl]; lia).
      apply (place_scarecrows_inv host (fun g2 => level g0 < level g2));
        [intros ? ? ? Hg'; exact Hg'|]. cbn [level set_obstacles set_goal set_requiredScore
          set_powerUpSpawnEvery set_crowSpawnEvery set_spawnEvery set_accumCrowSpawn
          set_accumPowerUpSpawn set_accumSpawn set_crows set_powerUps set_crops
          set_maxTime set_timeLeft set_level]. lia.
    + apply (collect_powerUps_boost_inv host (still_clear g0)); keep_clear.
    + apply (update_crows_inv host (still_clear g0)). keep_clear.
    + apply (hit_crows_inv (still_clear g0)). keep_clear.
Qed.

End Scarecrows.

(** X8.  A player whose box intersects no scarecrow before a frame intersects
    none after it, as long as the frame does not advance the level (which
    places new scarecrows at random); the scarecrows themselves are left
    alone.  This holds for every number instance, doubles included. *)
Theorem X8_player_never_walks_into_a_scarecrow {N} `{JsNumber N} (host : Host N)
        fuel dt (g g' : t N) :
  clear_of (obstacles g) (player g) ->
  update host fuel dt g = Ok g' ->
  level g' = level g ->
  obstacles g' = obstacles g /\ clear_of (obstacles g') (player g').
Proof.
  intros Hc E Hl.
  assert (H0 : still_clear g g) by (left; auto).
  destruct (update_still_clear host fuel dt g g g' H0 E) as [(_ & Ho & Hc')|Hlt]; [|lia].
  rewrite Ho. split; [reflexivity|exact Hc'].
Qed.

Lemma X8_witness :
  clear_of (obstacles (@started Q _)) (player (@started Q _)) /\
  update demo_host 1 (dec 33 3) started = Ok first_frame /\
  level first_frame = level (@started Q _) /\
  clear_of (obstacles first_frame) (player first_frame).
Proof.
  assert (Hc : clear_of (obstacles (@started Q _)) (player (@started Q _))).
  { assert (Ho : obstacles (@started Q _)
                 = [Scarecrow.new (of_Z 30) (of_Z 30); Scarecrow.new (of_Z 30) (of_Z 30)])
      by (vm_compute; reflexivity).
    intros o Hin. rewrite Ho in Hin.
    destruct Hin as [<-|[<-|[]]]; vm_compute; reflexivity. }
  assert (E : update demo_host 1 (dec 33 3) started = Ok first_frame)
    by (vm_compute; reflexivity).
  assert (Hl : level first_frame = level (@started Q _)) by (vm_compute; reflexivity).
  split; [exact Hc|]. split; [exact E|]. split; [exact Hl|].
  exact (proj2 (X8_player_never_walks_into_a_scarecrow demo_host 1 (dec 33 3)
                  started first_frame Hc E Hl)).
Defined.

(** ** Power-ups *)

Section PowerUps.
Context {N : Type} `{JsNumber N}.
Variable host : Host N.

Lemma boost_fold (l : list (PowerUp.t N)) : forall g1 : t N,
  let g2 := fold_left (boost_step host) l g1 in
  clk g2 = clk g1 + List.length l /\
  powerUps g2 = powerUps g1 /\
  crops g2 = crops g1 /\
  obstacles g2 = obstacles g1 /\
  player g2 = match l with
              | [] => player g1
              | _ :: _ => Farmer.applySpeedBoost
                            (performance_now host (clk g1 + List.length l - 1))
                            (of_Z 5) (player g1)
              end.
Proof.
  induction l as [|p l IH]; intros g1; cbn [fold_left List.length].
  - repeat split. lia.
  - destruct (IH (boost_step host g1 p)) as (Hc & Hp & Hcr & Hob & Hpl).
    cbv zeta in Hc, Hp, Hcr, Hob, Hpl |- * .
    rewrite Hc, Hp, Hcr, Hob, Hpl.
    cbn [clk player powerUps crops obstacles boost_step set_clk set_player].
    split; [lia|]. split; [reflexivity|]. split; [reflexivity|]. split; [reflexivity|].
    destruct l as [|q l]; cbn [List.length].
    + replace (clk g1 + 1 - 1) with (clk g1) by lia. reflexivity.
    + change (Farmer.applySpeedBoost ?now2 ?d (Farmer.applySpeedBoost ?now1 ?d (player g1)))
        with (Farmer.applySpeedBoost now2 d (player g1)).
      f_equal. f_equal. lia.
Qed.

Lemma purge_marked_powerUps (t : PowerUp.t N -> bool) (l : list (PowerUp.t N)) p :
  In p (filter (fun p => negb (PowerUp.dead p))
               (map (fun p => if t p then PowerUp.set_dead true p else p) l)) <->
  In p l /\ t p = false /\ PowerUp.dead p = false.
Proof.
  rewrite filter_In, in_map_iff. split.
  - intros [(p0 & Hp0 & Hin) Hd]. destruct (t p0) eqn:Ht.
    + subst p. discriminate Hd.
    + subst p0. apply negb_true_iff in Hd. auto.
  - intros (Hin & Ht & Hd). split.
    + exists p. rewrite Ht. auto.
    + rewrite Hd. reflexivity.
Qed.

End PowerUps.

(** X9.  The power-ups whose box intersects the player's are collected as one
    batch: after the purge exactly the live power-ups that did not touch the
    player are left, and the clock has been read once per collected
    power-up.  Boosts do not stack: with one or more power-ups collected the
    player is what a single [applySpeedBoost(5)] at the last of those clock
    readings makes of it, so the speed is one and a half times the base
    speed and the boost ends 5 s after that reading; with none collected the
    player is untouched. *)
Theorem X9_powerUps_boost_without_stacking {N} `{JsNumber N} (host : Host N) (g : t N) :
  let k := List.length (filter (touches_powerUp g) (powerUps g)) in
  let g' := purge_powerUps (collect_powerUps host g) in
  (forall p, In p (powerUps g') <->
             In p (powerUps g) /\ touches_powerUp g p = false /\ PowerUp.dead p = false) /\
  clk g' = clk g + k /\
  (k = 0 -> player g' = player g) /\
  (0 < k ->
     player g' = Farmer.applySpeedBoost (performance_now host (clk g + k - 1))
                                        (of_Z 5) (player g) /\
     Farmer.speed (player g') = Farmer.baseSpeed (player g) *. dec 15 1 /\
     Farmer.speedBoostEnd (player g')
       = performance_now host (clk g + k - 1) /. of_Z 1000 +. of_Z 5 /\
     Farmer.baseSpeed (player g') = Farmer.baseSpeed (player g) /\
     Farmer.base (player g') = Farmer.base (player g)).
Proof.
  cbv zeta. unfold purge_powerUps, collect_powerUps.
  cbn [powerUps clk player set_powerUps].
  match goal with |- context [fold_left ?f ?l ?g1] =>
    change f with (boost_step host);
    destruct (boost_fold host l g1) as (Hc & Hp & _ & _ & Hpl) end.
  cbv zeta in Hc, Hp, Hpl. rewrite Hc, Hp, Hpl.
  cbn [powerUps clk player set_powerUps].
  split; [intros p; apply purge_marked_powerUps|].
  split; [reflexivity|].
  destruct (filter (touches_powerUp g) (powerUps g)) as [|q l]; cbn [List.length].
  - split; [reflexivity|lia].
  - split; [discriminate|]. intros _. repeat split.
Qed.

Lemma X9_witness :
  0 < List.length (filter (touches_powerUp powerUp_under_player)
                          (powerUps powerUp_under_player)) /\
  (Farmer.speed (player (purge_powerUps (collect_powerUps demo_host powerUp_under_player)))
   == 390)%Q /\
  powerUps (purge_powerUps (collect_powerUps demo_host powerUp_under_player)) = [].
Proof.
  assert (Hk : List.length (filter (touches_powerUp powerUp_under_player)
                                   (powerUps powerUp_under_player)) = 1)
    by (vm_compute; reflexivity).
  split; [rewrite Hk; lia|].
  destruct (X9_powerUps_boost_without_stacking demo_host powerUp_under_player)
    as (_ & _ & _ & Hb).
  cbv zeta in Hb. rewrite Hk in Hb.
  destruct (Hb (le_n 1)) as (_ & Hs & _).
  split; [rewrite Hs; vm_compute; reflexivity|vm_compute; reflexivity].
Defined.
(** ** Levels that the configuration has or lacks *)

Section Throws.
Context {N : Type} `{JsNumber N}.
Variable host : Host N.

Lemma advanceLevel_no_throw cfg (g : t N) :
  config g = Some cfg -> 3 <= List.length (Config.levels cfg) ->
  advanceLevel host g <> Throws.
Proof.
  intros Hc Hlen. unfold advanceLevel.
  destruct (Nat.leb 3 (level g)) eqn:E; [discriminate|]. apply Nat.leb_gt in E.
  cbv zeta.
  replace (level (set_level (S (level g)) g) - 1) with (level g)
    by (cbn [level set_level]; lia).
  change (config (set_level (S (level g)) g)) with (config g).
  rewrite Hc. unfold level_config.
  destruct (nth_error (Config.levels cfg) (level g)) eqn:En; [discriminate|].
  apply nth_error_None in En. lia.
Qed.

Lemma collect_crops_no_throw cfg (g : t N) :
  config g = Some cfg -> 3 <= List.length (Config.levels cfg) ->
  collect_crops host g <> Throws.
Proof.
  intros Hc Hlen. unfold collect_crops.
  destruct (filter (touches_crop g) (crops g)); [discriminate|].
  cbv zeta. destruct (_ >=. _); [|discriminate].
  destruct (Nat.ltb _ 3); [|discriminate].
  apply (advanceLevel_no_throw cfg); assumption.
Qed.

Lemma update_no_throw cfg fuel dt (g : t N) :
  config g = Some cfg -> 3 <= List.length (Config.levels cfg) ->
  update host fuel dt g <> Throws.
Proof.
  intros Hc Hlen.
  destruct (state g) eqn:Hs; try (unfold update; rewrite Hs; discriminate).
  destruct (timeLeft (countdown dt g) <=. of_Z 0) eqn:Ht.
  - rewrite update_time_up by assumption. discriminate.
  - rewrite update_playing by assumption.
    destruct (run_phases host fuel dt before_collect (countdown dt g)) as [g1| |] eqn:E1;
      cbn [bind]; [| |discriminate].
    + pose proof (before_collect_same_run host fuel dt _ g1 E1) as (_ & _ & Hc1 & _).
      cbn [config countdown set_timeLeft] in Hc1.
      destruct (collect_crops host g1) as [g2| |] eqn:E2; cbn [bind]; try discriminate.
      exfalso. apply (collect_crops_no_throw cfg g1); [congruence|exact Hlen|exact E2].
    + exfalso. revert E1. unfold before_collect. cbn [run_phases run_phase bind].
      destruct (spawn_crops host fuel dt _) as [ga| |] eqn:Ea; cbn [bind];
        [| intros _; exact (spawn_while_no_throw _ _ _ _ _ _ Ea) | discriminate].
      destruct (spawn_powerUps host fuel dt _) as [gb| |] eqn:Eb; cbn [bind];
        [| intros _; exact (spawn_while_no_throw _ _ _ _ _ _ Eb) | discriminate].
      destruct (spawn_crows host fuel dt _) as [gc| |] eqn:Ec; cbn [bind];
        [discriminate | intros _; exact (spawn_while_no_throw _ _ _ _ _ _ Ec) | discriminate].
Qed.

End Throws.

(** X11.  [advanceLevel] reads the next level of the configuration without a
    check.  In a frame that collects a crop, reaches the cumulative goal and
    is below level 3, [update] throws when the configuration has no entry for
    the next level; with a configuration of at least three levels [update]
    never throws. *)
Theorem X11_update_throws_only_for_a_missing_level {N} `{JsNumber N} (host : Host N)
        fuel dt (g : t N) cfg :
  config g = Some cfg ->
  (forall g1 c rest,
      state g = PLAYING ->
      (timeLeft (countdown dt g) <=. of_Z 0) = false ->
      run_phases host fuel dt before_collect (countdown dt g) = Ok g1 ->
      filter (touches_crop g1) (crops g1) = c :: rest ->
      (score g +. addedPoints (c :: rest) >=. goal g) = true ->
      level g < 3 ->
      List.length (Config.levels cfg) <= level g ->
      update host fuel dt g = Throws) /\
  (3 <= List.length (Config.levels cfg) -> update host fuel dt g <> Throws).
Proof.
  intros Hc. split; [|apply update_no_throw; exact Hc].
  intros g1 c rest Hs Ht E1 Hf Hgoal Hl Hlen.
  rewrite update_playing by assumption. rewrite E1. cbn [bind].
  apply before_collect_same_run in E1.
  destruct E1 as (_ & Hl1 & Hc1 & _ & _ & _ & Hsc & Hg & _).
  cbn [level config score goal countdown set_timeLeft] in Hl1, Hc1, Hsc, Hg.
  rewrite (collect_crops_scored host g1 c rest Hf). cbv zeta.
  cbn [score goal level set_score set_crops]. rewrite Hsc, Hg, Hgoal, Hl1.
  destruct (Nat.ltb_spec (level g) 3) as [_|Hge]; [|lia].
  unfold advanceLevel. cbn [level set_score set_crops]. rewrite Hl1.
  destruct (Nat.leb_spec 3 (level g)) as [Hge|_]; [lia|].
  cbv zeta.
  replace (level (set_level (S (level g)) _) - 1) with (level g)
    by (cbn [level set_level]; lia).
  match goal with |- context [level_config ?c _] =>
    change c with (config g1) end.
  rewrite Hc1, Hc. unfold level_config.
  assert (En : nth_error (Config.levels cfg) (level g) = None)
    by (apply nth_error_None; exact Hlen).
  rewrite En. reflexivity.
Qed.

Lemma X11_witness :
  config last_wheat = Some one_level_config /\
  update demo_host 1 (dec 33 3) last_wheat = Throws /\
  update demo_host 1 (dec 33 3) (@started Q _) <> Throws.
Proof.
  pose (g1 := unwrap (run_phases demo_host 1 (dec 33 3) before_collect
                        (countdown (dec 33 3) last_wheat)) new).
  pose (c := Crop.new (of_Z 440 : Q) (of_Z 460) Crop.wheat (dec 5 1)).
  assert (Hc : config last_wheat = Some one_level_config) by (vm_compute; reflexivity).
  assert (H1 : state last_wheat = PLAYING) by (vm_compute; reflexivity).
  assert (H2 : (timeLeft (countdown (dec 33 3) last_wheat) <=. of_Z 0) = false)
    by (vm_compute; reflexivity).
  assert (H3 : run_phases demo_host 1 (dec 33 3) before_collect
                 (countdown (dec 33 3) last_wheat) = Ok g1)
    by (vm_compute; reflexivity).
  assert (H4 : filter (touches_crop g1) (crops g1) = [c]) by (vm_compute; reflexivity).
  assert (H5 : (score last_wheat +. addedPoints [c] >=. goal last_wheat) = true)
    by (vm_compute; reflexivity).
  assert (H6 : level last_wheat < 3) by (vm_compute; lia).
  assert (H7 : List.length (Config.levels one_level_config) <= level last_wheat)
    by (vm_compute; lia).
  assert (Hc' : config (@started Q _) = Some default_config) by (vm_compute; reflexivity).
  assert (H8 : 3 <= List.length (Config.levels (@default_config Q _)))
    by (vm_compute; lia).
  split; [exact Hc|]. split.
  - exact (proj1 (X11_update_throws_only_for_a_missing_level demo_host 1 (dec 33 3)
                    last_wheat one_level_config Hc) g1 c [] H1 H2 H3 H4 H5 H6 H7).
  - exact (proj2 (X11_update_throws_only_for_a_missing_level demo_host 1 (dec 33 3)
                    started default_config Hc') H8).
Defined.

(** ** What a frame can lead to *)

Lemma collect_crops_outcome {N} `{JsNumber N} (host : Host N) (g g' : t N) :
  collect_crops host g = Ok g' ->
  (state g' = state g /\ level g' = level g) \/
  (state g' = WIN /\ 3 <= level g /\ level g' = level g) \/
  (state g' = state g /\ level g < 3 /\ level g' = S (level g)).
Proof.
  unfold collect_crops.
  destruct (filter (touches_crop g) (crops g)) as [|c rest].
  - intros [= <-]. left. auto.
  - cbn zeta.
    match goal with |- context [if ?b then _ else _] => destruct b end.
    + cbn [level set_score set_crops].
      destruct (Nat.ltb (level g) 3) eqn:E.
      * intros E'. apply advanceLevel_level in E'.
        destruct E' as [[Hl ->]|[Hl [Hs Hst]]].
        -- left. split; reflexivity.
        -- right. right. cbn [level state set_score set_crops] in Hl, Hs, Hst. auto.
      * apply Nat.ltb_ge in E. intros [= <-]. right. left. auto.
    + intros [= <-]. left. split; reflexivity.
Qed.

Lemma update_untouched {N} `{JsNumber N} (host : Host N) fuel dt (g g' : t N) :
  update host fuel dt g = Ok g' ->
  config g' = config g /\ input g' = input g /\ lastTime g' = lastTime g.
Proof.
  apply (update_keeps host (fun g1 => config g1 = config g /\ input g1 = input g /\
                                      lastTime g1 = lastTime g));
    try (intros ? ? Hg; exact Hg). repeat split.
Qed.

(** X12.  A frame that starts in [PLAYING] ends in [PLAYING], [GAME_OVER] or
    [WIN], never in the menu or paused.  It ends in [GAME_OVER] exactly when
    the countdown runs out, and in [WIN] only from level 3, without a change
    of level.  No frame writes the configuration, the held keys or
    [lastTime]. *)
Theorem X12_update_outcomes {N} `{JsNumber N} (host : Host N) fuel dt (g g' : t N) :
  state g = PLAYING ->
  update host fuel dt g = Ok g' ->
  (state g' = PLAYING \/ state g' = GAME_OVER \/ state g' = WIN) /\
  (state g' = GAME_OVER <-> (timeLeft (countdown dt g) <=. of_Z 0) = true) /\
  (state g' = WIN -> 3 <= level g /\ level g' = level g) /\
  config g' = config g /\ input g' = input g /\ lastTime g' = lastTime g.
Proof.
  intros Hs E.
  pose proof (update_untouched host fuel dt g g' E) as Hk.
  destruct (timeLeft (countdown dt g) <=. of_Z 0) eqn:Ht.
  - rewrite update_time_up in E by assumption. injection E as <-.
    cbn [state set_state]. split; [auto|]. split; [split; reflexivity|].
    split; [discriminate|exact Hk].
  - apply update_playing_cut in E; [|assumption..].
    destruct E as (g1 & g2 & E1 & E2 & ->).
    apply before_collect_same_run in E1. destruct E1 as (Hs1 & Hl1 & _).
    cbn [state level countdown set_timeLeft] in Hs1, Hl1.
    destruct (after_collect_state_level host dt g2) as [Hs3 Hl3].
    rewrite Hs3, Hl3.
    apply collect_crops_outcome in E2.
    rewrite Hs1, Hl1, Hs in E2.
    destruct E2 as [(Hst & Hl)|[(Hst & Hge & Hl)|(Hst & Hlt & Hl)]]; rewrite Hst.
    + split; [auto|]. split; [split; discriminate|]. split; [discriminate|exact Hk].
    + split; [auto|]. split; [split; discriminate|]. split; [auto|exact Hk].
    + split; [auto|]. split; [split; discriminate|]. split; [discriminate|exact Hk].
Qed.

Lemma X12_witness :
  state (@started Q _) = PLAYING /\
  update demo_host 1 (dec 33 3) started = Ok first_frame /\
  state first_frame = PLAYING /\ config first_frame = config (@started Q _).
Proof.
  assert (Hs : state (@started Q _) = PLAYING) by (vm_compute; reflexivity).
  assert (E : update demo_host 1 (dec 33 3) started = Ok first_frame)
    by (vm_compute; reflexivity).
  destruct (X12_update_outcomes demo_host 1 (dec 33 3) started first_frame Hs E)
    as (_ & _ & _ & Hc & _).
  split; [exact Hs|]. split; [exact E|]. split; [vm_compute; reflexivity|exact Hc].
Defined.

(** ** The accumulators after a frame *)

Section Accumulators.
Context {N : Type} `{JsNumber N}.
Variable host : Host N.

Lemma spawn_while_drained fuel acc every set_acc spawn : forall (g g' : t N),
  spawn_while fuel acc every set_acc spawn g = Ok g' ->
  (acc g' >=. every g') = false.
Proof.
  induction fuel as [|fuel IH]; intros g g'; cbn [spawn_while];
    destruct (acc g >=. every g) eqn:E; try discriminate;
    try (intros [= <-]; exact E).
  apply IH.
Qed.

Lemma before_collect_drained fuel dt (g g1 : t N) :
  run_phases host fuel dt before_collect g = Ok g1 -> drained g1.
Proof.
  unfold before_collect. cbn [run_phases run_phase bind]. intros E.
  apply bind_Ok in E as (ga & E1 & E).
  apply bind_Ok in E as (gb & E2 & E).
  apply bind_Ok in E as (gc & E3 & E). injection E as <-.
  assert (Ha : (_accumSpawn ga >=. spawnEvery ga) = false)
    by (eapply spawn_while_drained; exact E1).
  assert (Hb : (_accumSpawn gb >=. spawnEvery gb) = false /\
               (_accumPowerUpSpawn gb >=. powerUpSpawnEvery gb) = false).
  { split; [|eapply spawn_while_drained; exact E2].
    revert E2. unfold spawn_powerUps.
    apply (spawn_while_inv (fun g' => (_accumSpawn g' >=. spawnEvery g') = false)).
    - intros g0 v Hg. exact Hg.
    - exact Ha. }
  split; [|split]; [| |eapply spawn_while_drained; exact E3].
  - revert E3. unfold spawn_crows.
    apply (spawn_while_inv (fun g' => (_accumSpawn g' >=. spawnEvery g') = false)).
    + intros g0 v Hg. exact Hg.
    + exact (proj1 Hb).
  - revert E3. unfold spawn_crows.
    apply (spawn_while_inv
             (fun g' => (_accumPowerUpSpawn g' >=. powerUpSpawnEvery g') = false)).
    + intros g0 v Hg. exact Hg.
    + exact (proj2 Hb).
Qed.

End Accumulators.

(** X13.  When a playing frame whose time has not run out returns without a
    level change, each of the three spawn accumulators is below its interval:
    the loops have drained them, and nothing later in the frame touches
    them. *)
Theorem X13_accumulators_end_below_interval {N} `{JsNumber N} (host : Host N)
        fuel dt (g g' : t N) :
  state g = PLAYING ->
  (timeLeft (countdown dt g) <=. of_Z 0) = false ->
  update host fuel dt g = Ok g' ->
  level g' = level g ->
  (_accumSpawn g' >=. spawnEvery g') = false /\
  (_accumPowerUpSpawn g' >=. powerUpSpawnEvery g') = false /\
  (_accumCrowSpawn g' >=. crowSpawnEvery g') = false.
Proof.
  intros Hs Ht E Hl.
  apply update_playing_cut in E; [|assumption..].
  destruct E as (g1 & g2 & E1 & E2 & ->).
  pose proof (before_collect_drained host fuel dt _ g1 E1) as Hd.
  apply before_collect_same_run in E1. destruct E1 as (_ & Hl1 & _).
  cbn [level countdown set_timeLeft] in Hl1.
  apply (rest_of_frame_keeps host (drained (N := N))) with (g1 := g1);
    try (intros ? ? Hg; exact Hg); try assumption.
  congruence.
Qed.

Lemma X13_witness :
  state (@started Q _) = PLAYING /\
  update demo_host 1 (dec 33 3) started = Ok first_frame /\
  (_accumSpawn first_frame >=. spawnEvery first_frame) = false.
Proof.
  assert (Hs : state (@started Q _) = PLAYING) by (vm_compute; reflexivity).
  assert (Ht : (timeLeft (countdown (dec 33 3) (@started Q _)) <=. of_Z 0) = false)
    by (vm_compute; reflexivity).
  assert (E : update demo_host 1 (dec 33 3) started = Ok first_frame)
    by (vm_compute; reflexivity).
  assert (Hl : level first_frame = level (@started Q _)) by (vm_compute; reflexivity).
  split; [exact Hs|]. split; [exact E|].
  exact (proj1 (X13_accumulators_end_below_interval demo_host 1 (dec 33 3)
                  started first_frame Hs Ht E Hl)).
Defined.

(** ** The clock *)

Section Clock.
Context {N : Type} `{JsNumber N}.
Variable host : Host N.

(** In a playing frame that keeps the level, the clock is the clamped
    countdown and the limit is unchanged. *)
Lemma frame_timeLeft fuel dt (g g' : t N) :
  state g = PLAYING ->
  update host fuel dt g = Ok g' ->
  level g' = level g ->
  timeLeft g' = clamp (timeLeft g -. dt) (of_Z 0) (maxTime g) /\ maxTime g' = maxTime g.
Proof.
  intros Hs E Hl.
  destruct (timeLeft (countdown dt g) <=. of_Z 0) eqn:Ht.
  - rewrite update_time_up in E by assumption. injection E as <-. split; reflexivity.
  - apply update_playing_cut in E; [|assumption..].
    destruct E as (g1 & g2 & E1 & E2 & ->).
    apply before_collect_same_run in E1.
    destruct E1 as (_ & Hl1 & _ & _ & Hm & Ht1 & _).
    cbn [level maxTime timeLeft countdown set_timeLeft] in Hl1, Hm, Ht1.
    apply (rest_of_frame_keeps host
             (fun g0 => timeLeft g0 = clamp (timeLeft g -. dt) (of_Z 0) (maxTime g) /\
                        maxTime g0 = maxTime g)) with (g1 := g1);
      try (intros ? ? Hg; exact Hg); try assumption; [split; assumption|congruence].
Qed.

End Clock.

Lemma frame_within_limit (host : Host Q) fuel dt (g g' : t Q) :
  (state g = PLAYING \/ (timeLeft g <= maxTime g)%Q) ->
  update host fuel dt g = Ok g' ->
  (timeLeft g' <= maxTime g')%Q.
Proof.
  intros Hg E.
  assert (Hinv : forall g0 g1 : t Q,
             (timeLeft g0 <= maxTime g0)%Q ->
             run_phases host fuel dt frame_phases g0 = Ok g1 ->
             (timeLeft g1 <= maxTime g1)%Q).
  { apply (run_phases_inv host (fun g => (timeLeft g <= maxTime g)%Q)).
    apply (run_phase_inv host (fun g => (timeLeft g <= maxTime g)%Q));
      try (intros; assumption).
    - apply (collect_crops_inv host (fun g => (timeLeft g <= maxTime g)%Q));
        try (intros; assumption).
      apply (advanceLevel_inv host (fun g => (timeLeft g <= maxTime g)%Q)).
      intros g0 lc _ _ _.
      apply (place_scarecrows_inv host (fun g => (timeLeft g <= maxTime g)%Q));
        [intros ? ? ? Hg'; exact Hg'|apply Qle_refl].
    - apply (collect_powerUps_inv host (fun g => (timeLeft g <= maxTime g)%Q));
        intros; assumption.
    - apply (update_crows_inv host (fun g => (timeLeft g <= maxTime g)%Q)).
      intros; assumption.
    - apply (hit_crows_inv (fun g => (timeLeft g <= maxTime g)%Q)). intros; assumption. }
  assert (Hc : (timeLeft (countdown dt g) <= maxTime (countdown dt g))%Q)
    by (cbn [timeLeft maxTime countdown set_timeLeft]; apply Q.le_min_l).
  revert E. unfold update.
  destruct (state g) eqn:Hs;
    try (intros [= <-]; destruct Hg as [Hg|Hg]; [discriminate Hg|exact Hg]).
  destruct (timeLeft (countdown dt g) <=. of_Z 0).
  - intros [= <-]. exact Hc.
  - apply Hinv. exact Hc.
Qed.

(** X14.  Over exact rationals, after a playing frame the time left never
    exceeds the level's time limit, even when [dt] is negative or the level
    has just advanced.  When the level did not change, the time left is not
    negative if the limit is not, it has not grown if [dt] is not negative,
    and it is exactly [timeLeft - dt] when that lies between 0 and the
    limit. *)
Theorem X14_countdown_stays_within_limit (host : Host Q) fuel dt (g g' : t Q) :
  state g = PLAYING ->
  update host fuel dt g = Ok g' ->
  (timeLeft g' <= maxTime g')%Q /\
  (level g' = level g ->
     ((0 <= maxTime g)%Q -> (0 <= timeLeft g')%Q) /\
     ((0 <= dt)%Q -> (0 <= timeLeft g)%Q -> (timeLeft g' <= timeLeft g)%Q) /\
     ((0 <= timeLeft g - dt)%Q -> (timeLeft g - dt <= maxTime g)%Q ->
        (timeLeft g' == timeLeft g - dt)%Q)).
Proof.
  intros Hs E.
  split; [apply (frame_within_limit host fuel dt g g'); [left; exact Hs|exact E]|].
  intros Hl.
  destruct (frame_timeLeft host fuel dt g g' Hs E Hl) as [Ht Hm].
  rewrite Ht.
  change (clamp (timeLeft g -. dt) (of_Z 0) (maxTime g))
    with (Qmin (maxTime g) (Qmax 0 (timeLeft g - dt))).
  split; [|split].
  - intros H0. apply Q.min_glb; [exact H0|apply Q.le_max_l].
  - intros Hdt H0. eapply Qle_trans; [apply Q.le_min_r|].
    apply Q.max_lub; [exact H0|lra].
  - intros H0 H1. rewrite (Q.max_r 0 _) by exact H0. apply Q.min_r. exact H1.
Qed.

Lemma X14_witness :
  state (@started Q _) = PLAYING /\
  update demo_host 1 (dec 33 3) started = Ok first_frame /\
  (timeLeft first_frame <= maxTime first_frame)%Q /\
  (timeLeft first_frame == 60 - (33 # 1000))%Q.
Proof.
  assert (Hs : state (@started Q _) = PLAYING) by (vm_compute; reflexivity).
  assert (E : update demo_host 1 (dec 33 3) started = Ok first_frame)
    by (vm_compute; reflexivity).
  assert (Hl : level first_frame = level (@started Q _)) by (vm_compute; reflexivity).
  assert (H0 : (0 <= timeLeft (@started Q _) - dec 33 3)%Q) by by_evaluation.
  assert (H1 : (timeLeft (@started Q _) - dec 33 3 <= maxTime (@started Q _))%Q)
    by by_evaluation.
  destruct (X14_countdown_stays_within_limit demo_host 1 (dec 33 3) started first_frame
              Hs E) as [Hle Hrest].
  destruct (Hrest Hl) as (_ & _ & Heq).
  split; [exact Hs|]. split; [exact E|]. split; [exact Hle|].
  rewrite (Heq H0 H1). vm_compute. reflexivity.
Defined.

Lemma update_lastTime {N} `{JsNumber N} (host : Host N) fuel dt (g g' : t N) :
  update host fuel dt g = Ok g' -> lastTime g' = lastTime g.
Proof. intros E. apply (update_untouched host fuel dt g g' E). Qed.

Lemma dec_33_3 : (dec 33 3 == 33 # 1000)%Q.
Proof. reflexivity. Qed.

(** X15.  Over exact rationals, the frame callback records its timestamp in
    [lastTime] and runs [update] with a step of at most 0.033 s, which is
    0.033 s as soon as 33 ms or more have passed since the previous
    callback; so one callback takes at most 0.033 s off a clock that is
    within its limit, however long the real gap was. *)
Theorem X15_tick_caps_the_time_step (host : Host Q) fuel ts (g g' : t Q) :
  tick host fuel ts g = Ok g' ->
  lastTime g' = ts /\
  (exists dt, (dt <= 33 # 1000)%Q /\
              ((lastTime g + 33 <= ts)%Q -> (dt == 33 # 1000)%Q) /\
              update host fuel dt (set_lastTime ts g) = Ok g') /\
  (level g' = level g -> (timeLeft g <= maxTime g)%Q ->
     (timeLeft g - (33 # 1000) <= timeLeft g')%Q).
Proof.
  unfold tick. cbv zeta.
  set (dt := Math_min ((ts -. lastTime g) /. of_Z 1000) (dec 33 3)).
  intros E.
  assert (Hdt : (dt <= 33 # 1000)%Q).
  { rewrite <- dec_33_3. apply Q.le_min_r. }
  split; [apply update_lastTime in E; exact E|]. split.
  - exists dt. split; [exact Hdt|]. split; [|exact E].
    intros Hgap. rewrite <- dec_33_3. apply Q.min_r. rewrite dec_33_3.
    cbn [num_sub num_div of_Z Q_number]. unfold inject_Z.
    apply Qle_shift_div_l; [reflexivity|]. lra.
  - intros Hl Hle.
    destruct (state g) eqn:Hs;
      try (unfold update in E; cbn [state set_lastTime] in E; rewrite Hs in E;
           injection E as <-; cbn [timeLeft set_lastTime]; lra).
    destruct (frame_timeLeft host fuel dt (set_lastTime ts g) g' Hs E Hl) as [Ht _].
    rewrite Ht. cbn [timeLeft maxTime set_lastTime].
    change (clamp (timeLeft g -. dt) (of_Z 0) (maxTime g))
      with (Qmin (maxTime g) (Qmax 0 (timeLeft g - dt))).
    apply Q.min_glb; [lra|].
    eapply Qle_trans; [|apply Q.le_max_r]. lra.
Qed.

Lemma X15_witness :
  exists g', tick demo_host 1 (of_Z 5000) (@started Q _) = Ok g' /\
             lastTime g' = of_Z 5000 /\
             (timeLeft (@started Q _) - (33 # 1000) <= timeLeft g')%Q.
Proof.
  pose (g' := unwrap (tick demo_host 1 (of_Z 5000) (@started Q _)) new).
  assert (E : tick demo_host 1 (of_Z 5000) (@started Q _) = Ok g')
    by (vm_compute; reflexivity).
  assert (Hl : level g' = level (@started Q _)) by (vm_compute; reflexivity).
  assert (Hle : (timeLeft (@started Q _) <= maxTime (@started Q _))%Q) by by_evaluation.
  destruct (X15_tick_caps_the_time_step demo_host 1 (of_Z 5000) started g' E)
    as (Hlast & _ & Hstep).
  exists g'. split; [exact E|]. split; [exact Hlast|exact (Hstep Hl Hle)].
Defined.

(** ** Where the game spawns *)

Lemma floor_scaled (r : Q) (n : Z) :
  (0 < n)%Z -> (0 <= r)%Q -> (r < 1)%Q ->
  (0 <= Qfloor (r * inject_Z n) < n)%Z.
Proof.
  intros Hn H0 H1.
  assert (Hn' : (inject_Z 0 < inject_Z n)%Q) by (rewrite <- Zlt_Qlt; exact Hn).
  change (inject_Z 0) with 0%Q in Hn'.
  split.
  - change 0%Z with (Qfloor 0). apply Qfloor_resp_le.
    apply Qmult_le_0_compat; [exact H0|apply Qlt_le_weak, Hn'].
  - rewrite Zlt_Qlt. eapply Qle_lt_trans; [apply Qfloor_le|]. nra.
Qed.

Lemma random_gx_cell (host : Host Q) i :
  (0 <= Math_random host i)%Q -> (Math_random host i < 1)%Q ->
  exists col : Z, (1 <= col <= 28)%Z /\ (random_gx host i == inject_Z (30 * col))%Q.
Proof.
  intros H0 H1. unfold random_gx.
  assert (E : Qfloor (Math_random host i * ((inject_Z 900 - inject_Z 2 * inject_Z 30)
                                            / inject_Z 30))
              = Qfloor (Math_random host i * inject_Z 28)).
  { apply Qfloor_comp. apply Qmult_comp; reflexivity. }
  unfold WIDTH, TILE. cbn [Math_floor num_mul num_add num_sub num_div of_Z Q_number].
  rewrite E.
  destruct (floor_scaled (Math_random host i) 28 eq_refl H0 H1) as [Hlo Hhi].
  exists (Qfloor (Math_random host i * inject_Z 28) + 1)%Z. split; [lia|].
  rewrite Z.mul_add_distr_l, inject_Z_plus, inject_Z_mult.
  change (inject_Z (30 * 1)) with (inject_Z 30). ring.
Qed.

Lemma random_gy_cell (host : Host Q) i :
  (0 <= Math_random host i)%Q -> (Math_random host i < 1)%Q ->
  exists row : Z, (1 <= row <= 16)%Z /\ (random_gy host i == inject_Z (30 * row))%Q.
Proof.
  intros H0 H1. unfold random_gy.
  assert (E : Qfloor (Math_random host i * ((inject_Z 540 - inject_Z 2 * inject_Z 30)
                                            / inject_Z 30))
              = Qfloor (Math_random host i * inject_Z 16)).
  { apply Qfloor_comp. apply Qmult_comp; reflexivity. }
  unfold HEIGHT, TILE. cbn [Math_floor num_mul num_add num_sub num_div of_Z Q_number].
  rewrite E.
  destruct (floor_scaled (Math_random host i) 16 eq_refl H0 H1) as [Hlo Hhi].
  exists (Qfloor (Math_random host i * inject_Z 16) + 1)%Z. split; [lia|].
  rewrite Z.mul_add_distr_l, inject_Z_plus, inject_Z_mult.
  change (inject_Z (30 * 1)) with (inject_Z 30). ring.
Qed.

(** ** Obstacle.js: the crows' move *)

Section Flock.
Context {N : Type} `{JsNumber N}.
Variable host : Host N.

Lemma crow_update_body dt r (c : Crow.t N) :
  crow_body (fst (Crow.update host dt r c)) = crow_body c /\
  (snd (Crow.update host dt r c) = S r \/ snd (Crow.update host dt r c) = S (S r)).
Proof.
  unfold Crow.update. cbv zeta.
  destruct (Math_random host r <. dec 1 2); cbn [fst snd]; split; auto.
Qed.

Lemma update_crow_list_flock dt (l : list (Crow.t N)) : forall r,
  map crow_body (fst (update_crow_list host dt r l)) = map crow_body l /\
  r + List.length l <= snd (update_crow_list host dt r l) <= r + 2 * List.length l.
Proof.
  induction l as [|c l IH]; intros r; cbn [update_crow_list map List.length fst snd].
  - split; [reflexivity|lia].
  - destruct (crow_update_body dt r c) as [Hb Hr].
    destruct (Crow.update host dt r c) as [c' r1]. cbn [fst snd] in Hb, Hr.
    destruct (IH r1) as [Hm Hn].
    destruct (update_crow_list host dt r1 l) as [l' r2]. cbn [fst snd] in Hm, Hn |- * .
    cbn [map]. rewrite Hb, Hm. split; [reflexivity|].
    destruct Hr as [-> | ->]; lia.
Qed.

End Flock.

(** X17.  The crows' move keeps the flock: the list keeps its length and
    order, and every crow its size, its [dead] flag and its top speed; each
    crow draws one or two random numbers.  The velocity a crow carries has no
    influence on its move, which recomputes it from the heading: the two
    random velocities its constructor draws are never used. *)
Theorem X17_crows_move_without_changing_shape {N} `{JsNumber N} (host : Host N)
        dt (g : t N) :
  let g' := update_crows host dt g in
  map crow_body (crows g') = map crow_body (crows g) /\
  List.length (crows g') = List.length (crows g) /\
  rnd g + List.length (crows g) <= rnd g' <= rnd g + 2 * List.length (crows g) /\
  (forall r b vx vy vx' vy' ms a,
      Crow.update host dt r (Crow.make b vx vy ms a)
      = Crow.update host dt r (Crow.make b vx' vy' ms a)).
Proof.
  cbv zeta. unfold update_crows.
  destruct (update_crow_list_flock host dt (crows g) (rnd g)) as [Hm Hn].
  destruct (update_crow_list host dt (rnd g) (crows g)) as [cs r].
  cbn [fst snd] in Hm, Hn. cbn [crows rnd set_rnd set_crows].
  split; [exact Hm|]. split; [|split; [exact Hn|]].
  - rewrite <- (length_map (crow_body (N := N)) cs), Hm. apply length_map.
  - intros. reflexivity.
Qed.

(** ** Dead entities *)

Section Alive.
Context {N : Type} `{JsNumber N}.
Variable host : Host N.

Lemma filter_alive {A} (dead : A -> bool) (l : list A) :
  Forall (fun a => dead a = false) (filter (fun a => negb (dead a)) l).
Proof.
  apply Forall_forall. intros a Ha. apply filter_In in Ha as [_ Hd].
  apply negb_true_iff in Hd. exact Hd.
Qed.

Lemma crow_phases_powerUps dt (g : t N) :
  powerUps (purge_crows (hit_crows (update_crows host dt g))) = powerUps g.
Proof.
  unfold purge_crows. cbn [powerUps set_crows].
  rewrite (proj2 (hit_crows_keeps _)). apply (proj2 (update_crows_keeps host dt g)).
Qed.

Lemma purged_powerUps_alive dt (g : t N) :
  Forall (fun p => PowerUp.dead p = false)
         (powerUps (update_powerUps dt (purge_powerUps g))).
Proof.
  cbn [powerUps update_powerUps purge_powerUps set_powerUps]. apply Forall_map.
  apply (filter_alive (PowerUp.dead (N := N))).
Qed.

Lemma after_collect_alive dt (g : t N) : all_alive (after_collect_fn host dt g).
Proof.
  split; [|split].
  - rewrite after_collect_crops. apply alive_after_purge_update.
  - unfold after_collect_fn. rewrite crow_phases_powerUps. apply purged_powerUps_alive.
  - unfold after_collect_fn. generalize (hit_crows (update_crows host dt
      (update_powerUps dt (purge_powerUps (collect_powerUps host
         (update_crops dt (purge_crops g))))))).
    intros g0. apply (filter_alive (Crow.dead (N := N))).
Qed.

Lemma update_all_alive fuel dt (g g' : t N) :
  all_alive g -> update host fuel dt g = Ok g' -> all_alive g'.
Proof.
  intros Ha.
  destruct (state g) eqn:Hs;
    try (unfold update; rewrite Hs; intros [= <-]; exact Ha).
  destruct (timeLeft (countdown dt g) <=. of_Z 0) eqn:Ht.
  - rewrite update_time_up by assumption. intros [= <-]. exact Ha.
  - intros E. apply update_playing_cut in E; [|assumption..].
    destruct E as (g1 & g2 & _ & _ & ->). apply after_collect_alive.
Qed.

End Alive.

(** X18.  Whatever the lists held before, after a playing frame whose time
    has not run out no crop, power-up or crow in the lists is marked dead:
    every entity marked during the frame, or before it, has been purged. *)
Theorem X18_no_dead_entity_outlives_a_frame {N} `{JsNumber N} (host : Host N)
        fuel dt (g g' : t N) :
  state g = PLAYING ->
  (timeLeft (countdown dt g) <=. of_Z 0) = false ->
  update host fuel dt g = Ok g' ->
  Forall (fun c => Crop.dead c = false) (crops g') /\
  Forall (fun p => PowerUp.dead p = false) (powerUps g') /\
  Forall (fun c => Crow.dead c = false) (crows g').
Proof.
  intros Hs Ht E. apply update_playing_cut in E; [|assumption..].
  destruct E as (g1 & g2 & _ & _ & ->). apply after_collect_alive.
Qed.

Lemma X18_witness :
  exists g',
    update demo_host 1 (dec 33 3) powerUp_under_player = Ok g' /\
    Forall (fun p => PowerUp.dead p = false) (powerUps g').
Proof.
  pose (g' := unwrap (update demo_host 1 (dec 33 3) powerUp_under_player) new).
  assert (Hs : state powerUp_under_player = PLAYING) by (vm_compute; reflexivity).
  assert (Ht : (timeLeft (countdown (dec 33 3) powerUp_under_player) <=. of_Z 0) = false)
    by (vm_compute; reflexivity).
  assert (E : update demo_host 1 (dec 33 3) powerUp_under_player = Ok g')
    by (vm_compute; reflexivity).
  exists g'. split; [exact E|].
  exact (proj1 (proj2 (X18_no_dead_entity_outlives_a_frame demo_host 1 (dec 33 3)
                         powerUp_under_player g' Hs Ht E))).
Defined.

(** ** Every state a session can reach *)

Section Sessions.
Context {N : Type} `{JsNumber N}.
Variable host : Host N.

Lemma session_inv (P : t N -> Prop) fuel :
  (forall e g g', P g -> handle host fuel e g = Ok g' -> P g') ->
  forall es g g', P g -> session host fuel es g = Ok g' -> P g'.
Proof.
  intros Hh. induction es as [|e es IH]; intros g g' Hg; cbn [session].
  - intros [= <-]. exact Hg.
  - intros E. apply bind_Ok in E as (g1 & E1 & E). eapply IH; [|exact E].
    eapply Hh; [exact Hg|exact E1].
Qed.

Lemma handleInput_sprite i (p : Farmer.t N) :
  sprite_cell_ok p -> sprite_cell_ok (Farmer.handleInput i p).
Proof.
  intros [Hf Hr]. unfold sprite_cell_ok, Farmer.handleInput. cbv zeta.
  destruct (negb _ || negb _); cbn [Farmer.currentFrame Farmer.currentRow].
  - split; [exact Hf|].
    destruct (_ >. _); [destruct (_ >. _)|destruct (_ >. _)]; lia.
  - split; [lia|exact Hr].
Qed.

Lemma farmer_update_sprite now dt obs (p : Farmer.t N) :
  sprite_cell_ok p -> sprite_cell_ok (Farmer.update now dt obs p).
Proof.
  intros [Hf Hr]. unfold sprite_cell_ok, Farmer.update. cbv zeta.
  destruct (Farmer.isMoving p); [destruct (_ >=. _)|];
    cbn [Farmer.currentFrame Farmer.currentRow]; split; try assumption.
  apply Nat.mod_upper_bound. discriminate.
Qed.

Lemma frame_sprite fuel dt (g g' : t N) :
  sprite_cell_ok (player g) -> update host fuel dt g = Ok g' -> sprite_cell_ok (player g').
Proof.
  apply (player_inv host sprite_cell_ok).
  - apply handleInput_sprite.
  - apply farmer_update_sprite.
  - intros now p Hp. exact Hp.
Qed.

Lemma frame_speed fuel dt (g g' : t N) :
  boosted_or_base (player g) ->
  update host fuel dt g = Ok g' ->
  Farmer.baseSpeed (player g') = Farmer.baseSpeed (player g) /\
  boosted_or_base (player g').
Proof.
  intros Hb.
  apply (player_inv host (fun p => Farmer.baseSpeed p = Farmer.baseSpeed (player g) /\
                                   boosted_or_base p)); [| | |split; [reflexivity|exact Hb]].
  - intros i p [Hbase Hp]. unfold boosted_or_base, Farmer.handleInput in Hp |- * . cbv zeta.
    destruct (negb _ || negb _); cbn [Farmer.baseSpeed Farmer.speed]; auto.
  - intros now dt0 obs p [Hbase Hp]. unfold boosted_or_base, Farmer.update in Hp |- * .
    cbv zeta.
    destruct (Farmer.isMoving p); [destruct (_ >=. _)|];
      cbn [Farmer.baseSpeed Farmer.speed]; (split; [exact Hbase|]);
      destruct (_ >. _); auto.
  - intros now p [Hbase Hp]. split; [exact Hbase|]. right. reflexivity.
Qed.

Lemma update_goal fuel dt (g g' : t N) :
  goal g = requiredScore g -> update host fuel dt g = Ok g' -> goal g' = requiredScore g'.
Proof.
  apply (update_inv host (fun g => goal g = requiredScore g));
    try (intros ? Hg; exact Hg).
  apply (run_phase_inv host (fun g => goal g = requiredScore g));
    try (intros; assumption).
  - apply (collect_crops_inv host (fun g => goal g = requiredScore g));
      try (intros; assumption).
    apply (advanceLevel_inv host (fun g => goal g = requiredScore g)).
    intros g0 lc Hg _ _.
    apply (place_scarecrows_inv host (fun g => goal g = requiredScore g));
      [intros ? ? ? Hg'; exact Hg'|reflexivity].
  - apply (collect_powerUps_inv host (fun g => goal g = requiredScore g));
      intros; assumption.
  - apply (update_crows_inv host (fun g => goal g = requiredScore g)). intros; assumption.
  - apply (hit_crows_inv (fun g => goal g = requiredScore g)). intros; assumption.
Qed.

Lemma update_config_ok fuel dt (g g' : t N) :
  config_ok g -> update host fuel dt g = Ok g' -> config_ok g'.
Proof.
  intros Hc E. unfold config_ok in Hc |- * .
  destruct (update_untouched host fuel dt g g' E) as (Hcfg & _).
  rewrite Hcfg. destruct (config g); [exact Hc|].
  rewrite update_idle in E by (rewrite Hc; discriminate).
  injection E as <-. exact Hc.
Qed.

Lemma update_well_formed fuel dt (g g' : t N) :
  well_formed g -> update host fuel dt g = Ok g' -> well_formed g'.
Proof.
  intros (Hl & Hg & Hc & Hsp & Hb & Hbo & Ha) E.
  split; [|split; [|split; [|split; [|split; [|split]]]]].
  - destruct (update_level host fuel dt g g' E) as [-> | [Hlt ->]]; lia.
  - eapply update_goal; eassumption.
  - eapply update_config_ok; eassumption.
  - eapply frame_sprite; eassumption.
  - destruct (frame_speed fuel dt g g' Hbo E) as [Hb' _]. congruence.
  - destruct (frame_speed fuel dt g g' Hbo E) as [_ Hb']. exact Hb'.
  - eapply update_all_alive; eassumption.
Qed.

Lemma restarted_well_formed lc (g g' : t N) :
  config_ok g' -> restarted host lc g g' -> well_formed g'.
Proof.
  unfold restarted. intros Hc Hr.
  repeat match goal with H : _ /\ _ |- _ => destruct H end.
  unfold well_formed, all_alive.
  repeat match goal with
         | H : ?f g' = _ |- _ => rewrite H; clear H
         end.
  split; [lia|]. split; [reflexivity|]. split; [exact Hc|]. split; [split; cbn; lia|].
  split; [reflexivity|]. split; [left; reflexivity|]. repeat split; constructor.
Qed.

Lemma config_loaded_well_formed fetched (g g' : t N) :
  config_loaded host fetched g = Ok g' -> well_formed g'.
Proof.
  destruct (config_loaded_cases host fetched g)
    as (cfg & lc & rest & g1 & E & Hl & _ & Hc & Hr & _).
  rewrite E. intros [= <-].
  apply (restarted_well_formed lc g); [|exact Hr].
  unfold config_ok. cbn [config set_state]. rewrite Hc, Hl. discriminate.
Qed.

Lemma start_well_formed fetched (g g' : t N) :
  well_formed g -> start host fetched g = Ok g' -> well_formed g'.
Proof.
  intros Hg. destruct (state g) eqn:Hs;
    try (rewrite start_not_paused by (rewrite Hs; discriminate);
         apply config_loaded_well_formed).
  unfold start. rewrite Hs. intros [= <-].
  destruct Hg as (Hl & Hgo & Hc & Hrest).
  split; [exact Hl|]. split; [exact Hgo|]. split; [|exact Hrest].
  unfold config_ok in Hc |- * . cbn [config state set_state].
  destruct (config g); [exact Hc|congruence].
Qed.

Lemma reset_well_formed fetched (g g' : t N) :
  well_formed g -> reset host fetched g = Ok g' -> well_formed g'.
Proof.
  intros Hg. unfold reset. destruct (config g) as [cfg|] eqn:Hc;
    [|apply start_well_formed, Hg].
  intros E. apply resetWithConfig_Ok in E as (lc & rest & Hl & _ & Hc' & Hr).
  apply (restarted_well_formed lc g); [|exact Hr].
  unfold config_ok. rewrite Hc', Hc, Hl. discriminate.
Qed.

Lemma togglePause_well_formed (g : t N) : well_formed g -> well_formed (togglePause g).
Proof.
  intros Hg. unfold togglePause.
  destruct (state g) eqn:Hs; try exact Hg;
    destruct Hg as (Hl & Hgo & Hc & Hrest);
    (split; [exact Hl|]; split; [exact Hgo|]; split; [|exact Hrest]);
    unfold config_ok in Hc |- *; cbn [config state set_state];
    (destruct (config g); [exact Hc|congruence]).
Qed.

Lemma handle_well_formed fuel e (g g' : t N) :
  well_formed g -> handle host fuel e g = Ok g' -> well_formed g'.
Proof.
  intros Hg. destruct e as [ts|key|key|fetched|fetched|fetched]; cbn [handle].
  - unfold tick. cbv zeta. apply update_well_formed. exact Hg.
  - intros [= <-]. unfold onKeyDown.
    destruct (_ || _); [apply togglePause_well_formed in Hg|]; exact Hg.
  - intros [= <-]. exact Hg.
  - apply start_well_formed, Hg.
  - apply reset_well_formed, Hg.
  - apply config_loaded_well_formed.
Qed.

Lemma new_well_formed : well_formed (new (N := N)).
Proof.
  unfold well_formed, all_alive, config_ok, new.
  cbn [level goal requiredScore player crops powerUps crows config state].
  split; [lia|]. split; [reflexivity|]. split; [reflexivity|]. split; [split; cbn; lia|].
  split; [reflexivity|]. split; [left; reflexivity|]. repeat split; constructor.
Qed.

Lemma handle_returns fuel e (g : t N) :
  well_formed g -> is_frame e = false -> exists g', handle host fuel e g = Ok g'.
Proof.
  intros Hg He.
  assert (Hload : forall fetched, exists g', config_loaded host fetched g = Ok g').
  { intros fetched.
    destruct (config_loaded_cases host fetched g) as (_ & _ & _ & g1 & E & _).
    eexists. exact E. }
  assert (Hstart : forall fetched, exists g', start host fetched g = Ok g').
  { intros fetched. destruct (state g) eqn:Hs;
      try (rewrite start_not_paused by (rewrite Hs; discriminate); apply Hload).
    unfold start. rewrite Hs. eexists. reflexivity. }
  destruct e as [ts|key|key|fetched|fetched|fetched]; cbn [handle is_frame] in He |- * .
  - discriminate He.
  - eexists. reflexivity.
  - eexists. reflexivity.
  - apply Hstart.
  - unfold reset. destruct Hg as (_ & _ & Hc & _). unfold config_ok in Hc.
    destruct (config g) as [cfg|]; [|apply Hstart].
    destruct (Config.levels cfg) as [|lc rest] eqn:Hl; [contradiction|].
    destruct (resetWithConfig_restarts host cfg lc rest g Hl) as (g' & E & _).
    exists g'. exact E.
  - apply Hload.
Qed.

End Sessions.

(** X19.  Over every number instance, doubles included, the new game is well
    formed and every handler keeps it so: the level is 1, 2 or 3; the goal
    shown equals the required score; a configuration is loaded whenever the
    game has left the menu, and it has a first level; the sprite cell lies on
    the 4 x 4 sheet; the base speed is 260 and the speed is that or one and a
    half times it; and no listed crop, power-up or crow is marked dead.  So
    this holds after every [update] and in every state a sequence of events
    leads to.  In such a state every handler other than the frame callback
    returns normally. *)
Theorem X19_every_handler_keeps_the_game_well_formed {N} `{JsNumber N} (host : Host N) :
  well_formed (new (N := N)) /\
  (forall fuel dt (g g' : t N),
      well_formed g -> update host fuel dt g = Ok g' -> well_formed g') /\
  (forall fuel es (g g' : t N),
      well_formed g -> session host fuel es g = Ok g' -> well_formed g') /\
  (forall fuel e (g : t N),
      well_formed g -> is_frame e = false -> exists g', handle host fuel e g = Ok g').
Proof.
  split; [apply new_well_formed|]. split; [apply update_well_formed|].
  split; [|apply handle_returns].
  intros fuel. apply (session_inv host (well_formed (N := N)) fuel).
  intros e g g'. apply handle_well_formed.
Qed.

Lemma X19_witness :
  session demo_host 1 short_session new = Ok after_short_session /\
  well_formed after_short_session /\
  exists g', handle demo_host 1 (ClickReset None) after_short_session = Ok g'.
Proof.
  assert (E : session demo_host 1 short_session new = Ok after_short_session)
    by (vm_compute; reflexivity).
  assert (Hw : well_formed after_short_session).
  { destruct (X19_every_handler_keeps_the_game_well_formed (@demo_host Q _))
      as (Hnew & _ & Hsess & _).
    exact (Hsess 1 short_session new after_short_session Hnew E). }
  split; [exact E|]. split; [exact Hw|].
  exact (proj2 (proj2 (proj2 (X19_every_handler_keeps_the_game_well_formed
                                (@demo_host Q _))))
           1 (ClickReset None) after_short_session Hw eq_refl).
Defined.

(** ** The same, for what needs exact arithmetic *)

Lemma grid_box_inside w h e :
  (0 <= w <= 60)%Z -> (0 <= h <= 60)%Z -> grid_box w h e -> inside_field e.
Proof.
  intros Hw Hh ((col & row & Hc & Hr & Hx & Hy) & Ew & Eh).
  unfold inside_field. rewrite Hx, Hy, Ew, Eh.
  unfold WIDTH, HEIGHT. cbn [of_Z Q_number].
  rewrite <- !inject_Z_plus.
  change 0%Q with (inject_Z 0).
  rewrite <- !Zle_Qle. lia.
Qed.

Lemma keep_Forall_filter {A} (P : A -> Prop) f (l : list A) :
  Forall P l -> Forall P (filter f l).
Proof.
  intros Hl. apply Forall_forall. intros x Hx. apply filter_In in Hx as [Hx _].
  revert x Hx. apply Forall_forall. exact Hl.
Qed.

Section Placed.
Variable host : Host Q.
Hypothesis Hrandom : unit_random host.

Lemma new_on_grid i j w h :
  grid_box w h (Entity.new (random_gx host i) (random_gy host j) (inject_Z w) (inject_Z h)).
Proof.
  destruct (Hrandom i) as [Hi0 Hi1]. destruct (Hrandom j) as [Hj0 Hj1].
  destruct (random_gx_cell host i Hi0 Hi1) as (col & Hc & Hx).
  destruct (random_gy_cell host j Hj0 Hj1) as (row & Hr & Hy).
  split; [|split; reflexivity].
  exists col, row. cbn [Entity.x Entity.y Entity.new]. auto.
Qed.

Lemma place_scarecrows_grid n : forall g,
  field_on_grid g -> field_on_grid (place_scarecrows host n g).
Proof.
  induction n as [|n IH]; intros g Hg; cbn [place_scarecrows]; [exact Hg|].
  apply IH. destruct Hg as (Hc & Hp & Ho).
  split; [exact Hc|]. split; [exact Hp|].
  cbn [obstacles set_rnd set_obstacles]. apply Forall_app. split; [exact Ho|].
  constructor; [|constructor]. apply (new_on_grid _ _ 26 46).
Qed.

Lemma marked_crops_grid (t : Crop.t Q -> bool) l :
  Forall (fun c => grid_box 20 26 (Crop.base c)) l ->
  Forall (fun c => grid_box 20 26 (Crop.base c))
         (map (fun c => if t c then Crop.set_dead true c else c) l).
Proof.
  intros Hl. apply Forall_map. eapply Forall_impl; [|exact Hl].
  intros c Hc. destruct (t c); exact Hc.
Qed.

Lemma marked_powerUps_grid (t : PowerUp.t Q -> bool) l :
  Forall (fun p => grid_box 16 16 (PowerUp.base p)) l ->
  Forall (fun p => grid_box 16 16 (PowerUp.base p))
         (map (fun p => if t p then PowerUp.set_dead true p else p) l).
Proof.
  intros Hl. apply Forall_map. eapply Forall_impl; [|exact Hl].
  intros c Hc. destruct (t c); exact Hc.
Qed.

Lemma collect_powerUps_grid (g : t Q) :
  field_on_grid g -> field_on_grid (collect_powerUps host g).
Proof.
  intros (Hc & Hp & Ho). unfold collect_powerUps.
  match goal with |- context [fold_left ?f ?l ?g1] =>
    change f with (boost_step host);
    destruct (boost_fold host l g1) as (_ & Hpu & Hcr & Hob & _)
  end.
  cbv zeta in Hpu, Hcr, Hob. unfold field_on_grid. rewrite Hcr, Hpu, Hob.
  cbn [crops powerUps obstacles set_powerUps].
  split; [exact Hc|]. split; [|exact Ho]. apply marked_powerUps_grid, Hp.
Qed.

Lemma update_on_grid fuel dt (g g' : t Q) :
  field_on_grid g -> update host fuel dt g = Ok g' -> field_on_grid g'.
Proof.
  apply (update_inv host field_on_grid).
  - intros g0 Hg. exact Hg.
  - intros g0 Hg. exact Hg.
  - apply (run_phase_inv host field_on_grid); try (intros; assumption).
    + intros g0 (Hc & Hp & Ho). split; [|split; assumption].
      cbn [crops spawnCrop set_rnd set_crops]. apply Forall_app. split; [exact Hc|].
      constructor; [|constructor]. apply (new_on_grid _ _ 20 26).
    + intros g0 (Hc & Hp & Ho). split; [exact Hc|]. split; [|exact Ho].
      cbn [powerUps spawnPowerUp set_rnd set_powerUps]. apply Forall_app.
      split; [exact Hp|]. constructor; [|constructor]. apply (new_on_grid _ _ 16 16).
    + apply (collect_crops_inv host field_on_grid).
      * intros g0 s (Hc & Hp & Ho). split; [|split; assumption].
        cbn [crops set_score set_crops]. apply marked_crops_grid, Hc.
      * intros g0 Hg _. exact Hg.
      * apply (advanceLevel_inv host field_on_grid). intros g0 lc (Hc & Hp & Ho) _ _.
        apply place_scarecrows_grid. repeat split; constructor.
    + intros g0 (Hc & Hp & Ho). split; [|split; assumption].
      cbn [crops purge_crops set_crops]. apply keep_Forall_filter, Hc.
    + intros g0 (Hc & Hp & Ho). split; [|split; assumption].
      cbn [crops update_crops set_crops]. apply Forall_map.
      eapply Forall_impl; [|exact Hc]. intros c Hcb. exact Hcb.
    + apply collect_powerUps_grid.
    + intros g0 (Hc & Hp & Ho). split; [exact Hc|]. split; [|exact Ho].
      cbn [powerUps purge_powerUps set_powerUps]. apply keep_Forall_filter, Hp.
    + intros g0 (Hc & Hp & Ho). split; [exact Hc|]. split; [|exact Ho].
      cbn [powerUps update_powerUps set_powerUps]. apply Forall_map.
      eapply Forall_impl; [|exact Hp]. intros c Hcb. exact Hcb.
    + apply (update_crows_inv host field_on_grid). intros; assumption.
    + apply (hit_crows_inv field_on_grid). intros; assumption.
Qed.

Lemma resetWithConfig_on_grid cfg (g g' : t Q) :
  resetWithConfig host cfg g = Ok g' -> field_on_grid g'.
Proof.
  unfold resetWithConfig. intros E. apply bind_Ok in E as (lc & _ & E).
  injection E as <-. apply place_scarecrows_grid. repeat split; constructor.
Qed.

Lemma update_well_placed fuel dt (g g' : t Q) :
  well_placed g -> update host fuel dt g = Ok g' -> well_placed g'.
Proof.
  intros (Hp & Hg & Hs & Ht) E. split; [|split; [|split]].
  - eapply frame_inside_field; eassumption.
  - eapply update_on_grid; eassumption.
  - eapply update_score_nonneg; eassumption.
  - eapply frame_within_limit; [right; exact Ht|exact E].
Qed.

Lemma restarted_well_placed lc (g g' : t Q) :
  field_on_grid g' -> restarted host lc g g' -> well_placed g'.
Proof.
  intros Hgrid Hr. unfold restarted in Hr.
  repeat match goal with H : _ /\ _ |- _ => destruct H end.
  unfold well_placed.
  repeat match goal with
         | H : ?f g' = _ |- _ => rewrite H; clear H
         end.
  split; [|split; [exact Hgrid|split; [apply Qle_refl|apply Qle_refl]]].
  unfold inside_field. by_evaluation.
Qed.

Lemma config_loaded_well_placed fetched (g g' : t Q) :
  config_loaded host fetched g = Ok g' -> well_placed g'.
Proof.
  destruct (config_loaded_cases host fetched g)
    as (cfg & lc & rest & g1 & E & _ & _ & _ & Hr & Er & _).
  rewrite E. intros [= <-].
  apply (restarted_well_placed lc g g1); [|exact Hr].
  apply (resetWithConfig_on_grid cfg _ g1 Er).
Qed.

Lemma start_well_placed fetched (g g' : t Q) :
  well_placed g -> start host fetched g = Ok g' -> well_placed g'.
Proof.
  intros Hg. destruct (state g) eqn:Hs;
    try (rewrite start_not_paused by (rewrite Hs; discriminate);
         apply config_loaded_well_placed).
  unfold start. rewrite Hs. intros [= <-]. exact Hg.
Qed.

Lemma handle_well_placed fuel e (g g' : t Q) :
  well_placed g -> handle host fuel e g = Ok g' -> well_placed g'.
Proof.
  intros Hg. destruct e as [ts|key|key|fetched|fetched|fetched]; cbn [handle].
  - unfold tick. cbv zeta. apply update_well_placed. exact Hg.
  - intros [= <-]. unfold onKeyDown, togglePause.
    destruct (_ || _); [destruct (state g)|]; exact Hg.
  - intros [= <-]. exact Hg.
  - apply start_well_placed, Hg.
  - unfold reset. destruct (config g) as [cfg|]; [|apply start_well_placed, Hg].
    intros E. pose proof (resetWithConfig_on_grid cfg g g' E) as Hgrid.
    apply resetWithConfig_Ok in E as (lc & rest & _ & _ & _ & Hr).
    apply (restarted_well_placed lc g g'); assumption.
  - apply config_loaded_well_placed.
Qed.

Lemma new_well_placed : well_placed new.
Proof.
  unfold well_placed, field_on_grid, new.
  cbn [player crops powerUps obstacles score timeLeft maxTime].
  split; [unfold inside_field; by_evaluation|].
  split; [repeat split; constructor|]. split; apply Qle_refl.
Qed.

End Placed.

(** X20.  Over exact rationals and with random draws in [0, 1), the new game
    is well placed and every handler keeps it so: the player's box lies
    inside the field; every crop, power-up and scarecrow sits on a grid point
    of columns 1 to 28 and rows 1 to 16 with the size its constructor gave
    it, hence inside the field; the score is not negative; and the time left
    does not exceed the time limit.  So this holds after every [update] and
    in every state a sequence of events leads to. *)
Theorem X20_every_handler_keeps_the_game_well_placed (host : Host Q) :
  unit_random host ->
  well_placed new /\
  (forall fuel dt (g g' : t Q),
      well_placed g -> update host fuel dt g = Ok g' -> well_placed g') /\
  (forall fuel es (g g' : t Q),
      well_placed g -> session host fuel es g = Ok g' -> well_placed g') /\
  (forall g : t Q,
      well_placed g ->
      Forall (fun c => inside_field (Crop.base c)) (crops g) /\
      Forall (fun p => inside_field (PowerUp.base p)) (powerUps g) /\
      Forall inside_field (obstacles g)).
Proof.
  intros Hr. split; [apply new_well_placed|].
  split; [apply update_well_placed, Hr|]. split.
  - intros fuel. apply (session_inv host well_placed fuel).
    intros e g g'. apply handle_well_placed, Hr.
  - intros g (_ & (Hc & Hp & Ho) & _). split; [|split].
    + eapply Forall_impl; [|exact Hc]. intros c. apply grid_box_inside; lia.
    + eapply Forall_impl; [|exact Hp]. intros c. apply grid_box_inside; lia.
    + eapply Forall_impl; [|exact Ho]. intros c. apply grid_box_inside; lia.
Qed.

Lemma X20_witness :
  unit_random demo_host /\
  session demo_host 1 short_session new = Ok after_short_session /\
  well_placed after_short_session /\
  Forall inside_field (obstacles after_short_session).
Proof.
  assert (Hr : unit_random demo_host).
  { intros i. unfold demo_host. cbn [Math_random].
    destruct (Nat.ltb i 4); split; by_evaluation. }
  assert (E : session demo_host 1 short_session new = Ok after_short_session)
    by (vm_compute; reflexivity).
  destruct (X20_every_handler_keeps_the_game_well_placed demo_host Hr)
    as (Hnew & _ & Hsess & Hin).
  pose proof (Hsess 1 short_session new after_short_session Hnew E) as Hw.
  split; [exact Hr|]. split; [exact E|]. split; [exact Hw|].
  exact (proj2 (proj2 (Hin after_short_session Hw))).
Defined.

(** ** The same on doubles: the player and the clock *)

Lemma farmer_update_placed now dt obs (p : Farmer.t float) :
  placed_double p -> placed_double (Farmer.update now dt obs p).
Proof.
  intros Hp. unfold placed_double. rewrite update_base. cbv zeta.
  destruct (existsb _ obs); [exact Hp|].
  destruct Hp as (Hw & Hh & _ & _).
  cbn [Entity.x Entity.y Entity.w Entity.h Entity.set_pos].
  split; [exact Hw|]. split; [exact Hh|].
  unfold Farmer.candidate_x, Farmer.candidate_y. rewrite Hw, Hh.
  split; apply clamp_within; vm_compute; reflexivity.
Qed.

Lemma frame_placed_double (host : Host float) fuel dt (g g' : t float) :
  placed_double (player g) -> update host fuel dt g = Ok g' -> placed_double (player g').
Proof.
  apply (player_inv host placed_double).
  - intros i p Hp. unfold placed_double. rewrite handleInput_base. exact Hp.
  - intros now dt0 obs p Hp. apply farmer_update_placed, Hp.
  - intros now p Hp. exact Hp.
Qed.

Lemma new_placed_double : placed_double fresh_player_double.
Proof.
  unfold placed_double, within_double, fresh_player_double.
  cbn [Farmer.base Farmer.new Entity.new Entity.x Entity.y Entity.w Entity.h].
  split; [reflexivity|]. split; [reflexivity|].
  split; right; split; vm_compute; reflexivity.
Qed.

Lemma handle_placed_double (host : Host float) fuel e (g g' : t float) :
  placed_double (player g) -> handle host fuel e g = Ok g' -> placed_double (player g').
Proof.
  intros Hg.
  assert (Hload : forall fetched g1, config_loaded host fetched g = Ok g1 ->
                                     placed_double (player g1)).
  { intros fetched g1.
    destruct (config_loaded_cases host fetched g)
      as (cfg & lc & rest & g2 & E & _ & _ & _ & Hr & _).
    rewrite E. intros [= <-]. cbn [player set_state].
    unfold restarted in Hr.
    destruct Hr as (_ & _ & _ & _ & _ & _ & _ & _ & _ & _ & _ & _ & _ & _ & _ & _ & Hp & _).
    rewrite Hp. apply new_placed_double. }
  assert (Hstart : forall fetched g1, start host fetched g = Ok g1 ->
                                      placed_double (player g1)).
  { intros fetched g1. destruct (state g) eqn:Hs;
      try (rewrite start_not_paused by (rewrite Hs; discriminate); apply Hload).
    unfold start. rewrite Hs. intros [= <-]. exact Hg. }
  destruct e as [ts|key|key|fetched|fetched|fetched]; cbn [handle].
  - unfold tick. cbv zeta. apply frame_placed_double. exact Hg.
  - intros [= <-]. unfold onKeyDown, togglePause.
    destruct (_ || _); [destruct (state g)|]; exact Hg.
  - intros [= <-]. exact Hg.
  - apply Hstart.
  - unfold reset. destruct (config g) as [cfg|]; [|apply Hstart].
    intros E. apply resetWithConfig_Ok in E as (lc & rest & _ & _ & _ & Hr).
    destruct Hr as (_ & _ & _ & _ & _ & _ & _ & _ & _ & _ & _ & _ & _ & _ & _ & _ & Hp & _).
    rewrite Hp. apply new_placed_double.
  - apply Hload.
Qed.

(** X21.  On doubles, the player's box keeps the size 34 x 34 and each of its
    coordinates is NaN or lies inside the field, between 0 and 900 - 34
    across and between 0 and 540 - 34 down: this holds for the new game, is
    kept by [Farmer.update], by every [update] whatever [dt] is, and by every
    handler, hence in every state a sequence of events leads to. *)
Theorem X21_player_stays_inside_field_on_doubles (host : Host float) :
  placed_double (player new) /\
  (forall now dt obs (p : Farmer.t float),
      placed_double p -> placed_double (Farmer.update now dt obs p)) /\
  (forall fuel dt (g g' : t float),
      placed_double (player g) -> update host fuel dt g = Ok g' ->
      placed_double (player g')) /\
  (forall fuel es (g g' : t float),
      placed_double (player g) -> session host fuel es g = Ok g' ->
      placed_double (player g')).
Proof.
  split; [apply new_placed_double|]. split; [apply farmer_update_placed|].
  split; [apply frame_placed_double|].
  intros fuel. apply (session_inv host (fun g => placed_double (player g)) fuel).
  intros e g g'. apply handle_placed_double.
Qed.

Lemma X21_witness :
  session demo_host 1 double_session new = Ok after_double_session /\
  placed_double (player after_double_session).
Proof.
  assert (E : session demo_host 1 double_session new = Ok after_double_session)
    by (vm_compute; reflexivity).
  split; [exact E|].
  destruct (X21_player_stays_inside_field_on_doubles demo_host) as (Hnew & _ & _ & Hsess).
  exact (Hsess 1 double_session new after_double_session Hnew E).
Defined.

(** X22.  On doubles and with a time limit that is not NaN: after a playing
    frame that keeps the level, the time left is NaN or lies between 0 and
    the limit (when the limit is not negative).  A clock that is NaN, or a
    step [dt] that is NaN, never ends the game: the frame does not end in
    [GAME_OVER], and the clock is NaN afterwards. *)
Theorem X22_clock_on_doubles (host : Host float) fuel dt (g g' : t float) :
  state g = PLAYING ->
  not_nan (maxTime g) ->
  update host fuel dt g = Ok g' ->
  (F64.is_nan (timeLeft g) = true \/ F64.is_nan dt = true ->
     state g' <> GAME_OVER /\
     (level g' = level g -> F64.is_nan (timeLeft g') = true)) /\
  (level g' = level g -> (of_Z 0 <=. maxTime g) = true ->
     within_double (of_Z 0) (maxTime g) (timeLeft g')).
Proof.
  intros Hs Hm E.
  assert (H0 : not_nan (of_Z 0)) by (vm_compute; reflexivity).
  split.
  - intros Hnan.
    assert (Hc : F64.is_nan (timeLeft (countdown dt g)) = true).
    { cbn [timeLeft countdown set_timeLeft].
      apply (proj2 (clamp_double _ _ _ H0 Hm)). apply sub_nan, Hnan. }
    assert (Ht : (timeLeft (countdown dt g) <=. of_Z 0) = false)
      by (apply nan_not_le, Hc).
    split.
    + intros Hover.
      apply update_playing_cut in E; [|assumption..].
      destruct E as (g1 & g2 & E1 & E2 & ->).
      apply before_collect_same_run in E1. destruct E1 as (Hs1 & _).
      cbn [state countdown set_timeLeft] in Hs1.
      destruct (after_collect_state_level host dt g2) as [Hs3 _].
      rewrite Hs3 in Hover.
      apply collect_crops_outcome in E2.
      rewrite Hs1, Hs in E2.
      destruct E2 as [(Hst & _)|[(Hst & _)|(Hst & _)]]; congruence.
    + intros Hl. destruct (frame_timeLeft host fuel dt g g' Hs E Hl) as [Ht' _].
      rewrite Ht'. exact Hc.
  - intros Hl Hle. destruct (frame_timeLeft host fuel dt g g' Hs E Hl) as [Ht' _].
    rewrite Ht'. apply clamp_within; assumption.
Qed.

Lemma X22_witness :
  state (@started float _) = PLAYING /\
  F64.is_nan nan_step = true /\
  update demo_host 1 nan_step started = Ok after_nan_step /\
  state after_nan_step <> GAME_OVER /\
  F64.is_nan (timeLeft after_nan_step) = true.
Proof.
  assert (Hs : state (@started float _) = PLAYING) by (vm_compute; reflexivity).
  assert (Hm : not_nan (maxTime (@started float _))) by (vm_compute; reflexivity).
  assert (Hn : F64.is_nan nan_step = true) by (vm_compute; reflexivity).
  assert (E : update demo_host 1 nan_step started = Ok after_nan_step)
    by (vm_compute; reflexivity).
  assert (Hl : level after_nan_step = level (@started float _))
    by (vm_compute; reflexivity).
  destruct (proj1 (X22_clock_on_doubles demo_host 1 nan_step started after_nan_step
                     Hs Hm E) (or_intror Hn)) as [Hover Hnan].
  split; [exact Hs|]. split; [exact Hn|]. split; [exact E|]. split; [exact Hover|].
  exact (Hnan Hl).
Defined.
